(** * PayAid core: the OAuth2 authorization-code provider

    A shallow embedding of the OAuth2 provider of the core module:

    - [lib/redis/client.ts]:        class [Cache] ([get], [set], [delete]),
                                    [getRedisClient], [closeRedisConnection]
    - [api/oauth/authorize/route.ts]: [GET]  (mints a one-time code)
    - [api/oauth/token/route.ts]:     [POST] (code exchange, refresh rotation)
    - [api/oauth/userinfo/route.ts]:  [GET]  (identity claims)
    - [api/auth/me/route.ts]:         [GET]  (the user and its tenant)

    JavaScript values, [JSON.stringify] / [JSON.parse], the Redis server and
    the relational store are modelled concretely; the token codec
    ([@payaid/auth]) and the URL parser are interfaces.  The handlers are
    programs over an inductive free monad whose only suspension points are
    the [await]s of the source, so that both a sequential run and an
    interleaving of several requests can be evaluated. *)

From Stdlib Require Import ZArith NArith Ascii String DecimalString DecimalN.
From stdpp Require Import gmap strings list.

Set Default Proof Using "Type".
Set Warnings "-register-all".

(** ** JavaScript values *)

Module Js.

(** The JSON data model plus [undefined].  Numbers are restricted to
    integers.  The property list of an object is kept in enumeration
    order. *)
Inductive value : Type :=
| Undefined
| Null
| Bool (b : bool)
| Num (n : Z)
| Str (s : string)
| Arr (items : list value)
| Obj (fields : list (string * value)).

(** Induction principle that reaches below arrays and objects. *)
Fixpoint value_ind' (P : value -> Prop)
    (HU : P Undefined) (HN : P Null) (HB : forall b, P (Bool b))
    (HZ : forall n, P (Num n)) (HS : forall s, P (Str s))
    (HA : forall l, Forall P l -> P (Arr l))
    (HO : forall fs, Forall (fun kv => P (snd kv)) fs -> P (Obj fs))
    (v : value) {struct v} : P v :=
  let rec := value_ind' P HU HN HB HZ HS HA HO in
  match v with
  | Undefined => HU
  | Null => HN
  | Bool b => HB b
  | Num n => HZ n
  | Str s => HS s
  | Arr l =>
      HA l ((fix go (l : list value) : Forall P l :=
               match l with
               | [] => List.Forall_nil P
               | x :: l' => @List.Forall_cons _ P x l' (rec x) (go l')
               end) l)
  | Obj fs =>
      HO fs ((fix go (fs : list (string * value)) : Forall (fun kv => P (snd kv)) fs :=
                match fs with
                | [] => List.Forall_nil _
                | kv :: fs' => @List.Forall_cons _ _ kv fs' (rec (snd kv)) (go fs')
                end) fs)
  end.

(** The double-quote character, and a string between two of them. *)
Abbreviation dquote := (Ascii false true false false false true false false).

Definition quoted (s : string) : string :=
  String dquote (s +:+ String dquote EmptyString).

Definition is_undefined (v : value) : bool :=
  match v with
  | Undefined => true
  | _ => false
  end.

(** [ToBoolean]: the test of [if (x)], [!x], [x || d] and [x ? a : b]. *)
Definition truthy (v : value) : bool :=
  match v with
  | Undefined | Null => false
  | Bool b => b
  | Num n => negb (n =? 0)%Z
  | Str s => negb (String.eqb s "")
  | Arr _ | Obj _ => true
  end.

(** [a === b] for values that come from different sources: primitives are
    compared by value, objects and arrays by identity, and two values read
    from different places are never the same object. *)
Definition strict_eq (a b : value) : bool :=
  match a, b with
  | Undefined, Undefined => true
  | Null, Null => true
  | Bool x, Bool y => Bool.eqb x y
  | Num x, Num y => (x =? y)%Z
  | Str x, Str y => String.eqb x y
  | _, _ => false
  end.

Fixpoint assoc (k : string) (fs : list (string * value)) : option value :=
  match fs with
  | [] => None
  | (k', v) :: fs' => if String.eqb k k' then Some v else assoc k fs'
  end.

(** [o.k] on a value that is neither [null] nor [undefined]: own
    properties of an object; a primitive (a string, for one) has none of
    the names the handlers read. *)
Definition prop (v : value) (k : string) : value :=
  match v with
  | Obj fs => default Undefined (assoc k fs)
  | _ => Undefined
  end.

(** [o[k] = v]: replace in place, or append. *)
Fixpoint obj_set (fs : list (string * value)) (k : string) (v : value)
  : list (string * value) :=
  match fs with
  | [] => [(k, v)]
  | (k', v') :: fs' =>
      if String.eqb k k' then (k', v) :: fs' else (k', v') :: obj_set fs' k v
  end.

Definition print_N (n : N) : list ascii :=
  list_ascii_of_string (NilEmpty.string_of_uint (N.to_uint n)).

Definition print_Z (z : Z) : list ascii :=
  match z with
  | Z0 => print_N 0
  | Zpos p => print_N (Npos p)
  | Zneg p => "-"%char :: print_N (Npos p)
  end.

Fixpoint join (sep : list ascii) (parts : list (list ascii)) : list ascii :=
  match parts with
  | [] => []
  | [x] => x
  | x :: rest => x ++ sep ++ join sep rest
  end.

(** A number of the model stands for the double nearest to it (ties
    to even); a safe integer, below [2 ^ 53], is that double. *)
Definition to_double (n : N) : N :=
  if (n <? 2 ^ 53)%N then n
  else
    let sh := (N.log2 n - 52)%N in
    let q := N.shiftr n sh in
    let r := (n - N.shiftl q sh)%N in
    let half := N.shiftl 1 (sh - 1) in
    if (half <? r)%N || ((r =? half)%N && N.odd q)
    then N.shiftl (q + 1) sh
    else N.shiftl q sh.

(** The multiple of [10 ^ e] nearest to [x] among the two around it
    that the double [x] is the nearest double to, if there is one. *)
Definition rounded_at (x : N) (e : nat) : option N :=
  let m := (10 ^ N.of_nat e)%N in
  let lo := (x / m * m)%N in
  let hi := (lo + m)%N in
  let lo_ok := (0 <? lo)%N && (to_double lo =? x)%N in
  let hi_ok := (to_double hi =? x)%N in
  if lo_ok && hi_ok then
    if (x - lo <? hi - x)%N then Some lo
    else if (hi - x <? x - lo)%N then Some hi
    else if N.even (lo / m) then Some lo else Some hi
  else if lo_ok then Some lo
  else if hi_ok then Some hi
  else None.

(** The number with the fewest significant digits that the double [x]
    is the nearest double to: [es] are the powers of ten to try, the
    largest first. *)
Fixpoint shortest (x : N) (es : list nat) : N :=
  match es with
  | [] => x
  | e :: es' =>
      match rounded_at x e with
      | Some v => v
      | None => shortest x es'
      end
  end.

Fixpoint strip_zeros (rev_digits : list ascii) : list ascii :=
  match rev_digits with
  | c :: r => if Ascii.eqb c "0" then strip_zeros r else rev_digits
  | [] => []
  end.

(** [Number::toString] of a positive whole number: the digits of the
    shortest number that reads back as the same double, in full below
    [1e21] and as [d.ddde+x] from there on. *)
Definition print_double (n : N) : list ascii :=
  if (n <? 2 ^ 53)%N then print_N n
  else
    let x := to_double n in
    let len := length (print_N x) in
    let ds := print_N (shortest x (rev (seq 0 len))) in
    if (length ds <=? 21)%nat then ds
    else
      match rev (strip_zeros (rev ds)) with
      | [] => ds
      | [d] => d :: "e"%char :: "+"%char :: print_N (N.of_nat (length ds - 1))
      | d :: more =>
          d :: "."%char :: more ++
          "e"%char :: "+"%char :: print_N (N.of_nat (length ds - 1))
      end.

Definition print_number (z : Z) : list ascii :=
  match z with
  | Z0 => print_N 0
  | Zpos p => print_double (Npos p)
  | Zneg p => "-"%char :: print_double (Npos p)
  end.

(** [ToString], as applied by a template literal [`${v}`].  An object
    is written [[object Object]]; an object with a [toString] property
    of its own, on which the conversion throws, is outside the values
    modelled. *)
Fixpoint to_chars (v : value) : list ascii :=
  match v with
  | Undefined => list_ascii_of_string "undefined"
  | Null => list_ascii_of_string "null"
  | Bool true => list_ascii_of_string "true"
  | Bool false => list_ascii_of_string "false"
  | Num n => print_number n
  | Str s => list_ascii_of_string s
  | Arr l =>
      join [","%char]
        (map (fun x => match x with
                       | Undefined | Null => []
                       | _ => to_chars x
                       end) l)
  | Obj _ => list_ascii_of_string "[object Object]"
  end.

Definition to_string (v : value) : string := string_of_list_ascii (to_chars v).

End Js.

(** ** [JSON.stringify] and [JSON.parse] *)

Module JSON.
Import Js.

Definition hex_digit (n : N) : ascii :=
  match n with
  | 0 => "0" | 1 => "1" | 2 => "2" | 3 => "3" | 4 => "4" | 5 => "5"
  | 6 => "6" | 7 => "7" | 8 => "8" | 9 => "9" | 10 => "a" | 11 => "b"
  | 12 => "c" | 13 => "d" | 14 => "e" | _ => "f"
  end%N%char.

(** [QuoteJSONString], one code unit. *)
Definition quote_char (c : ascii) : list ascii :=
  let n := N_of_ascii c in
  if Ascii.eqb c dquote then ["\"%char; dquote]
  else if Ascii.eqb c "\" then ["\"; "\"]%char
  else if (n =? 8)%N then ["\"; "b"]%char
  else if (n =? 12)%N then ["\"; "f"]%char
  else if (n =? 10)%N then ["\"; "n"]%char
  else if (n =? 13)%N then ["\"; "r"]%char
  else if (n =? 9)%N then ["\"; "t"]%char
  else if (n <? 32)%N then
    ["\"; "u"; "0"; "0"; hex_digit (n / 16); hex_digit (n mod 16)]%char
  else [c].

Definition quote (s : string) : list ascii :=
  (dquote :: flat_map quote_char (list_ascii_of_string s)) ++ [dquote].

(** [SerializeJSONProperty] without indentation.  An [undefined] array
    element is written as [null]; an [undefined] property is left out.
    Numbers are written digit by digit, which is how the safe integers
    are written ([serializable] below keeps to them). *)
Fixpoint ser (v : value) : list ascii :=
  match v with
  | Undefined | Null => list_ascii_of_string "null"
  | Bool true => list_ascii_of_string "true"
  | Bool false => list_ascii_of_string "false"
  | Num n => print_Z n
  | Str s => quote s
  | Arr l => ("["%char :: join [","%char] (map ser l)) ++ ["]"%char]
  | Obj fs =>
      ("{"%char ::
         join [","%char]
           (flat_map (fun kv =>
                        if is_undefined (snd kv) then []
                        else [quote (fst kv) ++ ":"%char :: ser (snd kv)]) fs))
        ++ ["}"%char]
  end.

(** [JSON.stringify(v)]: [None] is the result [undefined]. *)
Definition stringify (v : value) : option string :=
  match v with
  | Undefined => None
  | _ => Some (string_of_list_ascii (ser v))
  end.

Definition is_ws (c : ascii) : bool :=
  let n := N_of_ascii c in
  ((n =? 32) || (n =? 9) || (n =? 10) || (n =? 13))%N.

Fixpoint skip_ws (s : list ascii) : list ascii :=
  match s with
  | c :: r => if is_ws c then skip_ws r else s
  | [] => []
  end.

Fixpoint strip (p s : list ascii) : option (list ascii) :=
  match p, s with
  | [], _ => Some s
  | a :: p', b :: s' => if Ascii.eqb a b then strip p' s' else None
  | _ :: _, [] => None
  end.

Definition is_digit (c : ascii) : bool :=
  let n := N_of_ascii c in ((48 <=? n) && (n <=? 57))%N.

Fixpoint span_digits (s : list ascii) : list ascii * list ascii :=
  match s with
  | c :: r =>
      if is_digit c then let '(d, r') := span_digits r in (c :: d, r')
      else ([], s)
  | [] => ([], [])
  end.

(** A digit string denotes a number only in canonical form (no leading
    zero, not empty). *)
Definition read_N (ds : list ascii) : option N :=
  match NilEmpty.uint_of_string (string_of_list_ascii ds) with
  | Some u =>
      let n := N.of_uint u in
      if decide (print_N n = ds) then Some n else None
  | None => None
  end.

Definition hex_val (c : ascii) : option N :=
  let n := N_of_ascii c in
  if ((48 <=? n) && (n <=? 57))%N then Some (n - 48)%N
  else if ((97 <=? n) && (n <=? 102))%N then Some (n - 87)%N
  else if ((65 <=? n) && (n <=? 70))%N then Some (n - 55)%N
  else None.

Definition unescape (e : ascii) : option ascii :=
  if Ascii.eqb e dquote then Some dquote
  else if Ascii.eqb e "\" then Some "\"%char
  else if Ascii.eqb e "/" then Some "/"%char
  else if Ascii.eqb e "b" then Some (ascii_of_N 8)
  else if Ascii.eqb e "f" then Some (ascii_of_N 12)
  else if Ascii.eqb e "n" then Some (ascii_of_N 10)
  else if Ascii.eqb e "r" then Some (ascii_of_N 13)
  else if Ascii.eqb e "t" then Some (ascii_of_N 9)
  else None.

Definition cons_res (c : ascii) (r : option (list ascii * list ascii))
  : option (list ascii * list ascii) :=
  match r with
  | Some (s, rest) => Some (c :: s, rest)
  | None => None
  end.

(** The characters of a string literal after the opening quote.  Code
    units are 8 bits wide here: a [\u] escape above [00ff] is refused. *)
Fixpoint parse_chars (s : list ascii) : option (list ascii * list ascii) :=
  match s with
  | [] => None
  | c :: r =>
      if Ascii.eqb c dquote then Some ([], r)
      else if Ascii.eqb c "\" then
        match r with
        | [] => None
        | e :: r1 =>
            if Ascii.eqb e "u" then
              match r1 with
              | h1 :: h2 :: h3 :: h4 :: r2 =>
                  match hex_val h1, hex_val h2, hex_val h3, hex_val h4 with
                  | Some a, Some b, Some c', Some d =>
                      if ((a =? 0) && (b =? 0))%N
                      then cons_res (ascii_of_N (c' * 16 + d)) (parse_chars r2)
                      else None
                  | _, _, _, _ => None
                  end
              | _ => None
              end
            else
              match unescape e with
              | Some c' => cons_res c' (parse_chars r1)
              | None => None
              end
        end
      else if (N_of_ascii c <? 32)%N then None
      else cons_res c (parse_chars r)
  end.

Definition parse_number (s : list ascii) : option (value * list ascii) :=
  match s with
  | c :: r =>
      if Ascii.eqb c "-" then
        let '(ds, rest) := span_digits r in
        match read_N ds with
        | Some n => Some (Num (- Z.of_N n), rest)
        | None => None
        end
      else
        let '(ds, rest) := span_digits s in
        match read_N ds with
        | Some n => Some (Num (Z.of_N n), rest)
        | None => None
        end
  | [] => None
  end.

Definition expect (c : ascii) (s : list ascii) : option (list ascii) :=
  match skip_ws s with
  | c' :: r => if Ascii.eqb c c' then Some r else None
  | [] => None
  end.

Fixpoint parse_value (fuel : nat) (s : list ascii) {struct fuel}
  : option (value * list ascii) :=
  match fuel with
  | O => None
  | S fuel' =>
      match skip_ws s with
      | [] => None
      | c :: r =>
          if Ascii.eqb c "n" then
            option_map (pair Null) (strip (list_ascii_of_string "ull") r)
          else if Ascii.eqb c "t" then
            option_map (pair (Bool true)) (strip (list_ascii_of_string "rue") r)
          else if Ascii.eqb c "f" then
            option_map (pair (Bool false)) (strip (list_ascii_of_string "alse") r)
          else if Ascii.eqb c dquote then
            match parse_chars r with
            | Some (str, r') => Some (Str (string_of_list_ascii str), r')
            | None => None
            end
          else if Ascii.eqb c "[" then
            match expect "]" r with
            | Some r' => Some (Arr [], r')
            | None => parse_elements fuel' r []
            end
          else if Ascii.eqb c "{" then
            match expect "}" r with
            | Some r' => Some (Obj [], r')
            | None => parse_members fuel' r []
            end
          else parse_number (c :: r)
      end
  end
with parse_elements (fuel : nat) (s : list ascii) (acc : list value) {struct fuel}
  : option (value * list ascii) :=
  match fuel with
  | O => None
  | S fuel' =>
      match parse_value fuel' s with
      | Some (v, r) =>
          match skip_ws r with
          | c :: r' =>
              if Ascii.eqb c "," then parse_elements fuel' r' (acc ++ [v])
              else if Ascii.eqb c "]" then Some (Arr (acc ++ [v]), r')
              else None
          | [] => None
          end
      | None => None
      end
  end
with parse_members (fuel : nat) (s : list ascii) (acc : list (string * value))
    {struct fuel} : option (value * list ascii) :=
  match fuel with
  | O => None
  | S fuel' =>
      match expect dquote s with
      | Some r0 =>
          match parse_chars r0 with
          | Some (k, r1) =>
              match expect ":" r1 with
              | Some r2 =>
                  match parse_value fuel' r2 with
                  | Some (v, r3) =>
                      let acc' := obj_set acc (string_of_list_ascii k) v in
                      match skip_ws r3 with
                      | c :: r4 =>
                          if Ascii.eqb c "," then parse_members fuel' r4 acc'
                          else if Ascii.eqb c "}" then Some (Obj acc', r4)
                          else None
                      | [] => None
                      end
                  | None => None
                  end
              | None => None
              end
          | None => None
          end
      | None => None
      end
  end.

(** [JSON.parse(text)] on the texts of the values modelled: integers
    written digit by digit and string literals of 8-bit code units.
    [None] is a thrown [SyntaxError]; a text with a fraction, an
    exponent or a [\u] escape above [00ff], which JavaScript reads as a
    value that is not modelled, is [None] too, so that nothing is to be
    concluded from [None] alone about such a text. *)
Definition parse (text : string) : option value :=
  let s := list_ascii_of_string text in
  match parse_value (S (length s)) s with
  | Some (v, rest) =>
      match skip_ws rest with
      | [] => Some v
      | _ :: _ => None
      end
  | None => None
  end.

(** A value that [JSON.stringify] writes without loss: no [undefined]
    inside, safe integers, distinct property names. *)
Fixpoint serializable (v : value) : Prop :=
  match v with
  | Undefined => False
  | Null | Bool _ | Str _ => True
  | Num n => (- 2 ^ 53 < n < 2 ^ 53)%Z
  | Arr l => (fix all (l : list value) : Prop :=
                match l with
                | [] => True
                | x :: l' => serializable x /\ all l'
                end) l
  | Obj fs => NoDup (map fst fs) /\
              (fix all (fs : list (string * value)) : Prop :=
                 match fs with
                 | [] => True
                 | kv :: fs' => serializable (snd kv) /\ all fs'
                 end) fs
  end.

End JSON.

(** ** The backing services *)

(** The relational store, as far as the provider reads it: the [User]
    and [Tenant] tables.  [findUnique] with [include: { tenant: true }]
    joins them. *)
Module Db.

Record tenant_row := {
  tenant_name : string;
  subdomain : string;
  licensedModules : option (list string);
  subscriptionTier : option string
}.

Record user_row := {
  email : string;
  name : option string;
  role : string;
  emailVerified : option bool;
  tenantId : string
}.

Record user := {
  id : string;
  row : user_row;
  tenant : option tenant_row
}.

End Db.

(** The Redis server: string values with an optional expiry instant, in
    milliseconds. *)
Module Redis.

Record entry := { data : string; expires_at : option N }.

Definition live (now : N) (e : entry) : bool :=
  match expires_at e with
  | Some t => (now <? t)%N
  | None => true
  end.

Definition GET (now : N) (key : string) (s : gmap string entry) : option string :=
  match s !! key with
  | Some e => if live now e then Some (data e) else None
  | None => None
  end.

Definition SET (key value : string) (s : gmap string entry) : gmap string entry :=
  <[key := {| data := value; expires_at := None |}]> s.

(** The server keeps an expiry as a 64-bit signed count of
    milliseconds. *)
Definition LLONG_MAX : Z := 9223372036854775807.

(** The largest expire time in seconds whose milliseconds fit. *)
Definition max_seconds : Z := 9223372036854775.

(** [SETEX] refuses an expire time that is not positive or is above
    [max_seconds]; so is every whole number that the client does not
    write digit by digit (from [1e21] on), which the server cannot read
    as an integer.  The server also refuses an expiry instant,
    [now + 1000 * seconds], past [LLONG_MAX]: the clock modelled here
    has no end, and that bound is a hypothesis of the theorems that
    range over the expire times. *)
Definition SETEX (now : N) (key : string) (seconds : Z) (value : string)
    (s : gmap string entry) : option (gmap string entry) :=
  if ((0 <? seconds) && (seconds <=? max_seconds))%Z
  then Some (<[key := {| data := value;
                         expires_at := Some (now + 1000 * Z.to_N seconds)%N |}]> s)
  else None.

Definition DEL (key : string) (s : gmap string entry) : gmap string entry :=
  delete key s.

End Redis.

Record world := {
  redis : gmap string Redis.entry;
  users : gmap string Db.user_row;
  tenants : gmap string Db.tenant_row;
  now : N
}.

Definition set_redis (s : gmap string Redis.entry) (w : world) : world :=
  {| redis := s; users := users w; tenants := tenants w; now := now w |}.

Definition tick (d : N) (w : world) : world :=
  {| redis := redis w; users := users w; tenants := tenants w;
     now := (now w + d)%N |}.

(** ** Promises *)

Inductive exn : Type :=
| Error (message : string).

Inductive result (A : Type) : Type :=
| Ok (a : A)
| Throw (e : exn).
Arguments Ok {A} a.
Arguments Throw {A} e.

(** What the handlers [await]: a command of the Redis client, a query
    of the relational store, or [RaceTimer c ms], which is
    [Promise.race([c, timer])] with a timer that resolves after [ms]
    milliseconds ([None] when the timer wins). *)
Inductive call : Type -> Type :=
| RedisGet (key : string) : call (option string)
| RedisSet (key value : string) : call unit
| RedisSetex (key : string) (seconds : Z) (value : string) : call unit
| RedisDel (key : string) : call unit
| FindUnique (id : Js.value) : call (option Db.user)
| RaceTimer {T : Type} (c : call T) (ms : N) : call (option T).

(** How the backend answers one call: a reply after [lat] milliseconds,
    or a rejection (connection down, no offline queue).  Every caller
    of a raced command maps a rejection to the result of the timer, so
    the delay of a rejection is not kept. *)
Inductive outcome : Type :=
| Replies (lat : N)
| Fails.

(** [commandTimeout: 1000] of the Redis client. *)
Definition commandTimeout : N := 1000.

(** [prisma.user.findUnique({ where: { id }, include: { tenant: true } })].
    The client validates its argument before it queries: an [id] that is
    not a string ([undefined], when it is read off a payload that is not
    an object) is refused with a validation error. *)
Definition findUnique (id : Js.value) (w : world) : result (option Db.user) :=
  match id with
  | Js.Str i =>
      Ok (match users w !! i with
          | Some r => Some {| Db.id := i; Db.row := r;
                              Db.tenant := tenants w !! Db.tenantId r |}
          | None => None
          end)
  | _ => Throw (Error "PrismaClientValidationError")
  end.

(** The effect of a call on the world and what its promise settles to.
    The client holds one connection and the server applies commands in
    the order it receives them, so a command is applied when it is
    issued; the clock then moves by the time the caller waited.  A reply
    later than [commandTimeout] rejects the promise of a command that
    was applied all the same. *)
Fixpoint perform {T : Type} (c : call T) (o : outcome) (w : world)
  : result T * world :=
  match c in call T return result T * world with
  | RedisGet key =>
      match o with
      | Replies lat =>
          if (lat <? commandTimeout)%N
          then (Ok (Redis.GET (now w) key (redis w)), tick lat w)
          else (Throw (Error "Command timed out"), tick commandTimeout w)
      | Fails => (Throw (Error "Connection is closed."), w)
      end
  | RedisSet key value =>
      match o with
      | Replies lat =>
          let w' := set_redis (Redis.SET key value (redis w)) w in
          if (lat <? commandTimeout)%N
          then (Ok tt, tick lat w')
          else (Throw (Error "Command timed out"), tick commandTimeout w')
      | Fails => (Throw (Error "Connection is closed."), w)
      end
  | RedisSetex key seconds value =>
      match o with
      | Replies lat =>
          match Redis.SETEX (now w) key seconds value (redis w) with
          | Some s =>
              if (lat <? commandTimeout)%N
              then (Ok tt, tick lat (set_redis s w))
              else (Throw (Error "Command timed out"),
                    tick commandTimeout (set_redis s w))
          | None => (Throw (Error "ERR invalid expire time"), tick lat w)
          end
      | Fails => (Throw (Error "Connection is closed."), w)
      end
  | RedisDel key =>
      match o with
      | Replies lat =>
          let w' := set_redis (Redis.DEL key (redis w)) w in
          if (lat <? commandTimeout)%N
          then (Ok tt, tick lat w')
          else (Throw (Error "Command timed out"), tick commandTimeout w')
      | Fails => (Throw (Error "Connection is closed."), w)
      end
  | FindUnique id =>
      match o with
      | Replies lat => (findUnique id w, tick lat w)
      | Fails => (Throw (Error "Can't reach database server"), w)
      end
  | @RaceTimer T' c' ms =>
      match o with
      | Replies lat =>
          if (lat <? ms)%N then
            let '(r, w') := perform c' o w in
            (match r with
             | Ok x => Ok (Some x)
             | Throw e => Throw e
             end, w')
          else
            let '(_, w') := perform c' o w in
            (Ok None, {| redis := redis w'; users := users w';
                         tenants := tenants w'; now := (now w + ms)%N |})
      | Fails =>
          let '(r, w') := perform c' o w in
          (match r with
           | Ok x => Ok (Some x)
           | Throw e => Throw e
           end, w')
      end
  end.

(** A handler: a tree of [await]s, ended by a value or a throw. *)
Inductive prog (A : Type) : Type :=
| Done (r : result A)
| Await {T : Type} (c : call T) (k : result T -> prog A).
Arguments Done {A} r.
Arguments Await {A T} c k.

Definition ret {A : Type} (a : A) : prog A := Done (Ok a).
Definition throw {A : Type} (e : exn) : prog A := Done (Throw e).
Definition await {T : Type} (c : call T) : prog T := Await c Done.

Fixpoint bind {A B : Type} (p : prog A) (f : A -> prog B) : prog B :=
  match p with
  | Done (Ok a) => f a
  | Done (Throw e) => Done (Throw e)
  | Await c k => Await c (fun r => bind (k r) f)
  end.

(** [try { p } catch (e) { h e }] *)
Fixpoint try_catch {A : Type} (p : prog A) (h : exn -> prog A) : prog A :=
  match p with
  | Done (Ok a) => Done (Ok a)
  | Done (Throw e) => h e
  | Await c k => Await c (fun r => try_catch (k r) h)
  end.

Notation "'let*' x ':=' p 'in' q" := (bind p (fun x => q))
  (at level 10, x name, p at level 100, q at level 200).

(** One request served alone.  The calls of a run are numbered as they
    are issued and call [n] is answered as [o n] says; [next] is the
    number of the call that would come after the run. *)
Record ran (A : Type) : Type := {
  returned : result A;
  final : world;
  next : nat
}.
Arguments returned {A} r.
Arguments final {A} r.
Arguments next {A} r.

Fixpoint run {A : Type} (p : prog A) (o : nat -> outcome) (n : nat) (w : world)
  : ran A :=
  match p with
  | Done r => {| returned := r; final := w; next := n |}
  | Await c k =>
      let '(r, w') := perform c (o n) w in
      run (k r) o (S n) w'
  end.

(** Answers given as a list; calls beyond it fail. *)
Definition answers (l : list outcome) : nat -> outcome :=
  fun n => nth n l Fails.

(** Several requests in flight: the scheduler resumes request [i] at its
    pending [await], whose call is answered with [o]. *)
Definition resume {A : Type} (p : prog A) (o : outcome) (w : world)
  : prog A * world :=
  match p with
  | Done r => (Done r, w)
  | Await c k => let '(r, w') := perform c o w in (k r, w')
  end.

Fixpoint run_schedule {A : Type} (sched : list (nat * outcome))
    (pool : list (prog A)) (w : world) : list (prog A) * world :=
  match sched with
  | [] => (pool, w)
  | (i, o) :: sched' =>
      match pool !! i with
      | Some p =>
          let '(p', w') := resume p o w in
          run_schedule sched' (<[i := p']> pool) w'
      | None => run_schedule sched' pool w
      end
  end.

(** ** [lib/redis/client.ts]: class [Cache] *)

Module Cache.
Import Js.

(** [async get<T>(key)] *)
Definition get (key : string) : prog value :=
  try_catch
    (let* value := await (RaceTimer (RedisGet key) 100) in
     match value with
     | Some (Some text) =>
         if String.eqb text "" then ret Null
         else match JSON.parse text with
              | Some v => ret v
              | None => throw (Error "SyntaxError")
              end
     | _ => ret Null
     end)
    (fun _ => ret Null).

(** [async set(key, value, ttlSeconds?)].  A [value] that
    [JSON.stringify] maps to [undefined] cannot be written as a command
    argument. *)
Definition set (key : string) (value : Js.value) (ttlSeconds : option Z)
  : prog unit :=
  try_catch
    (match JSON.stringify value with
     | Some serialized =>
         let* _ :=
           await (RaceTimer
                    (match ttlSeconds with
                     | Some t =>
                         if (t =? 0)%Z then RedisSet key serialized
                         else RedisSetex key t serialized
                     | None => RedisSet key serialized
                     end) 100) in
         ret tt
     | None => throw (Error "TypeError")
     end)
    (fun _ => ret tt).

(** [async delete(key)] *)
Definition delete (key : string) : prog unit :=
  try_catch
    (let* _ := await (RedisDel key) in ret tt)
    (fun _ => ret tt).

End Cache.

(** ** What the routes import *)

(** The claims of a session token ([@payaid/auth]). *)
Record claims := {
  userId : string;
  c_tenantId : string;
  c_email : string;
  c_role : string;
  c_licensedModules : list string;
  c_subscriptionTier : string
}.

(** A parsed URL: everything before the query, and the query. *)
Record URL := { base : string; searchParams : list (string * string) }.

(** [url.searchParams.set(k, v)]: the first pair named [k] takes [v] and
    the others go; without one, the pair is appended. *)
Fixpoint searchParams_set (ps : list (string * string)) (k v : string)
  : list (string * string) :=
  match ps with
  | [] => [(k, v)]
  | (k', v') :: ps' =>
      if String.eqb k k'
      then (k, v) :: filter (fun kv => negb (String.eqb k (fst kv))) ps'
      else (k', v') :: searchParams_set ps' k v
  end.

Definition URL_set (u : URL) (k v : string) : URL :=
  {| base := base u; searchParams := searchParams_set (searchParams u) k v |}.

(** The code outside this repository that the routes call: the token
    codec of [@payaid/auth] and the URL parser of the runtime.  [None]
    is a throw.  [verifyToken] is the codec's answer at the time of the
    request. *)
Class Platform := {
  signToken : claims -> string;
  verifyToken : string -> option claims;
  new_URL : string -> option URL;
  new_URL_login : string -> option URL
}.

(** [process.env] *)
Record process_env := {
  OAUTH_CLIENT_ID : option string;
  OAUTH_CLIENT_SECRET : option string
}.

Definition env_value (x : option string) : Js.value :=
  match x with
  | Some s => Js.Str s
  | None => Js.Undefined
  end.

(** A value that is [null] when absent ([searchParams.get],
    [headers.get], a nullable column). *)
Definition nullable (x : option string) : Js.value :=
  match x with
  | Some s => Js.Str s
  | None => Js.Null
  end.

Inductive response : Type :=
| NextResponse_json (body : Js.value) (status : N)
| NextResponse_redirect (target : URL).

Definition oauth_error (error error_description : string) (status : N) : response :=
  NextResponse_json
    (Js.Obj [("error", Js.Str error);
             ("error_description", Js.Str error_description)]) status.

(** [crypto.randomBytes(n).toString('hex')], from the bytes drawn. *)
Definition toString_hex (bytes : list ascii) : string :=
  string_of_list_ascii
    (flat_map (fun b => let n := N_of_ascii b in
                        [JSON.hex_digit (n / 16); JSON.hex_digit (n mod 16)])
       bytes).

Definition stringify_or_undefined (v : Js.value) : Js.value :=
  match JSON.stringify v with
  | Some text => Js.Str text
  | None => Js.Undefined
  end.

(** [user.tenant.licensedModules || []] and
    [user.tenant.subscriptionTier || 'free'] *)
Definition modules_or_empty (m : option (list string)) : list string :=
  default [] m.

Definition tier_or_free (t : option string) : string :=
  match t with
  | Some s => if String.eqb s "" then "free" else s
  | None => "free"
  end.

Definition invalid_client : response :=
  oauth_error "invalid_client" "Invalid client credentials" 401.

Definition server_error (description : string) : response :=
  oauth_error "server_error" description 500.

(** ** [api/oauth/token/route.ts] *)

Module Token.
Import Js.

Section Route.
Context {platform : Platform}.
Variable env : process_env.

(** The claims handed to [signToken]; reading [user.tenant.licensedModules]
    throws when the join found no tenant. *)
Definition sign_for (user : Db.user) : prog string :=
  match Db.tenant user with
  | Some t =>
      ret (signToken
             {| userId := Db.id user;
                c_tenantId := Db.tenantId (Db.row user);
                c_email := Db.email (Db.row user);
                c_role := Db.role (Db.row user);
                c_licensedModules := modules_or_empty (Db.licensedModules t);
                c_subscriptionTier := tier_or_free (Db.subscriptionTier t) |})
  | None => throw (Error "TypeError")
  end.

Definition refresh_payload (user : Db.user) (client_id : value) : value :=
  stringify_or_undefined
    (Obj [("userId", Str (Db.id user));
          ("tenantId", Str (Db.tenantId (Db.row user)));
          ("clientId", client_id)]).

Definition bad_client (client_id client_secret : value) : bool :=
  negb (strict_eq client_id (env_value (OAUTH_CLIENT_ID env))) ||
  negb (strict_eq client_secret (env_value (OAUTH_CLIENT_SECRET env))).

(** The branch [grant_type === 'refresh_token']. *)
Definition refresh_grant (randomBytes : list ascii) (body : value) : prog response :=
  let client_id := prop body "client_id" in
  let client_secret := prop body "client_secret" in
  let refresh_token := prop body "refresh_token" in
  if negb (truthy refresh_token) then
    ret (oauth_error "invalid_request" "Refresh token is required" 400)
  else if bad_client client_id client_secret then
    ret invalid_client
  else
    let* refreshData := Cache.get ("oauth:refresh:" +:+ to_string refresh_token) in
    if negb (truthy refreshData) then
      ret (oauth_error "invalid_grant" "Refresh token is invalid or expired" 400)
    else
      let* user := await (FindUnique (prop refreshData "userId")) in
      match user with
      | None => ret (oauth_error "invalid_grant" "User not found" 400)
      | Some user =>
          let* newToken := sign_for user in
          let newRefreshToken := toString_hex randomBytes in
          let* _ := Cache.delete ("oauth:refresh:" +:+ to_string refresh_token) in
          let* _ := Cache.set ("oauth:refresh:" +:+ newRefreshToken)
                      (refresh_payload user client_id) (Some 2592000%Z) in
          ret (NextResponse_json
                 (Obj [("access_token", Str newToken);
                       ("token_type", Str "Bearer");
                       ("expires_in", Num 86400);
                       ("refresh_token", Str newRefreshToken)]) 200)
      end.

(** The rest of the handler: the authorization-code grant. *)
Definition code_grant (randomBytes : list ascii) (body : value) : prog response :=
  let grant_type := prop body "grant_type" in
  let code := prop body "code" in
  let redirect_uri := prop body "redirect_uri" in
  let client_id := prop body "client_id" in
  let client_secret := prop body "client_secret" in
  if negb (strict_eq grant_type (Str "authorization_code")) then
    ret (oauth_error "unsupported_grant_type"
           ("Only " +:+ quoted "authorization_code" +:+ " and " +:+
            quoted "refresh_token" +:+ " grant types are supported")
           400)
  else if bad_client client_id client_secret then
    ret invalid_client
  else if negb (truthy code) then
    ret (oauth_error "invalid_request" "Authorization code is required" 400)
  else
    let* codeData := Cache.get ("oauth:code:" +:+ to_string code) in
    if negb (truthy codeData) then
      ret (oauth_error "invalid_grant" "Authorization code is invalid or expired" 400)
    else if negb (strict_eq redirect_uri (prop codeData "redirectUri")) then
      ret (oauth_error "invalid_grant" "redirect_uri does not match" 400)
    else
      let* _ := Cache.delete ("oauth:code:" +:+ to_string code) in
      let* user := await (FindUnique (prop codeData "userId")) in
      match user with
      | None => ret (oauth_error "invalid_grant" "User not found" 400)
      | Some user =>
          let* token := sign_for user in
          let refreshToken := toString_hex randomBytes in
          let* _ := Cache.set ("oauth:refresh:" +:+ refreshToken)
                      (refresh_payload user client_id) (Some 2592000%Z) in
          ret (NextResponse_json
                 (Obj [("access_token", Str token);
                       ("token_type", Str "Bearer");
                       ("expires_in", Num 86400);
                       ("refresh_token", Str refreshToken);
                       ("scope", prop codeData "scope")]) 200)
      end.

(** [export async function POST(request)].  [request_json] is what
    [await request.json()] gives ([None]: it rejects); [randomBytes] are
    the 32 bytes [crypto.randomBytes] draws on the paths that mint a
    refresh token.  Destructuring a [null] body throws. *)
Definition POST (randomBytes : list ascii) (request_json : option value)
  : prog response :=
  try_catch
    (match request_json with
     | None => throw (Error "SyntaxError")
     | Some Null | Some Undefined => throw (Error "TypeError")
     | Some body =>
         if strict_eq (prop body "grant_type") (Str "refresh_token")
         then refresh_grant randomBytes body
         else code_grant randomBytes body
     end)
    (fun _ => ret (server_error "An error occurred during token exchange")).

End Route.
End Token.

(** ** [api/oauth/authorize/route.ts] *)

Module Authorize.
Import Js.

Record request := {
  url : string;
  client_id : option string;
  redirect_uri : option string;
  response_type : option string;
  state : option string;
  scope : option string;
  cookie_payaid_token : option string
}.

Definition nonempty (x : option string) : option string :=
  match x with
  | Some s => if String.eqb s "" then None else Some s
  | None => None
  end.

Section Route.
Context {platform : Platform}.
Variable env : process_env.

(** [NextResponse.redirect] to [/login] with the request URL as the
    return address. *)
Definition redirect_login (req : request) : prog response :=
  match new_URL_login (url req) with
  | Some loginUrl =>
      ret (NextResponse_redirect (URL_set loginUrl "redirect" (url req)))
  | None => throw (Error "TypeError")
  end.

Definition code_payload (user : Db.user) (redirectUri : string)
    (clientId : option string) (scope : string) : value :=
  stringify_or_undefined
    (Obj [("userId", Str (Db.id user));
          ("tenantId", Str (Db.tenantId (Db.row user)));
          ("redirectUri", Str redirectUri);
          ("clientId", nullable clientId);
          ("scope", Str scope)]).

(** [export async function GET(request)]; [randomBytes] are the 32 bytes
    drawn for the code. *)
Definition GET (randomBytes : list ascii) (req : request) : prog response :=
  try_catch
    (let clientId := client_id req in
     let scope := default "openid profile email" (nonempty (scope req)) in
     if negb (strict_eq (nullable clientId) (env_value (OAUTH_CLIENT_ID env))) then
       ret (oauth_error "invalid_client" "Invalid client_id" 400)
     else if negb (strict_eq (nullable (response_type req)) (Str "code")) then
       ret (oauth_error "unsupported_response_type"
              ("Only " +:+ quoted "code" +:+ " response type is supported") 400)
     else
       match nonempty (redirect_uri req) with
       | None => ret (oauth_error "invalid_request" "redirect_uri is required" 400)
       | Some redirectUri =>
           match nonempty (cookie_payaid_token req) with
           | None => redirect_login req
           | Some token =>
               try_catch
                 (match verifyToken token with
                  | None => throw (Error "JsonWebTokenError")
                  | Some payload =>
                      let* user := await (FindUnique (Str (userId payload))) in
                      match user with
                      | None => throw (Error "User not found")
                      | Some user =>
                          let authCode := toString_hex randomBytes in
                          let* _ := Cache.set ("oauth:code:" +:+ authCode)
                                      (code_payload user redirectUri clientId scope)
                                      (Some 300%Z) in
                          match new_URL redirectUri with
                          | None => throw (Error "TypeError")
                          | Some redirectUrl =>
                              let withCode := URL_set redirectUrl "code" authCode in
                              ret (NextResponse_redirect
                                     match nonempty (state req) with
                                     | Some s => URL_set withCode "state" s
                                     | None => withCode
                                     end)
                          end
                      end
                  end)
                 (fun _ => redirect_login req)
           end
       end)
    (fun _ => ret (server_error "An error occurred during authorization")).

End Route.
End Authorize.

(** ** [api/oauth/userinfo/route.ts] *)

Module UserInfo.
Import Js.

Definition unauthorized : response :=
  oauth_error "unauthorized" "Missing or invalid authorization header" 401.

Definition userinfo_body (user : Db.user) : value :=
  let r := Db.row user in
  let t := Db.tenant user in
  Obj [("sub", Str (Db.id user));
       ("email", Str (Db.email r));
       ("name", nullable (Db.name r));
       ("email_verified", Bool (default false (Db.emailVerified r)));
       ("role", Str (Db.role r));
       ("tenant_id", Str (Db.tenantId r));
       ("tenant_name",
         match t with Some t => Str (Db.tenant_name t) | None => Undefined end);
       ("tenant_subdomain",
         match t with Some t => Str (Db.subdomain t) | None => Undefined end);
       ("licensed_modules",
         Arr (map Str (modules_or_empty (t ≫= Db.licensedModules))));
       ("subscription_tier",
         Str (tier_or_free (t ≫= Db.subscriptionTier)))].

Section Route.
Context {platform : Platform}.

(** [export async function GET(request)], from the [authorization]
    header. *)
Definition GET (authorization : option string) : prog response :=
  try_catch
    (match authorization with
     | Some authHeader =>
         if negb (String.eqb authHeader "") && String.prefix "Bearer " authHeader
         then
           let token := String.substring 7 (String.length authHeader - 7) authHeader in
           try_catch
             (match verifyToken token with
              | None => throw (Error "JsonWebTokenError")
              | Some payload =>
                  let* user := await (FindUnique (Str (userId payload))) in
                  match user with
                  | None => ret (oauth_error "user_not_found" "User not found" 404)
                  | Some user => ret (NextResponse_json (userinfo_body user) 200)
                  end
              end)
             (fun _ => ret (oauth_error "invalid_token" "Invalid or expired token" 401))
         else ret unauthorized
     | None => ret unauthorized
     end)
    (fun _ => ret (server_error "An error occurred while fetching user info")).

End Route.
End UserInfo.

(** ** Vocabulary: the round trip through JSON *)

Module JSONSpec.
Import Js JSON.

(** The characters a serialized value can start with. *)
Definition value_start (c : ascii) : bool :=
  is_digit c || Ascii.eqb c "-" || Ascii.eqb c "n" || Ascii.eqb c "t" ||
  Ascii.eqb c "f" || Ascii.eqb c dquote || Ascii.eqb c "[" || Ascii.eqb c "{".

(** What may follow a value: anything but a digit. *)
Definition follow_ok (rest : list ascii) : Prop :=
  match rest with
  | [] => True
  | c :: _ => is_digit c = false
  end.

Fixpoint size (v : value) : nat :=
  match v with
  | Arr l => S ((fix go (l : list value) : nat :=
                   match l with
                   | [] => 0
                   | x :: l' => S (size x) + go l'
                   end) l)
  | Obj fs => S ((fix go (fs : list (string * value)) : nat :=
                    match fs with
                    | [] => 0
                    | kv :: fs' => S (size (snd kv)) + go fs'
                    end) fs)
  | _ => 1
  end.

Definition size_items (l : list value) : nat :=
  fold_right (fun x n => S (size x) + n) 0 l.

Definition size_fields (fs : list (string * value)) : nat :=
  fold_right (fun kv n => S (size (snd kv)) + n) 0 fs.

(** The round-trip property of one value, as the induction carries it. *)
Definition parses_back (v : value) : Prop :=
  forall fuel rest,
    size v <= fuel -> follow_ok rest ->
    parse_value fuel (ser v ++ rest) = Some (v, rest).

Definition ser_field (kv : string * value) : list ascii :=
  quote (fst kv) ++ ":"%char :: ser (snd kv).

End JSONSpec.

(** ** Vocabulary: what the [Cache] methods do to the world *)

Module CacheSpec.
Import Js.

(** The time the caller of a raced command waits. *)
Definition waited (limit : N) (o : outcome) : N :=
  match o with
  | Replies lat => N.min lat limit
  | Fails => 0
  end.

(** What [Cache.get] resolves to. *)
Definition read (key : string) (o : outcome) (w : world) : value :=
  match o with
  | Replies lat =>
      if (lat <? 100)%N then
        match Redis.GET (now w) key (redis w) with
        | Some text =>
            if String.eqb text "" then Null else default Null (JSON.parse text)
        | None => Null
        end
      else Null
  | Fails => Null
  end.

(** The store after [Cache.set] with a [ttlSeconds] that the server
    accepts. *)
Definition written (key text : string) (seconds : Z) (o : outcome) (w : world)
  : world :=
  match o with
  | Replies lat =>
      tick (N.min lat 100)
        (set_redis
           (<[key := {| Redis.data := text;
                        Redis.expires_at :=
                          Some (now w + 1000 * Z.to_N seconds)%N |}]> (redis w)) w)
  | Fails => w
  end.

(** The store after [Cache.delete]. *)
Definition deleted (key : string) (o : outcome) (w : world) : world :=
  match o with
  | Replies lat =>
      tick (N.min lat commandTimeout) (set_redis (delete key (redis w)) w)
  | Fails => w
  end.

End CacheSpec.

(** ** Vocabulary: the paths of the token endpoint *)

Module TokenSpec.
Import Js.

Section Vocabulary.
Context {platform : Platform}.
Variable env : process_env.

Definition code_key (code : value) : string := "oauth:code:" +:+ to_string code.
Definition refresh_key (token : value) : string := "oauth:refresh:" +:+ to_string token.

Definition invalid_code : response :=
  oauth_error "invalid_grant" "Authorization code is invalid or expired" 400.
Definition redirect_mismatch : response :=
  oauth_error "invalid_grant" "redirect_uri does not match" 400.
Definition invalid_refresh : response :=
  oauth_error "invalid_grant" "Refresh token is invalid or expired" 400.
Definition user_not_found : response :=
  oauth_error "invalid_grant" "User not found" 400.

(** A request of the authorization-code grant that passes the checks
    made before the store is read. *)
Definition code_request (body : value) : Prop :=
  prop body "grant_type" = Str "authorization_code" /\
  Token.bad_client env (prop body "client_id") (prop body "client_secret") = false /\
  truthy (prop body "code") = true.

(** The same for the refresh grant. *)
Definition refresh_request (body : value) : Prop :=
  prop body "grant_type" = Str "refresh_token" /\
  Token.bad_client env (prop body "client_id") (prop body "client_secret") = false /\
  truthy (prop body "refresh_token") = true.

(** The text [Cache.set] sends to Redis for a refresh token: the payload
    is stringified by the route, and once more by [Cache.set]. *)
Definition refresh_text (user : Db.user) (client_id : value) : string :=
  string_of_list_ascii (JSON.ser (Token.refresh_payload user client_id)).

Definition token_response (token refresh : string) (scope : option value) : response :=
  NextResponse_json
    (Obj ([("access_token", Str token);
           ("token_type", Str "Bearer");
           ("expires_in", Num 86400);
           ("refresh_token", Str refresh)]
          ++ match scope with
             | Some s => [("scope", s)]
             | None => []
             end)) 200.

Definition internal_error : response :=
  server_error "An error occurred during token exchange".

(** The last steps of the code grant: user lookup, signing, storing the
    refresh token.  [o n] answers the lookup and [o (S n)] the write. *)
Definition issue_for_code (rnd : list ascii) (codeData client_id : value)
  : prog response :=
  let* user := await (FindUnique (prop codeData "userId")) in
  match user with
  | None => ret user_not_found
  | Some user =>
      let* token := Token.sign_for user in
      let* _ := Cache.set ("oauth:refresh:" +:+ toString_hex rnd)
                  (Token.refresh_payload user client_id) (Some 2592000%Z) in
      ret (token_response token (toString_hex rnd) (Some (prop codeData "scope")))
  end.

(** A lookup that finds the user with its tenant. *)
Definition finds (id : value) (w : world) (user : Db.user) (t : Db.tenant_row) : Prop :=
  findUnique id w = Ok (Some user) /\ Db.tenant user = Some t.

Definition access_token (user : Db.user) (t : Db.tenant_row) : string :=
  signToken
    {| userId := Db.id user;
       c_tenantId := Db.tenantId (Db.row user);
       c_email := Db.email (Db.row user);
       c_role := Db.role (Db.row user);
       c_licensedModules := modules_or_empty (Db.licensedModules t);
       c_subscriptionTier := tier_or_free (Db.subscriptionTier t) |}.

(** The last steps of the refresh grant: user lookup, signing, deleting
    the presented token, storing its successor. *)
Definition rotate (rnd : list ascii) (key : string) (refreshData client_id : value)
  : prog response :=
  let* user := await (FindUnique (prop refreshData "userId")) in
  match user with
  | None => ret user_not_found
  | Some user =>
      let* newToken := Token.sign_for user in
      let* _ := Cache.delete key in
      let* _ := Cache.set ("oauth:refresh:" +:+ toString_hex rnd)
                  (Token.refresh_payload user client_id) (Some 2592000%Z) in
      ret (token_response newToken (toString_hex rnd) None)
  end.

(** The whole handler on each grant. *)
Definition or_internal_error (r : ran response) : ran response :=
  match returned r with
  | Ok a => r
  | Throw _ => {| returned := Ok internal_error; final := final r; next := next r |}
  end.

End Vocabulary.

End TokenSpec.

(** ** Vocabulary: the paths of the authorize endpoint *)

Module AuthorizeSpec.
Import Js.

Section Vocabulary.
Context {platform : Platform}.
Variable env : process_env.

(** A request that passes the parameter checks and carries the session
    cookie of a user the store knows. *)
Record logged_in (req : Authorize.request) (w : world)
    (redirectUri : string) (user : Db.user) : Prop := {
  client_ok :
    strict_eq (nullable (Authorize.client_id req))
      (env_value (OAUTH_CLIENT_ID env)) = true;
  type_ok : Authorize.response_type req = Some "code";
  uri_given : Authorize.nonempty (Authorize.redirect_uri req) = Some redirectUri;
  session :
    exists token payload,
      Authorize.nonempty (Authorize.cookie_payaid_token req) = Some token /\
      verifyToken token = Some payload /\
      findUnique (Str (userId payload)) w = Ok (Some user)
}.

Definition scope_of (req : Authorize.request) : string :=
  default "openid profile email" (Authorize.nonempty (Authorize.scope req)).

(** The text [Cache.set] sends to Redis for a code. *)
Definition code_text (req : Authorize.request) (redirectUri : string)
    (user : Db.user) : string :=
  string_of_list_ascii
    (JSON.ser (Authorize.code_payload user redirectUri
                 (Authorize.client_id req) (scope_of req))).

Definition code_redirect (req : Authorize.request) (u : URL) (authCode : string)
  : response :=
  NextResponse_redirect
    match Authorize.nonempty (Authorize.state req) with
    | Some s => URL_set (URL_set u "code" authCode) "state" s
    | None => URL_set u "code" authCode
    end.

(** The response of [redirect_login] under the outer [catch]. *)
Definition login_redirect (req : Authorize.request) : response :=
  match new_URL_login (Authorize.url req) with
  | Some loginUrl =>
      NextResponse_redirect (URL_set loginUrl "redirect" (Authorize.url req))
  | None => server_error "An error occurred during authorization"
  end.

(** The handler once the parameter checks and [verifyToken] are behind. *)
Definition mint (rnd : list ascii) (req : Authorize.request)
    (redirectUri : string) (payload : claims) : prog response :=
  try_catch
    (try_catch
       (let* user := await (FindUnique (Str (userId payload))) in
        match user with
        | None => throw (Error "User not found")
        | Some user =>
            let* _ := Cache.set ("oauth:code:" +:+ toString_hex rnd)
                        (Authorize.code_payload user redirectUri
                           (Authorize.client_id req) (scope_of req))
                        (Some 300%Z) in
            match new_URL redirectUri with
            | None => throw (Error "TypeError")
            | Some redirectUrl =>
                ret (code_redirect req redirectUrl (toString_hex rnd))
            end
        end)
       (fun _ => Authorize.redirect_login req))
    (fun _ => ret (server_error "An error occurred during authorization")).

End Vocabulary.

End AuthorizeSpec.

(** ** Vocabulary: requests in flight together *)

Module ScheduleSpec.
Import Js TokenSpec.





End ScheduleSpec.

(** ** The claims the code departs from, as they are written *)

Module Stated.
Import Js TokenSpec AuthorizeSpec.

(** The payload of an authorization, as the token endpoint reads it. *)
Definition authorization (userId tenantId redirectUri clientId scope : string)
  : value :=
  Obj [("userId", Str userId); ("tenantId", Str tenantId);
       ("redirectUri", Str redirectUri); ("clientId", Str clientId);
       ("scope", Str scope)].

(** The code is gone once its payload has been read: after an exchange
    refused for a [redirect_uri] that differs from the stored one, the
    store no longer holds the code. *)
Definition code_deleted_once_read : Prop :=
  forall (platform : Platform) (env : process_env) (rnd : list ascii)
         (body : value) (o : nat -> outcome) (w : world),
    code_request env body ->
    returned (run (Token.POST env rnd (Some body)) o 0 w) = Ok redirect_mismatch ->
    redis (final (run (Token.POST env rnd (Some body)) o 0 w))
      !! code_key (prop body "code") = None.

(** A failed write of the code, or a failed identity lookup, ends the
    authorize request of a logged-in user in [server_error], 500. *)
Definition authorize_failures_contained : Prop :=
  forall (platform : Platform) (env : process_env) (rnd : list ascii)
         (req : Authorize.request) (o : nat -> outcome) (w : world)
         (redirectUri : string) (user : Db.user),
    logged_in env req w redirectUri user ->
    o 0 = Fails \/ o 1 = Fails ->
    returned (run (Authorize.GET env rnd req) o 0 w)
    = Ok (server_error "An error occurred during authorization").


End Stated.

(** ** A concrete setting to run the handlers in *)

Module Sample.
Import Js.

(** A stand-in codec: the token names the user; the claims it carries
    are those of issuance ([crm] only, tier [starter]). *)
Definition platform : Platform := {|
  signToken c := "jwt." +:+ userId c;
  verifyToken t :=
    if String.prefix "jwt." t
    then Some {| userId := String.substring 4 (String.length t - 4) t;
                 c_tenantId := "t1"; c_email := "u1@example.com";
                 c_role := "owner"; c_licensedModules := ["crm"];
                 c_subscriptionTier := "starter" |}
    else None;
  new_URL s :=
    if String.prefix "https://" s
    then Some {| base := s; searchParams := [] |} else None;
  new_URL_login _ := Some {| base := "/login"; searchParams := [] |}
|}.

Definition env : process_env :=
  {| OAUTH_CLIENT_ID := Some "module-crm";
     OAUTH_CLIENT_SECRET := Some "s3cret" |}.

Definition tenant1 : Db.tenant_row :=
  {| Db.tenant_name := "Acme"; Db.subdomain := "acme";
     Db.licensedModules := Some ["crm"; "invoicing"];
     Db.subscriptionTier := Some "professional" |}.

Definition user1 : Db.user_row :=
  {| Db.email := "u1@example.com"; Db.name := Some "U One";
     Db.role := "owner"; Db.emailVerified := Some true; Db.tenantId := "t1" |}.

Definition user1_joined : Db.user :=
  {| Db.id := "u1"; Db.row := user1; Db.tenant := Some tenant1 |}.

(** The claims [platform] reads from the token [jwt.u1]. *)
Definition session1 : claims :=
  {| userId := "u1"; c_tenantId := "t1"; c_email := "u1@example.com";
     c_role := "owner"; c_licensedModules := ["crm"];
     c_subscriptionTier := "starter" |}.

Definition world0 : world :=
  {| redis := ∅; users := {["u1" := user1]}; tenants := {["t1" := tenant1]};
     now := 1000000 |}.

Definition bytes1 : list ascii := repeat (ascii_of_N 171) 32.
Definition bytes2 : list ascii := repeat (ascii_of_N 205) 32.
Definition bytes3 : list ascii := repeat (ascii_of_N 239) 32.

Definition code1 : string := toString_hex bytes1.
Definition callback : string := "https://m.example.com/cb".
Definition callback_url : URL := {| base := callback; searchParams := [] |}.
Definition elsewhere : string := "https://evil.example/cb".

Definition authorize_request : Authorize.request :=
  {| Authorize.url := "https://core.example.com/api/oauth/authorize";
     Authorize.client_id := Some "module-crm";
     Authorize.redirect_uri := Some callback;
     Authorize.response_type := Some "code";
     Authorize.state := Some "xyz";
     Authorize.scope := None;
     Authorize.cookie_payaid_token := Some "jwt.u1" |}.

Definition code_body (code : string) (redirect_uri : value) : value :=
  Obj [("grant_type", Str "authorization_code");
       ("code", Str code);
       ("redirect_uri", redirect_uri);
       ("client_id", Str "module-crm");
       ("client_secret", Str "s3cret")].

Definition refresh_body (refresh_token : string) : value :=
  Obj [("grant_type", Str "refresh_token");
       ("refresh_token", Str refresh_token);
       ("client_id", Str "module-crm");
       ("client_secret", Str "s3cret")].

(** The world after [authorize_request] was served in [world0], all
    calls answered in 5 ms. *)
Definition world1 : world :=
  final (run (Authorize.GET (platform := platform) env bytes1 authorize_request)
           (fun _ => Replies 5) 0 world0).

(** A store that holds the payload of [code1] as the JSON text of the
    object, the form in which [POST] reads its fields.  ([world1], which
    [Authorize.GET] wrote, holds the JSON text of that text.) *)
Definition payload1 : value :=
  Stated.authorization "u1" "t1" callback "module-crm" "openid profile email".

Definition text_of (v : value) : string := default "" (JSON.stringify v).

Definition world_code : world :=
  set_redis
    (<["oauth:code:" +:+ code1 :=
         {| Redis.data := text_of payload1; Redis.expires_at := Some 1300000%N |}]>
       (redis world0)) world0.

(** A store that holds the payload of a refresh token the same way. *)
Definition refresh1 : string := toString_hex bytes2.

Definition world_refresh : world :=
  set_redis
    (<["oauth:refresh:" +:+ refresh1 :=
         {| Redis.data :=
              text_of (Obj [("userId", Str "u1"); ("tenantId", Str "t1");
                            ("clientId", Str "module-crm")]);
            Redis.expires_at := Some 2593000000%N |}]>
       (redis world0)) world0.

(** A request of the refresh grant with wrong credentials and no refresh
    token. *)
Definition intruder_request : value :=
  Obj [("grant_type", Str "refresh_token"); ("client_id", Str "intruder")].

(** A request of the authorization-code grant with wrong credentials
    and no code. *)
Definition intruder_code : value :=
  Obj [("grant_type", Str "authorization_code"); ("client_id", Str "intruder")].

(** A value for the cache round trip. *)
Definition cached1 : value :=
  Obj [("a", Num 1); ("b", Arr [Str "x"; Null; Bool true])].


End Sample.

(** ** [lib/redis/client.ts]: the client, its retries and its connection state *)

Module RedisClient.

(** [retryStrategy(times)]: the delay before reconnection attempt
    [times], or [None] ([null]) to give up. *)
Definition retryStrategy (times : Z) : option Z :=
  if (3 <? times)%Z then None else Some (Z.min (times * 50) 2000).

(** What the handlers print. *)
Inductive line : Type :=
| warn_not_available (message : string)
| log_connected
| log_ready.

(** The module variables [redis], [errorLogged] and [isConnected]; a
    client is named by the number of clients constructed before it. *)
Record state := {
  redis : option nat;
  errorLogged : bool;
  isConnected : bool;
  constructed : nat;
  console : list line
}.

Definition loaded : state :=
  {| redis := None; errorLogged := false; isConnected := false;
     constructed := 0; console := [] |}.

(** The events of a client the module listens to. *)
Inductive event : Type :=
| error (message : string)
| connect
| ready
| close.

(** [redis.on(e, ...)]: the handler of each event. *)
Definition on (e : event) (s : state) : state :=
  match e with
  | error message =>
      {| redis := redis s;
         errorLogged := true;
         isConnected := false;
         constructed := constructed s;
         console := if errorLogged s then console s
                    else console s ++ [warn_not_available message] |}
  | connect =>
      if isConnected s then s
      else {| redis := redis s; errorLogged := false; isConnected := true;
              constructed := constructed s;
              console := console s ++ [log_connected] |}
  | ready =>
      {| redis := redis s; errorLogged := errorLogged s; isConnected := true;
         constructed := constructed s;
         console := console s ++ [log_ready] |}
  | close =>
      {| redis := redis s; errorLogged := errorLogged s; isConnected := false;
         constructed := constructed s; console := console s |}
  end.

(** [getRedisClient()] *)
Definition getRedisClient (s : state) : nat * state :=
  match redis s with
  | Some client => (client, s)
  | None =>
      (constructed s,
       {| redis := Some (constructed s); errorLogged := errorLogged s;
          isConnected := isConnected s; constructed := S (constructed s);
          console := console s |})
  end.

(** [closeRedisConnection()]; [o] answers [redis.quit()], whose
    rejection leaves [redis] set. *)
Definition closeRedisConnection (o : outcome) (s : state) : result unit * state :=
  match redis s with
  | Some _ =>
      match o with
      | Replies _ =>
          (Ok tt,
           {| redis := None; errorLogged := errorLogged s;
              isConnected := isConnected s; constructed := constructed s;
              console := console s |})
      | Fails => (Throw (Error "Connection is closed."), s)
      end
  | None => (Ok tt, s)
  end.

(** What the rest of the program does to the module, one step at a
    time. *)
Inductive step : Type :=
| calls_getRedisClient
| calls_closeRedisConnection (o : outcome)
| emits (e : event).

Definition after (st : step) (s : state) : state :=
  match st with
  | calls_getRedisClient => snd (getRedisClient s)
  | calls_closeRedisConnection o => snd (closeRedisConnection o s)
  | emits e => on e s
  end.

Definition after_all (steps : list step) (s : state) : state :=
  fold_left (fun s st => after st s) steps s.

Definition is_warning (l : line) : bool :=
  match l with
  | warn_not_available _ => true
  | _ => false
  end.

Definition warnings (s : state) : nat :=
  length (filter (fun l => is_warning l = true) (console s)).

Definition is_connect (st : step) : bool :=
  match st with
  | emits connect => true
  | _ => false
  end.

Definition connects (steps : list step) : nat :=
  length (filter (fun st => is_connect st = true) steps).

(** A client in use was constructed earlier. *)
Definition client_known (s : state) : Prop :=
  forall c, redis s = Some c -> c < constructed s.

End RedisClient.

(** ** [api/auth/me/route.ts] *)

Module AuthMe.
Import Js.

(** [a || b] *)
Definition or_else (a b : value) : value := if truthy a then a else b.

(** The own enumerable properties that [{...v}] copies. *)
Definition own_properties (v : value) : list (string * value) :=
  match v with
  | Obj fs => fs
  | Arr l =>
      imap (fun i x => (string_of_list_ascii (print_N (N.of_nat i)), x)) l
  | Str s =>
      imap (fun i c => (string_of_list_ascii (print_N (N.of_nat i)),
                        Str (String c EmptyString)))
        (list_ascii_of_string s)
  | _ => []
  end.

(** [userData.k = v] on an object. *)
Definition assign (o : value) (k : string) (v : value) : value :=
  match o with
  | Obj fs => Obj (obj_set fs k v)
  | _ => o
  end.

(** [s.includes(sub)] *)
Fixpoint includes (s sub : string) : bool :=
  String.prefix sub s ||
  match s with
  | String _ s' => includes s' sub
  | EmptyString => false
  end.

(** How [prisma.user.findUnique] settles: it resolves to the selected
    record ([null] when there is none) or rejects, with an [Error] that
    carries a message or with something else, after [lat] ms. *)
Inductive settlement : Type :=
| Resolves (userData : value) (lat : N)
| Rejects (message : option string) (lat : N).

(** [Promise.race([query, timer])] with the timer that rejects after
    2000 ms. *)
Definition race_timeout (q : settlement) : value + option string :=
  match q with
  | Resolves userData lat =>
      if (lat <? 2000)%N then inl userData
      else inr (Some "Database query timeout")
  | Rejects message lat =>
      if (lat <? 2000)%N then inr message
      else inr (Some "Database query timeout")
  end.

(** When the query settles. *)
Definition settled_after (q : settlement) : N :=
  match q with
  | Resolves _ lat => lat
  | Rejects _ lat => lat
  end.

Definition json_error (message : string) (status : N) : response :=
  NextResponse_json (Obj [("error", Str message)]) status.

(** The tenant of the response: the record's, with [licensedModules]
    and [subscriptionTier] defaulted. *)
Definition with_licensing (tenant : value) : value :=
  Obj (obj_set
         (obj_set (own_properties tenant) "licensedModules"
            (or_else (prop tenant "licensedModules") (Arr [])))
         "subscriptionTier"
         (or_else (prop tenant "subscriptionTier") (Str "free"))).

Section Route.
Context {platform : Platform}.

(** [export async function GET(request)], from the [authorization]
    header and the settlement of the query, which is issued only when
    the token has been verified. *)
Definition GET (authorization : option string) (query : settlement) : response :=
  match authorization with
  | Some authHeader =>
      if negb (String.eqb authHeader "") && String.prefix "Bearer " authHeader
      then
        let token := String.substring 7 (String.length authHeader - 7) authHeader in
        match verifyToken token with
        | None => json_error "Invalid or expired token" 401
        | Some payload =>
            if String.eqb (userId payload) "" then json_error "Invalid token" 401
            else
              match race_timeout query with
              | inl userData =>
                  if negb (truthy userData) then json_error "User not found" 404
                  else if truthy (prop userData "tenant") then
                    NextResponse_json
                      (assign userData "tenant"
                         (with_licensing (prop userData "tenant"))) 200
                  else NextResponse_json userData 200
              | inr thrown =>
                  let errorMessage := default "Failed to get user" thrown in
                  json_error errorMessage
                    (if includes errorMessage "timeout" then 504 else 500)
              end
        end
      else json_error "Unauthorized" 401
  | None => json_error "Unauthorized" 401
  end.

End Route.
End AuthMe.

(** ** The keys a handler writes *)

(** The key a command writes or deletes. *)
Fixpoint key_written {T : Type} (c : call T) : option string :=
  match c with
  | RedisGet _ => None
  | RedisSet key _ => Some key
  | RedisSetex key _ _ => Some key
  | RedisDel key => Some key
  | FindUnique _ => None
  | RaceTimer c' _ => key_written c'
  end.

(** A handler all of whose writes, on every path, go to keys in [K]. *)
Inductive writes_within {A : Type} (K : string -> Prop) : prog A -> Prop :=
| within_Done (r : result A) : writes_within K (Done r)
| within_Await {T : Type} (c : call T) (k : result T -> prog A) :
    (forall key, key_written c = Some key -> K key) ->
    (forall r, writes_within K (k r)) ->
    writes_within K (Await c k).

(** What a run leaves alone when it writes within [K]. *)
Definition kept_outside (K : string -> Prop) (w w' : world) : Prop :=
  users w' = users w /\ tenants w' = tenants w /\ (now w <= now w')%N /\
  forall k, ~ K k -> redis w' !! k = redis w !! k.

(** A text that is blank or starts with a character no JSON value
    starts with: [JSON.parse] throws on it. *)
Definition starts_no_value (text : string) : Prop :=
  match JSON.skip_ws (list_ascii_of_string text) with
  | [] => True
  | c :: _ => JSONSpec.value_start c = false
  end.

(** The values that a template literal writes as [Js.to_string] does:
    every number in them is a safe integer, and no object in them has a
    [toString] of its own (with one, the conversion throws). *)
Fixpoint written_in_full (v : Js.value) : Prop :=
  match v with
  | Js.Num n => (- 2 ^ 53 < n < 2 ^ 53)%Z
  | Js.Arr l => (fix all (l : list Js.value) : Prop :=
                   match l with
                   | [] => True
                   | x :: l' => written_in_full x /\ all l'
                   end) l
  | Js.Obj fs => Js.assoc "toString" fs = None
  | _ => True
  end.

(** The authorize request passes the checks on its parameters. *)
Definition parameters_accepted (env : process_env) (req : Authorize.request)
  : Prop :=
  Js.strict_eq (nullable (Authorize.client_id req))
    (env_value (OAUTH_CLIENT_ID env)) = true /\
  Authorize.response_type req = Some "code" /\
  Authorize.nonempty (Authorize.redirect_uri req) <> None.

(** [url.searchParams.getAll(k)] *)
Definition searchParams_getAll (ps : list (string * string)) (k : string)
  : list string :=
  map snd (List.filter (fun kv => String.eqb k (fst kv)) ps).

(** ** Further sample inputs *)

Module Cases.
Import Js Sample.

(** [authorize_request] without the session cookie. *)
Definition anonymous_request : Authorize.request :=
  {| Authorize.url := "https://core.example.com/api/oauth/authorize";
     Authorize.client_id := Some "module-crm";
     Authorize.redirect_uri := Some callback;
     Authorize.response_type := Some "code";
     Authorize.state := Some "xyz";
     Authorize.scope := None;
     Authorize.cookie_payaid_token := None |}.

(** [authorize_request] with a redirect URI that [new URL] refuses. *)
Definition unparsable_request : Authorize.request :=
  {| Authorize.url := "https://core.example.com/api/oauth/authorize";
     Authorize.client_id := Some "module-crm";
     Authorize.redirect_uri := Some "m.example.com/cb";
     Authorize.response_type := Some "code";
     Authorize.state := Some "xyz";
     Authorize.scope := None;
     Authorize.cookie_payaid_token := Some "jwt.u1" |}.

(** The body of the successful exchange of [code1] in [world_code]. *)
Definition tokens1 : value :=
  Obj [("access_token", Str "jwt.u1");
       ("token_type", Str "Bearer");
       ("expires_in", Num 86400);
       ("refresh_token", Str (toString_hex bytes2));
       ("scope", Str "openid profile email")].

(** A user record as [/api/auth/me] selects it, whose tenant has no
    licensed modules and an empty tier. *)
Definition me_tenant : list (string * value) :=
  [("id", Str "t1"); ("name", Str "Acme"); ("licensedModules", Null);
   ("subscriptionTier", Str "")].

Definition me_record : list (string * value) :=
  [("id", Str "u1"); ("email", Str "u1@example.com"); ("tenant", Obj me_tenant)].

(** A store whose entry under [k] is not JSON. *)
Definition world_torn : world :=
  set_redis
    (<["k" := {| Redis.data := "<html>"; Redis.expires_at := None |}]> (redis world0))
    world0.

End Cases.

(** * Theorems *)

(** ** [JSON.parse] inverts [JSON.stringify] *)

Module JSONFacts.
Import Js JSON JSONSpec.

Ltac ascii_cases c := destruct c as [[] [] [] [] [] [] [] []].

Lemma size_Arr l : size (Arr l) = S (size_items l).
Proof. reflexivity. Qed.

Lemma size_Obj fs : size (Obj fs) = S (size_fields fs).
Proof. reflexivity. Qed.

Lemma serializable_Arr l : serializable (Arr l) <-> Forall serializable l.
Proof.
  simpl. induction l as [|x l IH]; simpl.
  - split; auto.
  - rewrite Forall_cons. tauto.
Qed.

Lemma serializable_Obj fs :
  serializable (Obj fs) <->
  NoDup (map fst fs) /\ Forall (fun kv => serializable (snd kv)) fs.
Proof.
  simpl. apply and_iff_compat_l.
  induction fs as [|x l IH]; simpl.
  - split; auto.
  - rewrite Forall_cons. tauto.
Qed.

(** *** Strings *)

Lemma parse_chars_quote_char c tl :
  parse_chars (quote_char c ++ tl) = cons_res c (parse_chars tl).
Proof. ascii_cases c; reflexivity. Qed.

Lemma parse_chars_quoted s rest :
  parse_chars (flat_map quote_char s ++ dquote :: rest) = Some (s, rest).
Proof.
  induction s as [|c s IH]; simpl.
  - reflexivity.
  - rewrite <- app_assoc, parse_chars_quote_char, IH. reflexivity.
Qed.

Lemma quote_unfold s tl :
  quote s ++ tl =
  dquote :: flat_map quote_char (list_ascii_of_string s) ++ dquote :: tl.
Proof. unfold quote. simpl. rewrite <- app_assoc. reflexivity. Qed.

(** *** Numbers *)

Lemma span_digits_uint u rest :
  follow_ok rest ->
  span_digits (list_ascii_of_string (NilEmpty.string_of_uint u) ++ rest) =
  (list_ascii_of_string (NilEmpty.string_of_uint u), rest).
Proof.
  intros Hrest. induction u; simpl; try (rewrite IHu; reflexivity).
  destruct rest as [|c r]; simpl in *; [reflexivity|]. rewrite Hrest. reflexivity.
Qed.

Lemma span_digits_print n rest :
  follow_ok rest -> span_digits (print_N n ++ rest) = (print_N n, rest).
Proof. apply span_digits_uint. Qed.

Lemma read_N_print n : read_N (print_N n) = Some n.
Proof.
  unfold read_N, print_N.
  rewrite string_of_list_ascii_of_string, NilEmpty.usu, Unsigned.of_to.
  rewrite decide_True by reflexivity. reflexivity.
Qed.

Lemma N_to_uint_nonnil n : N.to_uint n <> Decimal.Nil.
Proof.
  destruct n; simpl; [discriminate|]. apply DecimalPos.Unsigned.to_uint_nonnil.
Qed.

Lemma print_N_head n :
  exists c r, print_N n = c :: r /\ is_digit c = true.
Proof.
  unfold print_N. pose proof (N_to_uint_nonnil n) as Hn.
  destruct (N.to_uint n); [congruence| ..]; simpl; eauto.
Qed.

Lemma digit_not_minus c : is_digit c = true -> Ascii.eqb c "-" = false.
Proof. ascii_cases c; (reflexivity || discriminate). Qed.

Lemma parse_number_print_N n rest :
  follow_ok rest ->
  parse_number (print_N n ++ rest) = Some (Num (Z.of_N n), rest).
Proof.
  intros Hrest. destruct (print_N_head n) as (c & r & Hp & Hc).
  pose proof (span_digits_print n rest Hrest) as Hspan.
  pose proof (read_N_print n) as Hread.
  rewrite Hp in *. unfold parse_number. cbn [app] in *.
  rewrite (digit_not_minus _ Hc), Hspan, Hread. reflexivity.
Qed.

Lemma parse_number_print z rest :
  follow_ok rest -> parse_number (print_Z z ++ rest) = Some (Num z, rest).
Proof.
  intros Hrest. destruct z as [|p|p].
  - apply (parse_number_print_N 0 rest Hrest).
  - apply (parse_number_print_N (N.pos p) rest Hrest).
  - unfold print_Z, parse_number. cbn [app]. rewrite Ascii.eqb_refl.
    rewrite span_digits_print, read_N_print by assumption. reflexivity.
Qed.

(** *** Values *)

Lemma ser_head v : exists c r, ser v = c :: r /\ value_start c = true.
Proof.
  destruct v as [| |[]|z|s|l|fs]; simpl; eauto.
  destruct z as [|p|p]; simpl; eauto.
  - destruct (print_N_head (N.pos p)) as (c & r & -> & Hc).
    exists c, r. split; [reflexivity|]. unfold value_start. rewrite Hc. reflexivity.
Qed.

Lemma value_start_not_ws c : value_start c = true -> is_ws c = false.
Proof. ascii_cases c; (reflexivity || discriminate). Qed.

Lemma value_start_not_close c :
  value_start c = true ->
  Ascii.eqb "]" c = false /\ Ascii.eqb "}" c = false.
Proof. ascii_cases c; (split; reflexivity) || discriminate. Qed.

Lemma skip_ws_ser v tl : skip_ws (ser v ++ tl) = ser v ++ tl.
Proof.
  destruct (ser_head v) as (c & r & -> & Hc). simpl.
  rewrite (value_start_not_ws _ Hc). reflexivity.
Qed.

Lemma expect_close_ser v tl :
  expect "]" (ser v ++ tl) = None /\ expect "}" (ser v ++ tl) = None.
Proof.
  unfold expect. rewrite skip_ws_ser.
  destruct (ser_head v) as (c & r & -> & Hc). cbn [app].
  destruct (value_start_not_close _ Hc) as [-> ->]. auto.
Qed.

Lemma parse_value_S fuel s :
  parse_value (S fuel) s =
  match skip_ws s with
  | [] => None
  | c :: r =>
      if Ascii.eqb c "n" then
        option_map (pair Null) (strip (list_ascii_of_string "ull") r)
      else if Ascii.eqb c "t" then
        option_map (pair (Bool true)) (strip (list_ascii_of_string "rue") r)
      else if Ascii.eqb c "f" then
        option_map (pair (Bool false)) (strip (list_ascii_of_string "alse") r)
      else if Ascii.eqb c dquote then
        match parse_chars r with
        | Some (str, r') => Some (Str (string_of_list_ascii str), r')
        | None => None
        end
      else if Ascii.eqb c "[" then
        match expect "]" r with
        | Some r' => Some (Arr [], r')
        | None => parse_elements fuel r []
        end
      else if Ascii.eqb c "{" then
        match expect "}" r with
        | Some r' => Some (Obj [], r')
        | None => parse_members fuel r []
        end
      else parse_number (c :: r)
  end.
Proof. reflexivity. Qed.

Lemma parse_elements_S fuel s acc :
  parse_elements (S fuel) s acc =
  match parse_value fuel s with
  | Some (v, r) =>
      match skip_ws r with
      | c :: r' =>
          if Ascii.eqb c "," then parse_elements fuel r' (acc ++ [v])
          else if Ascii.eqb c "]" then Some (Arr (acc ++ [v]), r')
          else None
      | [] => None
      end
  | None => None
  end.
Proof. reflexivity. Qed.

Lemma parse_members_S fuel s acc :
  parse_members (S fuel) s acc =
  match expect dquote s with
  | Some r0 =>
      match parse_chars r0 with
      | Some (k, r1) =>
          match expect ":" r1 with
          | Some r2 =>
              match parse_value fuel r2 with
              | Some (v, r3) =>
                  let acc' := obj_set acc (string_of_list_ascii k) v in
                  match skip_ws r3 with
                  | c :: r4 =>
                      if Ascii.eqb c "," then parse_members fuel r4 acc'
                      else if Ascii.eqb c "}" then Some (Obj acc', r4)
                      else None
                  | [] => None
                  end
              | None => None
              end
          | None => None
          end
      | None => None
      end
  | None => None
  end.
Proof. reflexivity. Qed.

Lemma parse_value_number fuel c r :
  is_digit c || Ascii.eqb c "-" = true ->
  parse_value (S fuel) (c :: r) = parse_number (c :: r).
Proof.
  intros Hc. rewrite parse_value_S.
  ascii_cases c; (discriminate Hc || reflexivity).
Qed.

Lemma print_Z_head z :
  exists c r, print_Z z = c :: r /\ is_digit c || Ascii.eqb c "-" = true.
Proof.
  destruct z as [|p|p]; simpl; eauto.
  destruct (print_N_head (N.pos p)) as (c & r & -> & Hc).
  exists c, r. rewrite Hc. auto.
Qed.

Lemma obj_set_fresh acc k v :
  k ∉ map fst acc -> obj_set acc k v = acc ++ [(k, v)].
Proof.
  induction acc as [|[k' v'] acc IH]; simpl; intros Hk; [reflexivity|].
  apply not_elem_of_cons in Hk as [Hne Hk].
  destruct (String.eqb_spec k k') as [->|_]; [congruence|].
  rewrite IH by assumption. reflexivity.
Qed.

Lemma parse_elements_ser l :
  l <> [] -> Forall parses_back l ->
  forall acc fuel rest,
    size_items l <= fuel ->
    parse_elements fuel (join [","%char] (map ser l) ++ "]"%char :: rest) acc
    = Some (Arr (acc ++ l), rest).
Proof.
  induction l as [|x l IH]; [congruence|]. intros _ Hall acc fuel rest Hfuel.
  apply Forall_cons in Hall as [Hx Hl].
  destruct fuel as [|fuel]; [simpl in Hfuel; lia|].
  rewrite parse_elements_S. simpl in Hfuel.
  destruct l as [|y l'].
  - simpl. rewrite Hx; [|lia|reflexivity]. simpl. reflexivity.
  - change (join [","%char] (map ser (x :: y :: l')))
      with (ser x ++ [","%char] ++ join [","%char] (map ser (y :: l'))).
    rewrite <- !app_assoc. rewrite Hx; [|lia|reflexivity].
    simpl skip_ws. cbn [app]. simpl Ascii.eqb. cbv iota.
    rewrite (IH ltac:(discriminate) Hl); [|simpl in *; lia].
    rewrite <- app_assoc. reflexivity.
Qed.

Lemma ser_fields_serializable fs :
  Forall (fun kv => serializable (snd kv)) fs ->
  flat_map (fun kv => if is_undefined (snd kv) then []
                      else [quote (fst kv) ++ ":"%char :: ser (snd kv)]) fs
  = map ser_field fs.
Proof.
  induction 1 as [|[k v] fs Hv _ IH]; [reflexivity|].
  cbn [flat_map map]. rewrite IH. destruct v; try reflexivity. destruct Hv.
Qed.

Lemma parse_members_ser fs :
  fs <> [] -> Forall (fun kv => parses_back (snd kv)) fs ->
  forall acc fuel rest,
    NoDup (map fst (acc ++ fs)) ->
    size_fields fs <= fuel ->
    parse_members fuel (join [","%char] (map ser_field fs) ++ "}"%char :: rest) acc
    = Some (Obj (acc ++ fs), rest).
Proof.
  induction fs as [|[k v] fs IH]; [congruence|].
  intros _ Hall acc fuel rest Hnd Hfuel.
  apply Forall_cons in Hall as [Hx Hl]. simpl in Hx.
  destruct fuel as [|fuel]; [simpl in Hfuel; lia|].
  rewrite parse_members_S. simpl in Hfuel.
  assert (Hfresh : obj_set acc k v = acc ++ [(k, v)]).
  { apply obj_set_fresh. rewrite map_app in Hnd. simpl in Hnd.
    apply NoDup_app in Hnd as (_ & Hdisj & _). intros Hin.
    apply (Hdisj _ Hin). left. }
  assert (Hnd' : NoDup (map fst ((acc ++ [(k, v)]) ++ fs))).
  { rewrite <- app_assoc. exact Hnd. }
  assert (Hstep : forall tl,
    follow_ok tl ->
    match expect dquote (ser_field (k, v) ++ tl) with
    | Some r0 =>
        match parse_chars r0 with
        | Some (k0, r1) =>
            match expect ":" r1 with
            | Some r2 =>
                match parse_value fuel r2 with
                | Some (v0, r3) => Some (string_of_list_ascii k0, v0, r3)
                | None => None
                end
            | None => None
            end
        | None => None
        end
    | None => None
    end = Some (k, v, tl)).
  { intros tl Htl. unfold ser_field. cbn [fst snd].
    rewrite <- app_assoc, quote_unfold. unfold expect at 1. simpl skip_ws.
    simpl Ascii.eqb. cbv iota. 
    rewrite parse_chars_quoted. unfold expect. cbn [app]. simpl skip_ws.
    simpl Ascii.eqb. cbv iota. rewrite Hx; [|lia|assumption].
    rewrite string_of_list_ascii_of_string. reflexivity. }
  destruct fs as [|y fs'].
  - simpl join. specialize (Hstep ("}"%char :: rest) eq_refl).
    destruct (expect dquote _) as [r0|]; [|discriminate].
    destruct (parse_chars r0) as [[k0 r1]|]; [|discriminate].
    destruct (expect ":" r1) as [r2|]; [|discriminate].
    destruct (parse_value fuel r2) as [[v0 r3]|]; [|discriminate].
    injection Hstep as -> -> ->. cbv zeta. rewrite Hfresh. reflexivity.
  - change (join [","%char] (map ser_field ((k, v) :: y :: fs')))
      with (ser_field (k, v) ++ [","%char] ++ join [","%char] (map ser_field (y :: fs'))).
    rewrite <- !app_assoc. cbn [app].
    specialize
      (Hstep (","%char :: join [","%char] (map ser_field (y :: fs'))
                ++ "}"%char :: rest) eq_refl).
    destruct (expect dquote _) as [r0|]; [|discriminate].
    destruct (parse_chars r0) as [[k0 r1]|]; [|discriminate].
    destruct (expect ":" r1) as [r2|]; [|discriminate].
    destruct (parse_value fuel r2) as [[v0 r3]|]; [|discriminate].
    injection Hstep as -> -> ->. cbv zeta. rewrite Hfresh.
    simpl skip_ws. simpl Ascii.eqb. cbv iota.
    rewrite (IH ltac:(discriminate) Hl _ _ _ Hnd'); [|simpl in *; lia].
    rewrite <- app_assoc. reflexivity.
Qed.

Lemma ser_Arr_app l rest :
  ser (Arr l) ++ rest
  = "["%char :: join [","%char] (map ser l) ++ "]"%char :: rest.
Proof. simpl. rewrite <- app_assoc. reflexivity. Qed.

Lemma ser_Obj_app fs rest :
  Forall (fun kv => serializable (snd kv)) fs ->
  ser (Obj fs) ++ rest
  = "{"%char :: join [","%char] (map ser_field fs) ++ "}"%char :: rest.
Proof.
  intros Hfs. simpl. rewrite ser_fields_serializable by assumption.
  rewrite <- app_assoc. reflexivity.
Qed.

Lemma parse_value_ser v : serializable v -> parses_back v.
Proof.
  induction v as [| |b|z|s|l IH|fs IH] using value_ind';
    intros Hser fuel rest Hfuel Hrest.
  - destruct Hser.
  - destruct fuel; [simpl in Hfuel; lia|]. reflexivity.
  - destruct fuel; [simpl in Hfuel; lia|]. destruct b; reflexivity.
  - destruct fuel; [simpl in Hfuel; lia|]. simpl ser.
    destruct (print_Z_head z) as (c & r & Hp & Hc).
    rewrite Hp. cbn [app]. rewrite parse_value_number by assumption.
    change (c :: r ++ rest) with ((c :: r) ++ rest). rewrite <- Hp.
    apply parse_number_print, Hrest.
  - destruct fuel; [simpl in Hfuel; lia|]. simpl ser.
    rewrite quote_unfold, parse_value_S. simpl skip_ws. simpl Ascii.eqb. cbv iota.
    rewrite parse_chars_quoted, string_of_list_ascii_of_string. reflexivity.
  - rewrite size_Arr in Hfuel. destruct fuel as [|fuel]; [lia|].
    apply serializable_Arr in Hser.
    assert (Hall : Forall parses_back l).
    { rewrite Forall_forall in *. auto. }
    rewrite ser_Arr_app.
    rewrite parse_value_S. simpl skip_ws. simpl Ascii.eqb. cbv iota.
    destruct l as [|x l].
    + reflexivity.
    + assert (Hx : expect "]" (join [","%char] (map ser (x :: l))
                               ++ "]"%char :: rest) = None).
      { destruct l as [|y l'].
        - apply expect_close_ser.
        - change (join [","%char] (map ser (x :: y :: l')))
            with (ser x ++ [","%char] ++ join [","%char] (map ser (y :: l'))).
          rewrite <- app_assoc. apply expect_close_ser. }
      rewrite Hx. rewrite (parse_elements_ser (x :: l) ltac:(discriminate) Hall); [|lia].
      reflexivity.
  - rewrite size_Obj in Hfuel. destruct fuel as [|fuel]; [lia|].
    apply serializable_Obj in Hser as [Hnd Hser].
    assert (Hall : Forall (fun kv => parses_back (snd kv)) fs).
    { rewrite Forall_forall in *. auto. }
    rewrite ser_Obj_app by assumption.
    rewrite parse_value_S. simpl skip_ws. simpl Ascii.eqb. cbv iota.
    destruct fs as [|[k v] fs].
    + reflexivity.
    + assert (Hx : expect "}" (join [","%char] (map ser_field ((k, v) :: fs))
                               ++ "}"%char :: rest) = None).
      { unfold expect. destruct fs as [|y fs']; reflexivity. }
      rewrite Hx.
      rewrite (parse_members_ser ((k, v) :: fs) ltac:(discriminate) Hall []);
        [|exact Hnd|lia].
      reflexivity.
Qed.

Lemma join_length_items l :
  Forall (fun v => size v <= length (ser v)) l ->
  size_items l <= S (length (join [","%char] (map ser l))).
Proof.
  induction 1 as [|x l Hx Hl IH]; [simpl; lia|].
  destruct l as [|y l'].
  - simpl in *. lia.
  - change (join [","%char] (map ser (x :: y :: l')))
      with (ser x ++ [","%char] ++ join [","%char] (map ser (y :: l'))).
    rewrite !length_app. change (size_items (x :: y :: l'))
      with (S (size x) + size_items (y :: l')). simpl length at 2. lia.
Qed.

Lemma join_length_fields fs :
  Forall (fun kv => size (snd kv) <= length (ser (snd kv))) fs ->
  size_fields fs <= S (length (join [","%char] (map ser_field fs))).
Proof.
  induction 1 as [|[k v] fs Hx Hl IH]; [simpl; lia|].
  assert (Hf : S (size v) <= length (ser_field (k, v))).
  { unfold ser_field, quote. cbn [fst snd] in *.
    rewrite length_app. simpl. lia. }
  destruct fs as [|y fs'].
  - simpl in *. lia.
  - change (join [","%char] (map ser_field ((k, v) :: y :: fs')))
      with (ser_field (k, v) ++ [","%char] ++ join [","%char] (map ser_field (y :: fs'))).
    rewrite !length_app. change (size_fields ((k, v) :: y :: fs'))
      with (S (size v) + size_fields (y :: fs')). simpl length at 2. lia.
Qed.

Lemma size_le_length v : serializable v -> size v <= length (ser v).
Proof.
  induction v as [| |b|z|s|l IH|fs IH] using value_ind'; intros Hser.
  - destruct Hser.
  - simpl. lia.
  - destruct b; simpl; lia.
  - destruct (print_Z_head z) as (c & r & Hp & _). simpl. rewrite Hp. simpl. lia.
  - simpl. unfold quote. simpl. lia.
  - apply serializable_Arr in Hser. rewrite size_Arr.
    pose proof (ser_Arr_app l []) as Hs. rewrite app_nil_r in Hs. rewrite Hs.
    cbn [length]. rewrite length_app. cbn [length].
    assert (Hall : Forall (fun v => size v <= length (ser v)) l).
    { rewrite Forall_forall in *. auto. }
    pose proof (join_length_items l Hall). lia.
  - apply serializable_Obj in Hser as [_ Hser]. rewrite size_Obj.
    pose proof (ser_Obj_app fs [] Hser) as Hs. rewrite app_nil_r in Hs. rewrite Hs.
    cbn [length]. rewrite length_app. cbn [length].
    assert (Hall : Forall (fun kv => size (snd kv) <= length (ser (snd kv))) fs).
    { rewrite Forall_forall in *. auto. }
    pose proof (join_length_fields fs Hall). lia.
Qed.

(** [JSON.parse(JSON.stringify(v))] is [v] for every serializable [v]. *)
Lemma parse_stringify v :
  serializable v ->
  exists text, stringify v = Some text /\ parse text = Some v.
Proof.
  intros Hser. exists (string_of_list_ascii (ser v)). split.
  - destruct v; try reflexivity. destruct Hser.
  - unfold parse. rewrite list_ascii_of_string_of_list_ascii.
    pose proof (parse_value_ser v Hser (S (length (ser v))) []) as Hp.
    rewrite app_nil_r in Hp. rewrite Hp; [reflexivity| |exact I].
    pose proof (size_le_length v Hser). lia.
Qed.

(** A string survives the trip as a string: its text never parses to an
    object. *)
Lemma parse_stringify_Str s :
  exists text, stringify (Str s) = Some text /\ parse text = Some (Str s).
Proof. apply parse_stringify. exact I. Qed.

(** [JSON.stringify] never returns the empty string. *)
Lemma stringify_nonempty v text : stringify v = Some text -> text <> ""%string.
Proof.
  destruct v as [| |b|z|s|l|fs]; simpl; intros [= <-]; try discriminate.
  - destruct b; discriminate.
  - destruct (print_Z_head z) as (c & r & -> & _). discriminate.
Qed.

End JSONFacts.

(** ** Running programs *)

Module RunFacts.

Lemma run_bind {A B : Type} (p : prog A) (f : A -> prog B) o n w :
  run (bind p f) o n w =
  match returned (run p o n w) with
  | Ok a => run (f a) o (next (run p o n w)) (final (run p o n w))
  | Throw e => {| returned := Throw e; final := final (run p o n w);
                  next := next (run p o n w) |}
  end.
Proof.
  revert n w. induction p as [[a|e]|T c k IH]; intros n w; try reflexivity.
  simpl. destruct (perform c (o n) w) as [r w']. apply IH.
Qed.

Lemma run_try_catch {A : Type} (p : prog A) (h : exn -> prog A) o n w :
  run (try_catch p h) o n w =
  match returned (run p o n w) with
  | Ok a => {| returned := Ok a; final := final (run p o n w);
               next := next (run p o n w) |}
  | Throw e => run (h e) o (next (run p o n w)) (final (run p o n w))
  end.
Proof.
  revert n w. induction p as [[a|e]|T c k IH]; intros n w; try reflexivity.
  simpl. destruct (perform c (o n) w) as [r w']. apply IH.
Qed.

Lemma run_await {T : Type} (c : call T) o n w :
  run (await c) o n w =
  {| returned := fst (perform c (o n) w); final := snd (perform c (o n) w);
     next := S n |}.
Proof. simpl. destruct (perform c (o n) w). reflexivity. Qed.

Lemma run_ret {A : Type} (a : A) o n w :
  run (ret a) o n w = {| returned := Ok a; final := w; next := n |}.
Proof. reflexivity. Qed.

(** A run of a single request is the schedule that resumes it alone. *)
Lemma run_schedule_alone {A : Type} (p : prog A) o n w :
  exists sched,
    run_schedule sched [p] w =
    ([Done (returned (run p o n w))], final (run p o n w)).
Proof.
  revert n w. induction p as [r|T c k IH]; intros n w.
  - exists []. reflexivity.
  - simpl. destruct (perform c (o n) w) as [r w'] eqn:Hp.
    destruct (IH r (S n) w') as [sched Hs].
    exists ((0, o n) :: sched). simpl. rewrite Hp. exact Hs.
Qed.

End RunFacts.

(** ** The [Cache] methods *)

Module CacheFacts.
Import Js RunFacts CacheSpec.

Lemma tick_0 w : tick 0 w = w.
Proof. destruct w. unfold tick. simpl. f_equal. lia. Qed.

Lemma run_get key o n w :
  run (Cache.get key) o n w =
  {| returned := Ok (read key (o n) w);
     final := tick (waited 100 (o n)) w;
     next := S n |}.
Proof.
  unfold Cache.get. simpl. destruct (o n) as [lat|]; simpl.
  - destruct (lat <? 100)%N eqn:Hlat.
    + apply N.ltb_lt in Hlat.
      assert (Hc : (lat <? commandTimeout)%N = true)
        by (apply N.ltb_lt; unfold commandTimeout; lia).
      rewrite Hc. rewrite (N.min_l lat 100) by lia.
      destruct (Redis.GET (now w) key (redis w)) as [text|]; simpl; [|reflexivity].
      destruct (String.eqb text ""); simpl; [reflexivity|].
      destruct (JSON.parse text); reflexivity.
    + apply N.ltb_ge in Hlat. rewrite (N.min_r lat 100) by lia.
      destruct (lat <? commandTimeout)%N; reflexivity.
  - rewrite tick_0. reflexivity.
Qed.

Lemma run_set key v text seconds o n w :
  JSON.stringify v = Some text -> (0 < seconds <= Redis.max_seconds)%Z ->
  run (Cache.set key v (Some seconds)) o n w =
  {| returned := Ok tt; final := written key text seconds (o n) w; next := S n |}.
Proof.
  intros Hv Hs. unfold Cache.set. rewrite Hv.
  assert (H0 : (seconds =? 0)%Z = false) by (apply Z.eqb_neq; lia).
  rewrite H0. simpl. unfold Redis.SETEX.
  assert (H1 : ((0 <? seconds) && (seconds <=? Redis.max_seconds))%Z = true)
    by (apply andb_true_intro; split; [apply Z.ltb_lt | apply Z.leb_le]; lia).
  rewrite H1. destruct (o n) as [lat|]; simpl; [|reflexivity].
  destruct (lat <? 100)%N eqn:Hlat.
  - apply N.ltb_lt in Hlat.
    assert (Hc : (lat <? commandTimeout)%N = true)
      by (apply N.ltb_lt; unfold commandTimeout; lia).
    rewrite Hc. rewrite (N.min_l lat 100) by lia. reflexivity.
  - apply N.ltb_ge in Hlat. rewrite (N.min_r lat 100) by lia.
    destruct (lat <? commandTimeout)%N; reflexivity.
Qed.

Lemma run_delete key o n w :
  run (Cache.delete key) o n w =
  {| returned := Ok tt; final := deleted key (o n) w; next := S n |}.
Proof.
  unfold Cache.delete. simpl. destruct (o n) as [lat|]; simpl; [|reflexivity].
  destruct (lat <? commandTimeout)%N eqn:Hlat.
  - apply N.ltb_lt in Hlat. rewrite N.min_l by lia. reflexivity.
  - apply N.ltb_ge in Hlat. rewrite N.min_r by lia. reflexivity.
Qed.

Lemma run_findUnique id o n w :
  run (await (FindUnique id)) o n w =
  {| returned := match o n with
                 | Replies _ => findUnique id w
                 | Fails => Throw (Error "Can't reach database server")
                 end;
     final := match o n with Replies lat => tick lat w | Fails => w end;
     next := S n |}.
Proof. rewrite run_await. simpl. destruct (o n); reflexivity. Qed.

End CacheFacts.

(** ** The token endpoint, path by path *)

Module TokenFacts.
Import Js RunFacts CacheSpec CacheFacts TokenSpec.

Section Paths.
Context {platform : Platform}.
Variable env : process_env.

Lemma prop_Str_Obj body k s : prop body k = Str s -> exists fs, body = Obj fs.
Proof. destruct body; simpl; try discriminate. eauto. Qed.

Lemma POST_code rnd body :
  prop body "grant_type" = Str "authorization_code" ->
  Token.POST env rnd (Some body) =
  try_catch (Token.code_grant env rnd body)
    (fun _ => ret (server_error "An error occurred during token exchange")).
Proof.
  intros Hg. destruct (prop_Str_Obj _ _ _ Hg) as [fs ->].
  unfold Token.POST. rewrite Hg. reflexivity.
Qed.

Lemma POST_refresh rnd body :
  prop body "grant_type" = Str "refresh_token" ->
  Token.POST env rnd (Some body) =
  try_catch (Token.refresh_grant env rnd body)
    (fun _ => ret (server_error "An error occurred during token exchange")).
Proof.
  intros Hg. destruct (prop_Str_Obj _ _ _ Hg) as [fs ->].
  unfold Token.POST. rewrite Hg. reflexivity.
Qed.

Lemma stringify_refresh_payload user client_id :
  JSON.stringify (Token.refresh_payload user client_id)
  = Some (refresh_text user client_id).
Proof. reflexivity. Qed.

Lemma run_sign_for user o n w :
  run (Token.sign_for user) o n w =
  {| returned := match Db.tenant user with
                 | Some t => Ok (signToken
                     {| userId := Db.id user;
                        c_tenantId := Db.tenantId (Db.row user);
                        c_email := Db.email (Db.row user);
                        c_role := Db.role (Db.row user);
                        c_licensedModules := modules_or_empty (Db.licensedModules t);
                        c_subscriptionTier := tier_or_free (Db.subscriptionTier t) |})
                 | None => Throw (Error "TypeError")
                 end;
     final := w; next := n |}.
Proof. unfold Token.sign_for. destruct (Db.tenant user); reflexivity. Qed.

Lemma run_issue_for_code_found rnd codeData client_id o n w lat user t :
  o n = Replies lat ->
  finds (prop codeData "userId") w user t ->
  run (issue_for_code rnd codeData client_id) o n w =
  {| returned := Ok (token_response (access_token user t) (toString_hex rnd)
                       (Some (prop codeData "scope")));
     final := written ("oauth:refresh:" +:+ toString_hex rnd)
                (refresh_text user client_id) 2592000 (o (S n)) (tick lat w);
     next := S (S n) |}.
Proof.
  intros Ho [Hfind Ht]. unfold issue_for_code.
  rewrite run_bind, run_findUnique, Ho. cbn [returned final next].
  rewrite Hfind. rewrite run_bind, run_sign_for, Ht. cbn [returned final next].
  rewrite run_bind.
  rewrite (run_set _ _ _ _ _ _ _ (stringify_refresh_payload user client_id))
    by (unfold Redis.max_seconds; lia).
  reflexivity.
Qed.

(** Whatever the lookup and the write do, the last steps leave the keys
    other than the new refresh token as they were. *)
Lemma redis_written_other key text seconds o w k :
  k <> key -> redis (written key text seconds o w) !! k = redis w !! k.
Proof.
  intros Hk. destruct o as [lat|]; simpl; [|reflexivity].
  apply lookup_insert_ne. congruence.
Qed.

Lemma redis_tick d w : redis (tick d w) = redis w.
Proof. reflexivity. Qed.

Lemma run_issue_for_code_redis rnd codeData client_id o n w k :
  k <> "oauth:refresh:" +:+ toString_hex rnd ->
  redis (final (run (issue_for_code rnd codeData client_id) o n w)) !! k
  = redis w !! k.
Proof.
  intros Hk. unfold issue_for_code.
  rewrite run_bind, run_findUnique. cbn [returned final next].
  destruct (o n) as [lat|]; [|reflexivity].
  destruct (findUnique (prop codeData "userId") w) as [[user|]|e]; try reflexivity.
  rewrite run_bind, run_sign_for. cbn [returned final next].
  destruct (Db.tenant user) as [t|]; [|reflexivity].
  rewrite run_bind.
  rewrite (run_set _ _ _ _ _ _ _ (stringify_refresh_payload user client_id))
    by (unfold Redis.max_seconds; lia).
  cbn [returned final next run ret]. rewrite redis_written_other by assumption.
  reflexivity.
Qed.

(** The code grant from the store read on. *)
Lemma run_code_grant rnd body o n w :
  code_request env body ->
  run (Token.code_grant env rnd body) o n w =
  let codeData := read (code_key (prop body "code")) (o n) w in
  let w1 := tick (waited 100 (o n)) w in
  if negb (truthy codeData) then
    {| returned := Ok invalid_code; final := w1; next := S n |}
  else if negb (strict_eq (prop body "redirect_uri") (prop codeData "redirectUri")) then
    {| returned := Ok redirect_mismatch; final := w1; next := S n |}
  else
    let w2 := deleted (code_key (prop body "code")) (o (S n)) w1 in
    run (issue_for_code rnd codeData (prop body "client_id")) o (S (S n)) w2.
Proof.
  intros (Hg & Hc & Hcode). unfold Token.code_grant.
  rewrite Hg, Hc, Hcode.
  change (negb (strict_eq (Str "authorization_code") (Str "authorization_code")))
    with false.
  cbv iota. change (negb true) with false. cbv iota.
  rewrite run_bind, run_get. cbn [returned final next].
  fold (code_key (prop body "code")).
  destruct (truthy (read (code_key (prop body "code")) (o n) w)); cbn [negb];
    [|reflexivity].
  destruct (strict_eq (prop body "redirect_uri")
              (prop (read (code_key (prop body "code")) (o n) w) "redirectUri"));
    cbn [negb]; [|reflexivity].
  rewrite run_bind, run_delete. cbn [returned final next]. reflexivity.
Qed.

Lemma run_rotate_found rnd key refreshData client_id o n w lat user t :
  o n = Replies lat ->
  finds (prop refreshData "userId") w user t ->
  run (rotate rnd key refreshData client_id) o n w =
  {| returned := Ok (token_response (access_token user t) (toString_hex rnd) None);
     final := written ("oauth:refresh:" +:+ toString_hex rnd)
                (refresh_text user client_id) 2592000 (o (S (S n)))
                (deleted key (o (S n)) (tick lat w));
     next := S (S (S n)) |}.
Proof.
  intros Ho [Hfind Ht]. unfold rotate.
  rewrite run_bind, run_findUnique, Ho. cbn [returned final next].
  rewrite Hfind. rewrite run_bind, run_sign_for, Ht. cbn [returned final next].
  rewrite run_bind, run_delete. cbn [returned final next].
  rewrite run_bind.
  rewrite (run_set _ _ _ _ _ _ _ (stringify_refresh_payload user client_id))
    by (unfold Redis.max_seconds; lia).
  reflexivity.
Qed.

(** The refresh grant from the store read on. *)
Lemma run_refresh_grant rnd body o n w :
  refresh_request env body ->
  run (Token.refresh_grant env rnd body) o n w =
  let refreshData := read (refresh_key (prop body "refresh_token")) (o n) w in
  let w1 := tick (waited 100 (o n)) w in
  if negb (truthy refreshData) then
    {| returned := Ok invalid_refresh; final := w1; next := S n |}
  else
    run (rotate rnd (refresh_key (prop body "refresh_token")) refreshData
           (prop body "client_id")) o (S n) w1.
Proof.
  intros (Hg & Hc & Htok). unfold Token.refresh_grant.
  rewrite Hc, Htok. change (negb true) with false. cbv iota.
  rewrite run_bind, run_get. cbn [returned final next].
  fold (refresh_key (prop body "refresh_token")).
  destruct (truthy (read (refresh_key (prop body "refresh_token")) (o n) w));
    cbn [negb]; reflexivity.
Qed.

Lemma run_POST_code rnd body o n w :
  code_request env body ->
  run (Token.POST env rnd (Some body)) o n w =
  or_internal_error (run (Token.code_grant env rnd body) o n w).
Proof.
  intros Hreq. rewrite POST_code by apply Hreq. rewrite run_try_catch.
  unfold or_internal_error.
  destruct (run (Token.code_grant env rnd body) o n w) as [[a|e] w' n']; reflexivity.
Qed.

Lemma run_POST_refresh rnd body o n w :
  refresh_request env body ->
  run (Token.POST env rnd (Some body)) o n w =
  or_internal_error (run (Token.refresh_grant env rnd body) o n w).
Proof.
  intros Hreq. rewrite POST_refresh by apply Hreq. rewrite run_try_catch.
  unfold or_internal_error.
  destruct (run (Token.refresh_grant env rnd body) o n w) as [[a|e] w' n']; reflexivity.
Qed.

(** A success of the code grant went through the delete: the payload
    was read, the redirect URI matched, and the world is the one the
    last steps leave after the delete. *)
Lemma code_grant_success rnd body o n w b :
  code_request env body ->
  returned (run (Token.POST env rnd (Some body)) o n w)
  = Ok (NextResponse_json b 200) ->
  let codeData := read (code_key (prop body "code")) (o n) w in
  truthy codeData = true /\
  strict_eq (prop body "redirect_uri") (prop codeData "redirectUri") = true /\
  final (run (Token.POST env rnd (Some body)) o n w)
  = final (run (issue_for_code rnd codeData (prop body "client_id")) o (S (S n))
             (deleted (code_key (prop body "code")) (o (S n))
                (tick (waited 100 (o n)) w))).
Proof.
  intros Hreq. rewrite (run_POST_code _ _ _ _ _ Hreq), (run_code_grant _ _ _ _ _ Hreq).
  cbv zeta.
  destruct (truthy (read (code_key (prop body "code")) (o n) w)); cbn [negb];
    [|discriminate].
  destruct (strict_eq (prop body "redirect_uri")
              (prop (read (code_key (prop body "code")) (o n) w) "redirectUri"));
    cbn [negb]; [|discriminate].
  intros _. split; [reflexivity|]. split; [reflexivity|].
  unfold or_internal_error.
  destruct (returned (run (issue_for_code _ _ _) _ _ _)); reflexivity.
Qed.

(** After a rotation that answered 200 and whose delete was applied, the
    presented key is gone, unless the new token is the old one. *)
Lemma rotate_success_redis rnd key refreshData client_id o n w b lat :
  returned (run (rotate rnd key refreshData client_id) o n w)
  = Ok (NextResponse_json b 200) ->
  o (S n) = Replies lat ->
  key <> "oauth:refresh:" +:+ toString_hex rnd ->
  redis (final (run (rotate rnd key refreshData client_id) o n w)) !! key = None /\
  prop b "refresh_token" = Str (toString_hex rnd) /\
  forall lat', o (S (S n)) = Replies lat' ->
    exists user issued,
      (now w <= issued)%N /\
      redis (final (run (rotate rnd key refreshData client_id) o n w))
        !! ("oauth:refresh:" +:+ toString_hex rnd)
      = Some {| Redis.data := refresh_text user client_id;
                Redis.expires_at := Some (issued + 1000 * 2592000)%N |}.
Proof.
  unfold rotate. rewrite run_bind, run_findUnique. cbn [returned final next].
  destruct (o n) as [lat0|]; [|discriminate].
  destruct (findUnique (prop refreshData "userId") w) as [[user|]|e];
    [|discriminate..].
  rewrite run_bind, run_sign_for. cbn [returned final next].
  destruct (Db.tenant user) as [t|]; [|discriminate].
  rewrite run_bind, run_delete. cbn [returned final next].
  rewrite run_bind.
  rewrite (run_set _ _ _ _ _ _ _ (stringify_refresh_payload user client_id))
    by (unfold Redis.max_seconds; lia).
  cbn [returned final next run ret]. intros [= <-] Ho Hne.
  rewrite Ho. split; [|split].
  - rewrite redis_written_other by assumption. simpl. apply lookup_delete_eq.
  - reflexivity.
  - intros lat' Ho'.
    exists user, (now w + lat0 + N.min lat commandTimeout)%N.
    split; [lia|]. rewrite Ho'. simpl. rewrite lookup_insert_eq. reflexivity.
Qed.

(** A success of the refresh grant is a success of the rotation. *)
Lemma refresh_grant_success rnd body o n w b :
  refresh_request env body ->
  returned (run (Token.POST env rnd (Some body)) o n w)
  = Ok (NextResponse_json b 200) ->
  let refreshData := read (refresh_key (prop body "refresh_token")) (o n) w in
  let rotation :=
    run (rotate rnd (refresh_key (prop body "refresh_token")) refreshData
           (prop body "client_id")) o (S n) (tick (waited 100 (o n)) w) in
  truthy refreshData = true /\
  returned rotation = Ok (NextResponse_json b 200) /\
  final (run (Token.POST env rnd (Some body)) o n w) = final rotation.
Proof.
  intros Hreq.
  rewrite (run_POST_refresh _ _ _ _ _ Hreq), (run_refresh_grant _ _ _ _ _ Hreq).
  cbv zeta.
  destruct (truthy (read (refresh_key (prop body "refresh_token")) (o n) w));
    cbn [negb]; [|discriminate].
  unfold or_internal_error.
  destruct (returned (run (rotate _ _ _ _) _ _ _)) eqn:Hr; [|discriminate].
  intros H. rewrite Hr in H. auto.
Qed.

End Paths.
End TokenFacts.

(** ** The authorize endpoint, path by path *)

Module AuthorizeFacts.
Import Js RunFacts CacheSpec CacheFacts AuthorizeSpec.

Section Paths.
Context {platform : Platform}.
Variable env : process_env.

Lemma stringify_code_payload req redirectUri user :
  JSON.stringify (Authorize.code_payload user redirectUri
                    (Authorize.client_id req) (scope_of req))
  = Some (code_text req redirectUri user).
Proof. reflexivity. Qed.

Lemma run_redirect_login req o n w :
  run (Authorize.redirect_login req) o n w =
  {| returned := match new_URL_login (Authorize.url req) with
                 | Some loginUrl =>
                     Ok (NextResponse_redirect
                           (URL_set loginUrl "redirect" (Authorize.url req)))
                 | None => Throw (Error "TypeError")
                 end;
     final := w; next := n |}.
Proof.
  unfold Authorize.redirect_login.
  destruct (new_URL_login (Authorize.url req)); reflexivity.
Qed.

Lemma GET_session rnd req redirectUri token payload :
  strict_eq (nullable (Authorize.client_id req))
    (env_value (OAUTH_CLIENT_ID env)) = true ->
  Authorize.response_type req = Some "code" ->
  Authorize.nonempty (Authorize.redirect_uri req) = Some redirectUri ->
  Authorize.nonempty (Authorize.cookie_payaid_token req) = Some token ->
  verifyToken token = Some payload ->
  Authorize.GET env rnd req = mint rnd req redirectUri payload.
Proof.
  intros Hc Ht Hu Htok Hv.
  unfold Authorize.GET. rewrite Hc, Ht, Hu, Htok, Hv. reflexivity.
Qed.

(** The run for a logged-in user when the lookup is answered: the code
    is sent to the store and, if [redirect_uri] parses as a URL, the
    response redirects to it with the code, whatever the store did with
    the write. *)
Lemma run_GET_logged_in rnd req o n w redirectUri user lat u :
  logged_in env req w redirectUri user ->
  o n = Replies lat ->
  new_URL redirectUri = Some u ->
  run (Authorize.GET env rnd req) o n w =
  {| returned := Ok (code_redirect req u (toString_hex rnd));
     final := written ("oauth:code:" +:+ toString_hex rnd)
                (code_text req redirectUri user) 300 (o (S n)) (tick lat w);
     next := S (S n) |}.
Proof.
  intros [Hc Ht Hr (token & payload & Htok & Hv & Hf)] Ho Hu.
  rewrite (GET_session rnd _ _ _ _ Hc Ht Hr Htok Hv). unfold mint.
  rewrite !run_try_catch, run_bind, run_findUnique, Ho, Hf.
  cbn [returned final next]. rewrite run_bind.
  rewrite (run_set _ _ _ _ _ _ _ (stringify_code_payload req redirectUri user))
    by (unfold Redis.max_seconds; lia).
  cbn [returned final next]. rewrite Hu. reflexivity.
Qed.

(** The run for a session whose user lookup fails or finds nobody. *)
Lemma run_GET_lookup_fails rnd req o n w redirectUri token payload :
  strict_eq (nullable (Authorize.client_id req))
    (env_value (OAUTH_CLIENT_ID env)) = true ->
  Authorize.response_type req = Some "code" ->
  Authorize.nonempty (Authorize.redirect_uri req) = Some redirectUri ->
  Authorize.nonempty (Authorize.cookie_payaid_token req) = Some token ->
  verifyToken token = Some payload ->
  o n = Fails \/ findUnique (Str (userId payload)) w = Ok None ->
  run (Authorize.GET env rnd req) o n w =
  {| returned := Ok (login_redirect req);
     final := match o n with Replies lat => tick lat w | Fails => w end;
     next := S n |}.
Proof.
  intros Hc Ht Hu Htok Hv Hfail.
  rewrite (GET_session rnd _ _ _ _ Hc Ht Hu Htok Hv). unfold mint.
  rewrite !run_try_catch, run_bind, run_findUnique. cbn [returned final next].
  unfold login_redirect.
  destruct Hfail as [Ho|Hnone].
  - rewrite Ho. cbn [returned final next]. rewrite run_redirect_login.
    cbn [returned final next].
    destruct (new_URL_login (Authorize.url req)); reflexivity.
  - rewrite Hnone. destruct (o n) as [lat|]; cbn [returned final next run throw];
      rewrite run_redirect_login; cbn [returned final next];
      destruct (new_URL_login (Authorize.url req)); reflexivity.
Qed.

End Paths.
End AuthorizeFacts.

(** ** Properties of the provider *)

Import Js RunFacts CacheSpec CacheFacts TokenSpec TokenFacts.
Import AuthorizeSpec AuthorizeFacts ScheduleSpec Stated.

Lemma to_string_Str s : to_string (Str s) = s.
Proof. apply string_of_list_ascii_of_string. Qed.

Lemma code_key_not_refresh a b : "oauth:code:" +:+ a <> "oauth:refresh:" +:+ b.
Proof. simpl. discriminate. Qed.

Lemma truthy_Str s : truthy (Str s) = true <-> s <> "".
Proof.
  simpl. destruct (String.eqb_spec s ""); simpl; split; congruence.
Qed.

(** A key that is absent or expired reads as [null], however the
    backend answers. *)
Lemma read_absent key o w :
  Redis.GET (now w) key (redis w) = None -> read key o w = Null.
Proof.
  intros Hget. unfold read. rewrite Hget.
  destruct o as [lat|]; [|reflexivity]. destruct (lat <? 100)%N; reflexivity.
Qed.

(** A live entry whose text parses reads as the parsed value when the
    reply beats the timer. *)
Lemma read_present key lat w e v :
  redis w !! key = Some e -> Redis.live (now w) e = true ->
  Redis.data e <> "" -> JSON.parse (Redis.data e) = Some v ->
  (lat < 100)%N ->
  read key (Replies lat) w = v.
Proof.
  intros He Hlive Hne Hparse Hlat. unfold read, Redis.GET.
  apply N.ltb_lt in Hlat. rewrite Hlat, He, Hlive.
  apply String.eqb_neq in Hne. rewrite Hne, Hparse. reflexivity.
Qed.

Lemma substring_all s : String.substring 0 (String.length s) s = s.
Proof. induction s as [|c s IH]; simpl; [reflexivity|]. rewrite IH. reflexivity. Qed.

Lemma bearer_accepted token :
  negb (String.eqb ("Bearer " +:+ token) "") &&
  String.prefix "Bearer " ("Bearer " +:+ token) = true.
Proof. destruct token; reflexivity. Qed.

Lemma bearer_token token :
  String.substring 7 (String.length ("Bearer " +:+ token) - 7) ("Bearer " +:+ token)
  = token.
Proof. simpl. rewrite Nat.sub_0_r. apply substring_all. Qed.

(** What the routes hand to [Cache.set] is a string: the JSON text of
    the payload object. *)
Lemma payload_is_text fs :
  exists inner,
    stringify_or_undefined (Obj fs) = Str inner /\ inner <> "".
Proof.
  exists (string_of_list_ascii (JSON.ser (Obj fs))). split; [reflexivity|].
  simpl. discriminate.
Qed.

(** So the text in the store is a JSON string literal, and reading it
    back gives that string, not the object. *)
Lemma read_back_text key lat w e inner text :
  redis w !! key = Some e -> Redis.live (now w) e = true ->
  JSON.stringify (Str inner) = Some text -> Redis.data e = text ->
  (lat < 100)%N ->
  read key (Replies lat) w = Str inner.
Proof.
  intros He Hlive Hs Hd Hlat.
  destruct (JSONFacts.parse_stringify_Str inner) as (text' & Hs' & Hp).
  rewrite Hs in Hs'. injection Hs' as <-.
  apply (read_present _ _ _ _ _ He Hlive); try assumption.
  - rewrite Hd. exact (JSONFacts.stringify_nonempty _ _ Hs).
  - rewrite Hd. exact Hp.
Qed.

Lemma strict_eq_Str v s : strict_eq v (Str s) = true <-> v = Str s.
Proof.
  split.
  - destruct v; simpl; try discriminate.
    intros H. apply String.eqb_eq in H. congruence.
  - intros ->. simpl. apply String.eqb_refl.
Qed.

Lemma findUnique_kept id w w' :
  users w' = users w -> tenants w' = tenants w ->
  findUnique id w' = findUnique id w.
Proof. intros Hu Ht. unfold findUnique. rewrite Hu, Ht. reflexivity. Qed.

Lemma read_truthy key o w :
  truthy (read key o w) = true -> exists lat, o = Replies lat /\ (lat < 100)%N.
Proof.
  unfold read. destruct o as [lat|]; [|discriminate].
  destruct (N.ltb_spec lat 100); [|discriminate].
  intros _. exists lat. split; [reflexivity | assumption].
Qed.



(** ** Requests in flight together *)

Section Schedules.
Import ScheduleSpec.
Context {A : Type}.
Variable I : world -> Prop.




End Schedules.

Section IssuedCode.
Import ScheduleSpec.
Variables (key text inner : string).





End IssuedCode.

Section Provider.
Context {platform : Platform}.
Variable env : process_env.

(** The last steps of the code grant, by what the lookup gives. *)
Lemma run_issue_for_code_cases rnd codeData client_id o n w :
  run (issue_for_code rnd codeData client_id) o n w =
  match o n with
  | Fails =>
      {| returned := Throw (Error "Can't reach database server");
         final := w; next := S n |}
  | Replies lat =>
      match findUnique (prop codeData "userId") w with
      | Throw e => {| returned := Throw e; final := tick lat w; next := S n |}
      | Ok None => {| returned := Ok user_not_found; final := tick lat w; next := S n |}
      | Ok (Some user) =>
          match Db.tenant user with
          | None => {| returned := Throw (Error "TypeError");
                       final := tick lat w; next := S n |}
          | Some t =>
              {| returned := Ok (token_response (access_token user t) (toString_hex rnd)
                                   (Some (prop codeData "scope")));
                 final := written ("oauth:refresh:" +:+ toString_hex rnd)
                            (refresh_text user client_id) 2592000 (o (S n)) (tick lat w);
                 next := S (S n) |}
          end
      end
  end.
Proof.
  destruct (o n) as [lat|] eqn:Ho.
  - destruct (findUnique (prop codeData "userId") w) as [[user|]|e] eqn:Hf.
    + destruct (Db.tenant user) as [t|] eqn:Ht.
      * apply (run_issue_for_code_found rnd codeData client_id o n w lat user t Ho).
        split; assumption.
      * unfold issue_for_code. rewrite run_bind, run_findUnique, Ho. cbn [returned final next].
        rewrite Hf. rewrite run_bind, run_sign_for, Ht. reflexivity.
    + unfold issue_for_code. rewrite run_bind, run_findUnique, Ho. cbn [returned final next].
      rewrite Hf. reflexivity.
    + unfold issue_for_code. rewrite run_bind, run_findUnique, Ho. cbn [returned final next].
      rewrite Hf. reflexivity.
  - unfold issue_for_code. rewrite run_bind, run_findUnique, Ho. reflexivity.
Qed.

(** The same for the refresh grant. *)
Lemma run_rotate_cases rnd key refreshData client_id o n w :
  run (rotate rnd key refreshData client_id) o n w =
  match o n with
  | Fails =>
      {| returned := Throw (Error "Can't reach database server");
         final := w; next := S n |}
  | Replies lat =>
      match findUnique (prop refreshData "userId") w with
      | Throw e => {| returned := Throw e; final := tick lat w; next := S n |}
      | Ok None => {| returned := Ok user_not_found; final := tick lat w; next := S n |}
      | Ok (Some user) =>
          match Db.tenant user with
          | None => {| returned := Throw (Error "TypeError");
                       final := tick lat w; next := S n |}
          | Some t =>
              {| returned := Ok (token_response (access_token user t) (toString_hex rnd)
                                   None);
                 final := written ("oauth:refresh:" +:+ toString_hex rnd)
                            (refresh_text user client_id) 2592000 (o (S (S n)))
                            (deleted key (o (S n)) (tick lat w));
                 next := S (S (S n)) |}
          end
      end
  end.
Proof.
  destruct (o n) as [lat|] eqn:Ho.
  - destruct (findUnique (prop refreshData "userId") w) as [[user|]|e] eqn:Hf.
    + destruct (Db.tenant user) as [t|] eqn:Ht.
      * apply (run_rotate_found rnd key refreshData client_id o n w lat user t Ho).
        split; assumption.
      * unfold rotate. rewrite run_bind, run_findUnique, Ho. cbn [returned final next].
        rewrite Hf. rewrite run_bind, run_sign_for, Ht. reflexivity.
    + unfold rotate. rewrite run_bind, run_findUnique, Ho. cbn [returned final next].
      rewrite Hf. reflexivity.
    + unfold rotate. rewrite run_bind, run_findUnique, Ho. cbn [returned final next].
      rewrite Hf. reflexivity.
  - unfold rotate. rewrite run_bind, run_findUnique, Ho. reflexivity.
Qed.

(** C1, as the code behaves. A code issued by the authorize endpoint to
    a logged-in user and presented at once, with the redirect URI given
    at authorization and the configured client credentials, is refused
    with [invalid_grant], 400, "redirect_uri does not match": the
    payload read back is the JSON text, a string, whose [redirectUri]
    is [undefined]. *)
Theorem exchange_after_authorize_is_refused
    (rnd rnd' : list ascii) (req : Authorize.request) (w0 : world)
    (oa o : nat -> outcome) (redirectUri : string) (user : Db.user)
    (lat0 lat1 lat2 : N) (u : URL) (body : value) :
  logged_in env req w0 redirectUri user ->
  new_URL redirectUri = Some u ->
  oa 0 = Replies lat0 -> oa 1 = Replies lat1 ->
  code_request env body ->
  prop body "code" = Str (toString_hex rnd) ->
  prop body "redirect_uri" = Str redirectUri ->
  o 0 = Replies lat2 -> (lat2 < 100)%N ->
  let authorized := run (Authorize.GET env rnd req) oa 0 w0 in
  returned authorized = Ok (code_redirect req u (toString_hex rnd)) /\
  returned (run (Token.POST env rnd' (Some body)) o 0 (final authorized))
  = Ok redirect_mismatch.
Proof.
  intros Hin Hu Ho0 Ho1 Hreq Hcode Hredirect Ho Hlat. cbv zeta.
  rewrite (run_GET_logged_in env _ _ _ _ _ _ _ _ _ Hin Ho0 Hu), Ho1.
  cbn [returned final]. split; [reflexivity|].
  rewrite (run_POST_code env _ _ _ _ _ Hreq), (run_code_grant env _ _ _ _ _ Hreq).
  cbv zeta. unfold code_key. rewrite Hcode, to_string_Str, Ho, Hredirect.
  destruct (payload_is_text
              [("userId", Str (Db.id user));
               ("tenantId", Str (Db.tenantId (Db.row user)));
               ("redirectUri", Str redirectUri);
               ("clientId", nullable (Authorize.client_id req));
               ("scope", Str (scope_of req))]) as (inner & Hinner & Hne).
  erewrite read_back_text with (inner := inner); cycle 1.
  - simpl. apply lookup_insert_eq.
  - simpl. apply N.ltb_lt. lia.
  - reflexivity.
  - simpl. unfold code_text, Authorize.code_payload. rewrite Hinner. reflexivity.
  - exact Hlat.
  - apply truthy_Str in Hne. rewrite Hne. reflexivity.
Qed.




(** C3, amended. The code is deleted after the redirect URI has been
    compared, not before: when the URI presented differs from the one
    read, the exchange is refused and the store is left as it was; when
    it matches, the code is deleted next, before the user lookup and the
    minting, whatever these do. *)
Theorem code_deleted_after_redirect_check
    (rnd : list ascii) (body codeData : value) (o : nat -> outcome) (w : world) :
  code_request env body ->
  returned (run (Cache.get (code_key (prop body "code"))) o 0 w) = Ok codeData ->
  truthy codeData = true ->
  (strict_eq (prop body "redirect_uri") (prop codeData "redirectUri") = false ->
   returned (run (Token.POST env rnd (Some body)) o 0 w) = Ok redirect_mismatch /\
   redis (final (run (Token.POST env rnd (Some body)) o 0 w)) = redis w) /\
  (strict_eq (prop body "redirect_uri") (prop codeData "redirectUri") = true ->
   forall lat, o 1 = Replies lat ->
   redis (final (run (Token.POST env rnd (Some body)) o 0 w))
     !! code_key (prop body "code") = None).
Proof.
  intros Hreq Hget Htruthy. rewrite run_get in Hget. injection Hget as Hget.
  rewrite (run_POST_code env _ _ _ _ _ Hreq), (run_code_grant env _ _ _ _ _ Hreq).
  cbv zeta. rewrite Hget, Htruthy. cbn [negb]. split.
  - intros Hne. rewrite Hne. split; reflexivity.
  - intros Heq lat Ho. rewrite Heq. cbn [negb].
    assert (Hfinal : forall r : ran response,
               final (or_internal_error r) = final r).
    { intros r. unfold or_internal_error. destruct (returned r); reflexivity. }
    rewrite Hfinal, run_issue_for_code_redis, Ho by apply code_key_not_refresh.
    simpl. apply lookup_delete_eq.
Qed.

(** C4, amended. For a logged-in user whose identity lookup is answered
    and whose [redirect_uri] parses, the authorize endpoint redirects to
    [redirect_uri] with the minted code whatever the store did with the
    write; when the write failed the store is unchanged, so the code in
    the redirect is not stored.  When the identity lookup fails the
    response is the redirect to the login page, not a 500. *)
Theorem authorize_swallows_store_failure
    (rnd : list ascii) (req : Authorize.request) (o o' : nat -> outcome)
    (w : world) (redirectUri : string) (user : Db.user) (lat : N)
    (u loginUrl : URL) :
  logged_in env req w redirectUri user ->
  new_URL redirectUri = Some u ->
  new_URL_login (Authorize.url req) = Some loginUrl ->
  o 0 = Replies lat ->
  o' 0 = Fails ->
  returned (run (Authorize.GET env rnd req) o 0 w)
  = Ok (code_redirect req u (toString_hex rnd)) /\
  (o 1 = Fails ->
   redis (final (run (Authorize.GET env rnd req) o 0 w)) = redis w) /\
  returned (run (Authorize.GET env rnd req) o' 0 w)
  = Ok (NextResponse_redirect (URL_set loginUrl "redirect" (Authorize.url req))).
Proof.
  intros Hin Hu Hlogin Ho Ho'.
  rewrite (run_GET_logged_in env _ _ _ _ _ _ _ _ _ Hin Ho Hu).
  cbn [returned final]. split; [reflexivity|]. split.
  - intros Hfail. rewrite Hfail. reflexivity.
  - destruct Hin as [Hc Ht Hr (token & payload & Htok & Hv & Hf)].
    rewrite (run_GET_lookup_fails env rnd _ _ _ _ _ _ _ Hc Ht Hr Htok Hv (or_introl Ho')).
    cbn [returned]. unfold login_redirect. rewrite Hlogin. reflexivity.
Qed.



(** C6, as the code behaves. In the refresh grant the client
    credentials are checked after the presence of [refresh_token]: a
    request with wrong credentials and no refresh token is refused with
    [invalid_request], 400, "Refresh token is required".  The
    authorization-code grant of the same handler checks the credentials
    first: with wrong credentials it answers [invalid_client], 401,
    whether or not the code is there. *)
Theorem refresh_grant_checks_client_late
    (rnd : list ascii) (body body' : value) (o : nat -> outcome) (n : nat)
    (w : world) :
  prop body "grant_type" = Str "refresh_token" ->
  Token.bad_client env (prop body "client_id") (prop body "client_secret") = true ->
  truthy (prop body "refresh_token") = false ->
  prop body' "grant_type" = Str "authorization_code" ->
  Token.bad_client env (prop body' "client_id") (prop body' "client_secret") = true ->
  run (Token.POST env rnd (Some body)) o n w =
  {| returned := Ok (oauth_error "invalid_request" "Refresh token is required" 400);
     final := w; next := n |} /\
  run (Token.POST env rnd (Some body')) o n w =
  {| returned := Ok invalid_client; final := w; next := n |}.
Proof.
  intros Hg Hbad Hno Hg' Hbad'. split.
  - rewrite (POST_refresh env _ _ Hg). unfold Token.refresh_grant.
    rewrite Hno. reflexivity.
  - rewrite (POST_code env _ _ Hg'). unfold Token.code_grant.
    rewrite Hg', Hbad'.
    rewrite (proj2 (strict_eq_Str (Str "authorization_code") "authorization_code")
               eq_refl).
    reflexivity.
Qed.

(** C7. A code presented after its 300-second TTL has elapsed is
    refused with [invalid_grant], with the response a never-issued code
    gets; an expired entry reads like a key that was never written.
    [w0] is the world of the authorize request, whose write is issued
    [lat0] ms later; [w] is any later world in which the entry is still
    the one written; [w_never] is [w] without it. *)
Theorem expired_code_is_absent
    (rnd rnd' : list ascii) (req : Authorize.request) (w0 w w_never : world)
    (oa o : nat -> outcome) (redirectUri : string) (user : Db.user)
    (lat0 lat1 : N) (u : URL) (body : value) :
  logged_in env req w0 redirectUri user ->
  new_URL redirectUri = Some u ->
  oa 0 = Replies lat0 -> oa 1 = Replies lat1 ->
  code_request env body ->
  prop body "code" = Str (toString_hex rnd) ->
  redis w !! ("oauth:code:" +:+ toString_hex rnd)
  = redis (final (run (Authorize.GET env rnd req) oa 0 w0))
      !! ("oauth:code:" +:+ toString_hex rnd) ->
  (now w0 + lat0 + 300000 <= now w)%N ->
  redis w_never !! ("oauth:code:" +:+ toString_hex rnd) = None ->
  returned (run (Token.POST env rnd' (Some body)) o 0 w) = Ok invalid_code /\
  returned (run (Token.POST env rnd' (Some body)) o 0 w_never) = Ok invalid_code /\
  returned (run (Cache.get ("oauth:code:" +:+ toString_hex rnd)) o 0 w)
  = returned (run (Cache.get ("oauth:code:" +:+ toString_hex rnd)) o 0 w_never).
Proof.
  intros Hin Hu Ho0 Ho1 Hreq Hcode Hsame Hlate Hnever.
  rewrite (run_GET_logged_in env _ _ _ _ _ _ _ _ _ Hin Ho0 Hu), Ho1 in Hsame.
  simpl in Hsame. rewrite lookup_insert_eq in Hsame.
  assert (Hexp : Redis.GET (now w) ("oauth:code:" +:+ toString_hex rnd) (redis w) = None).
  { unfold Redis.GET. rewrite Hsame. unfold Redis.live. simpl.
    assert (Hl : (now w <? now w0 + lat0 + 1000 * 300)%N = false)
      by (apply N.ltb_ge; lia).
    rewrite Hl. reflexivity. }
  assert (Habs : Redis.GET (now w_never) ("oauth:code:" +:+ toString_hex rnd)
                   (redis w_never) = None).
  { unfold Redis.GET. rewrite Hnever. reflexivity. }
  assert (Hkey : code_key (prop body "code") = "oauth:code:" +:+ toString_hex rnd).
  { unfold code_key. rewrite Hcode, to_string_Str. reflexivity. }
  split; [|split].
  - rewrite (run_POST_code env _ _ _ _ _ Hreq), (run_code_grant env _ _ _ _ _ Hreq).
    cbv zeta. rewrite Hkey, (read_absent _ _ _ Hexp). reflexivity.
  - rewrite (run_POST_code env _ _ _ _ _ Hreq), (run_code_grant env _ _ _ _ _ Hreq).
    cbv zeta. rewrite Hkey, (read_absent _ _ _ Habs). reflexivity.
  - rewrite !run_get. cbn [returned].
    rewrite (read_absent _ _ _ Hexp), (read_absent _ _ _ Habs). reflexivity.
Qed.

(** C8. With a session token the codec accepts and a user the store
    knows, the userinfo response takes [licensed_modules] and
    [subscription_tier] from the tenant row the store holds now for
    that user (with the defaults [[]] and ['free']), not from the
    claims in the token: the response is the same for every token that
    names the user. *)
Theorem userinfo_licensing_is_current
    (token : string) (payload : claims) (o : nat -> outcome) (w : world)
    (lat : N) (row : Db.user_row) :
  verifyToken token = Some payload ->
  o 0 = Replies lat ->
  users w !! userId payload = Some row ->
  exists body,
    returned (run (UserInfo.GET (Some ("Bearer " +:+ token))) o 0 w)
    = Ok (NextResponse_json body 200) /\
    prop body "licensed_modules"
    = Arr (map Str (modules_or_empty
                      (tenants w !! Db.tenantId row ≫= Db.licensedModules))) /\
    prop body "subscription_tier"
    = Str (tier_or_free (tenants w !! Db.tenantId row ≫= Db.subscriptionTier)) /\
    forall token' payload',
      verifyToken token' = Some payload' -> userId payload' = userId payload ->
      returned (run (UserInfo.GET (Some ("Bearer " +:+ token'))) o 0 w)
      = Ok (NextResponse_json body 200).
Proof.
  intros Hv Ho Hrow.
  set (user := {| Db.id := userId payload; Db.row := row;
                  Db.tenant := tenants w !! Db.tenantId row |}).
  assert (Hrun : forall token' payload',
             verifyToken token' = Some payload' -> userId payload' = userId payload ->
             returned (run (UserInfo.GET (Some ("Bearer " +:+ token'))) o 0 w)
             = Ok (NextResponse_json (UserInfo.userinfo_body user) 200)).
  { intros token' payload' Hv' Hid.
    unfold UserInfo.GET. rewrite bearer_accepted, bearer_token, Hv'.
    rewrite !run_try_catch, run_bind, run_findUnique, Ho.
    cbn [returned final next findUnique]. rewrite Hid, Hrow. reflexivity. }
  exists (UserInfo.userinfo_body user).
  split; [exact (Hrun token payload Hv eq_refl)|].
  split; [reflexivity|]. split; [reflexivity|]. exact Hrun.
Qed.

(** C9. [Cache.get] never throws; when the read is answered later than
    the 100 ms timer, or the backend fails, it resolves to [null].  So a
    read slower than 100 ms makes the token endpoint answer
    [invalid_grant], for a code and for a refresh token, whatever the
    store holds under the key. *)
Theorem slow_read_reports_absence
    (key : string) (w : world) (o : nat -> outcome) (lat : N)
    (rnd : list ascii) (code_body refresh_body : value) :
  o 0 = Replies lat -> (100 < lat)%N ->
  code_request env code_body ->
  refresh_request env refresh_body ->
  (forall o' n' w', exists v, returned (run (Cache.get key) o' n' w') = Ok v) /\
  returned (run (Cache.get key) o 0 w) = Ok Null /\
  returned (run (Cache.get key) (fun _ => Fails) 0 w) = Ok Null /\
  returned (run (Token.POST env rnd (Some code_body)) o 0 w) = Ok invalid_code /\
  returned (run (Token.POST env rnd (Some refresh_body)) o 0 w) = Ok invalid_refresh.
Proof.
  intros Ho Hlat Hcode Hrefresh.
  assert (Hslow : forall k, read k (o 0) w = Null).
  { intros k. rewrite Ho. unfold read.
    assert (Hl : (lat <? 100)%N = false) by (apply N.ltb_ge; lia).
    rewrite Hl. reflexivity. }
  split; [|split; [|split; [|split]]].
  - intros o' n' w'. rewrite run_get. eauto.
  - rewrite run_get. cbn [returned]. rewrite Hslow. reflexivity.
  - rewrite run_get. reflexivity.
  - rewrite (run_POST_code env _ _ _ _ _ Hcode), (run_code_grant env _ _ _ _ _ Hcode).
    cbv zeta. rewrite Hslow. reflexivity.
  - rewrite (run_POST_refresh env _ _ _ _ _ Hrefresh),
      (run_refresh_grant env _ _ _ _ _ Hrefresh).
    cbv zeta. rewrite Hslow. reflexivity.
Qed.


End Provider.

(** ** The sample setting: runs at concrete inputs *)

Import Sample.

Lemma sample_logged_in :
  logged_in (platform := platform) env authorize_request world0 callback user1_joined.
Proof.
  constructor; try reflexivity.
  exists "jwt.u1", session1. repeat split; vm_compute; reflexivity.
Qed.

Lemma sample_code_request redirect_uri :
  code_request Sample.env (code_body code1 redirect_uri).
Proof. repeat split; vm_compute; reflexivity. Qed.

Lemma sample_refresh_request :
  refresh_request Sample.env (refresh_body refresh1).
Proof. repeat split; vm_compute; reflexivity. Qed.


(** In [world1] the code is in the store and live; the read takes
    250 ms. *)
Lemma slow_read_reports_absence_witness :
  (forall o' n' w',
      exists v, returned (run (Cache.get ("oauth:code:" +:+ code1)) o' n' w') = Ok v) /\
  returned (run (Cache.get ("oauth:code:" +:+ code1)) (fun _ => Replies 250) 0 world1)
  = Ok Null /\
  returned (run (Cache.get ("oauth:code:" +:+ code1)) (fun _ => Fails) 0 world1)
  = Ok Null /\
  returned (run (Token.POST (platform := platform) env bytes2
                   (Some (code_body code1 (Str callback))))
              (fun _ => Replies 250) 0 world1)
  = Ok invalid_code /\
  returned (run (Token.POST (platform := platform) env bytes2
                   (Some (refresh_body refresh1)))
              (fun _ => Replies 250) 0 world1)
  = Ok invalid_refresh.
Proof.
  apply (slow_read_reports_absence (platform := platform) env
           ("oauth:code:" +:+ code1) world1 (fun _ => Replies 250) 250 bytes2
           (code_body code1 (Str callback)) (refresh_body refresh1)).
  - reflexivity.
  - lia.
  - apply sample_code_request.
  - apply sample_refresh_request.
Defined.

(** [world1] 300 seconds later, against [world0] at the same instant. *)
Lemma expired_code_is_absent_witness :
  returned (run (Token.POST (platform := platform) env bytes2
                   (Some (code_body code1 (Str callback))))
              (fun _ => Replies 5) 0 (tick 300000 world1))
  = Ok invalid_code /\
  returned (run (Token.POST (platform := platform) env bytes2
                   (Some (code_body code1 (Str callback))))
              (fun _ => Replies 5) 0 (tick 300010 world0))
  = Ok invalid_code /\
  returned (run (Cache.get ("oauth:code:" +:+ toString_hex bytes1))
              (fun _ => Replies 5) 0 (tick 300000 world1))
  = returned (run (Cache.get ("oauth:code:" +:+ toString_hex bytes1))
                (fun _ => Replies 5) 0 (tick 300010 world0)).
Proof.
  apply (expired_code_is_absent (platform := platform) env bytes1 bytes2
           authorize_request world0 (tick 300000 world1) (tick 300010 world0)
           (fun _ => Replies 5) (fun _ => Replies 5) callback user1_joined 5 5
           callback_url (code_body code1 (Str callback))).
  - apply sample_logged_in.
  - reflexivity.
  - reflexivity.
  - reflexivity.
  - apply sample_code_request.
  - reflexivity.
  - reflexivity.
  - vm_compute. discriminate.
  - vm_compute. reflexivity.
Defined.

(** The token [jwt.u1] carries [crm] and [starter]; the store says
    [crm], [invoicing] and [professional]. *)
Lemma userinfo_licensing_is_current_witness :
  exists body,
    returned (run (UserInfo.GET (platform := platform) (Some "Bearer jwt.u1"))
                (fun _ => Replies 5) 0 world0)
    = Ok (NextResponse_json body 200) /\
    prop body "licensed_modules" = Arr [Str "crm"; Str "invoicing"] /\
    prop body "subscription_tier" = Str "professional".
Proof.
  destruct (userinfo_licensing_is_current (platform := platform) "jwt.u1" session1
              (fun _ => Replies 5) world0 5 user1
              eq_refl eq_refl eq_refl) as (body & Hrun & Hmodules & Htier & _).
  exists body. split; [exact Hrun|]. split.
  - rewrite Hmodules. vm_compute. reflexivity.
  - rewrite Htier. vm_compute. reflexivity.
Defined.

Lemma exchange_after_authorize_is_refused_witness :
  returned (run (Authorize.GET (platform := platform) env bytes1 authorize_request)
              (fun _ => Replies 5) 0 world0)
  = Ok (code_redirect authorize_request callback_url code1) /\
  returned
    (run (Token.POST (platform := platform) env bytes2
            (Some (code_body code1 (Str callback))))
       (fun _ => Replies 5) 0
       (final (run (Authorize.GET (platform := platform) env bytes1 authorize_request)
                 (fun _ => Replies 5) 0 world0)))
  = Ok redirect_mismatch.
Proof.
  apply (exchange_after_authorize_is_refused (platform := platform) env
           bytes1 bytes2 authorize_request world0
           (fun _ => Replies 5) (fun _ => Replies 5) callback user1_joined 5 5 5
           callback_url (code_body code1 (Str callback))).
  - apply sample_logged_in.
  - reflexivity.
  - reflexivity.
  - reflexivity.
  - apply sample_code_request.
  - reflexivity.
  - reflexivity.
  - reflexivity.
  - lia.
Defined.


(** In [world_code]: another redirect URI leaves the store as it was;
    the right one deletes the code, even when the user lookup fails. *)
Lemma code_deleted_after_redirect_check_witness :
  (returned (run (Token.POST (platform := platform) env bytes2
                    (Some (code_body code1 (Str elsewhere))))
               (fun _ => Replies 5) 0 world_code)
   = Ok redirect_mismatch /\
   redis (final (run (Token.POST (platform := platform) env bytes2
                        (Some (code_body code1 (Str elsewhere))))
                   (fun _ => Replies 5) 0 world_code))
   = redis world_code) /\
  redis (final (run (Token.POST (platform := platform) env bytes2
                       (Some (code_body code1 (Str callback))))
                  (answers [Replies 5; Replies 5]) 0 world_code))
    !! ("oauth:code:" +:+ code1) = None.
Proof.
  split.
  - eapply (code_deleted_after_redirect_check (platform := platform) env bytes2
              (code_body code1 (Str elsewhere)) _ (fun _ => Replies 5) world_code).
    + apply sample_code_request.
    + vm_compute. reflexivity.
    + reflexivity.
    + reflexivity.
  - eapply (code_deleted_after_redirect_check (platform := platform) env bytes2
              (code_body code1 (Str callback)) _ (answers [Replies 5; Replies 5])
              world_code).
    + apply sample_code_request.
    + vm_compute. reflexivity.
    + reflexivity.
    + reflexivity.
    + reflexivity.
Defined.

Lemma authorize_swallows_store_failure_witness :
  returned (run (Authorize.GET (platform := platform) env bytes1 authorize_request)
              (answers [Replies 5; Fails]) 0 world0)
  = Ok (code_redirect authorize_request callback_url code1) /\
  (answers [Replies 5; Fails] 1 = Fails ->
   redis (final (run (Authorize.GET (platform := platform) env bytes1 authorize_request)
                   (answers [Replies 5; Fails]) 0 world0))
   = redis world0) /\
  returned (run (Authorize.GET (platform := platform) env bytes1 authorize_request)
              (fun _ => Fails) 0 world0)
  = Ok (NextResponse_redirect
          (URL_set {| base := "/login"; searchParams := [] |} "redirect"
             (Authorize.url authorize_request))).
Proof.
  apply (authorize_swallows_store_failure (platform := platform) env bytes1
           authorize_request (answers [Replies 5; Fails]) (fun _ => Fails)
           world0 callback user1_joined 5 callback_url
           {| base := "/login"; searchParams := [] |}).
  - apply sample_logged_in.
  - reflexivity.
  - reflexivity.
  - reflexivity.
  - reflexivity.
Defined.


(** Wrong credentials and nothing else: 400 for the refresh grant, 401
    for the authorization-code grant. *)
Lemma refresh_grant_checks_client_late_witness :
  run (Token.POST (platform := platform) env bytes1 (Some intruder_request))
    (fun _ => Replies 5) 0 world0
  = {| returned := Ok (oauth_error "invalid_request" "Refresh token is required" 400);
       final := world0; next := 0 |} /\
  run (Token.POST (platform := platform) env bytes1 (Some intruder_code))
    (fun _ => Replies 5) 0 world0
  = {| returned := Ok invalid_client; final := world0; next := 0 |}.
Proof.
  apply (refresh_grant_checks_client_late (platform := platform) env bytes1
           intruder_request intruder_code (fun _ => Replies 5) 0 world0);
    reflexivity.
Defined.

(** ** Where the claims as written fail *)

(** C3: refused for the redirect URI, the code of [world1] stays in the
    store. *)
Lemma code_kept_on_mismatch : ~ Stated.code_deleted_once_read.
Proof.
  intros H.
  specialize (H platform env bytes2 (code_body code1 (Str elsewhere))
                (fun _ => Replies 5) world1 (sample_code_request _)).
  assert (Hresp : returned (run (Token.POST (platform := platform) env bytes2
                                   (Some (code_body code1 (Str elsewhere))))
                              (fun _ => Replies 5) 0 world1)
                  = Ok redirect_mismatch) by (vm_compute; reflexivity).
  specialize (H Hresp). vm_compute in H. discriminate.
Qed.

(** C4: the write of the code fails and the response still redirects to
    [redirect_uri] with the code. *)
Lemma authorize_redirects_unstored_code : ~ Stated.authorize_failures_contained.
Proof.
  intros H.
  specialize (H platform env bytes1 authorize_request
                (answers [Replies 5; Fails]) world0 callback user1_joined
                sample_logged_in (or_intror eq_refl)).
  vm_compute in H. discriminate.
Qed.


(** * Further properties of the code *)

(** ** [Cache]: expiry, overwriting, deleting, failing *)

Import Js RunFacts CacheSpec CacheFacts TokenSpec TokenFacts.
Import AuthorizeSpec AuthorizeFacts Sample Cases.

(** The world after [Cache.set], for every value and TTL. *)
Lemma run_set_total key v ttl o n w :
  returned (run (Cache.set key v ttl) o n w) = Ok tt /\
  next (run (Cache.set key v ttl) o n w)
  = match JSON.stringify v with Some _ => S n | None => n end /\
  users (final (run (Cache.set key v ttl) o n w)) = users w /\
  tenants (final (run (Cache.set key v ttl) o n w)) = tenants w /\
  (forall k, k <> key ->
     redis (final (run (Cache.set key v ttl) o n w)) !! k = redis w !! k) /\
  (o n = Fails \/ (exists t, ttl = Some t /\ (t < 0)%Z) ->
     redis (final (run (Cache.set key v ttl) o n w)) = redis w).
Proof.
  unfold Cache.set. destruct (JSON.stringify v) as [text|]; [|simpl; tauto].
  destruct ttl as [t|]; [destruct (Z.eqb_spec t 0) as [->|Hne]|].
  - simpl. destruct (o n) as [lat|]; simpl.
    + destruct (lat <? 100)%N; destruct (lat <? commandTimeout)%N; simpl;
        (repeat split; try reflexivity;
         [intros k Hk; apply lookup_insert_ne; congruence
         |intros [Hf|(t' & [= <-] & Hlt)]; [discriminate|lia]]).
    + repeat split; reflexivity.
  - simpl. unfold Redis.SETEX.
    destruct ((0 <? t) && (t <=? Redis.max_seconds))%Z eqn:Hpos.
    + apply andb_prop in Hpos. destruct Hpos as [Hpos _].
      apply Z.ltb_lt in Hpos. destruct (o n) as [lat|]; simpl.
      * destruct (lat <? 100)%N; destruct (lat <? commandTimeout)%N; simpl;
          (repeat split; try reflexivity;
           [intros k Hk; apply lookup_insert_ne; congruence
           |intros [Hf|(t' & [= <-] & Hlt)]; [discriminate|lia]]).
      * repeat split; reflexivity.
    + destruct (o n) as [lat|]; simpl.
      * destruct (lat <? 100)%N; simpl; repeat split; reflexivity.
      * repeat split; reflexivity.
  - simpl. destruct (o n) as [lat|]; simpl.
    + destruct (lat <? 100)%N; destruct (lat <? commandTimeout)%N; simpl;
        (repeat split; try reflexivity;
         [intros k Hk; apply lookup_insert_ne; congruence
         |intros [Hf|(t' & [=] & _)]; discriminate]).
    + repeat split; reflexivity.
Qed.

(** The world after [Cache.delete]. *)
Lemma run_delete_total key o n w :
  returned (run (Cache.delete key) o n w) = Ok tt /\
  users (final (run (Cache.delete key) o n w)) = users w /\
  tenants (final (run (Cache.delete key) o n w)) = tenants w /\
  (forall k, k <> key ->
     redis (final (run (Cache.delete key) o n w)) !! k = redis w !! k) /\
  (o n = Fails -> redis (final (run (Cache.delete key) o n w)) = redis w) /\
  (forall lat, o n = Replies lat ->
     redis (final (run (Cache.delete key) o n w)) !! key = None).
Proof.
  rewrite run_delete. cbn [returned final]. unfold deleted.
  destruct (o n) as [lat|]; simpl.
  - repeat split; try reflexivity.
    + intros k Hk. apply lookup_delete_ne. congruence.
    + discriminate.
    + intros _ _. apply lookup_delete_eq.
  - repeat split; try reflexivity. discriminate.
Qed.

(** X1. An entry written without a TTL, or with the TTL 0, has no
    expiry: [Cache.get] returns the value at any later time, as long as
    the key is not written or deleted and the read is answered before
    the timer. *)
Theorem cache_entry_without_ttl_never_expires
    (k : string) (v : value) (ttl : option Z) (w w2 : world)
    (o o2 : nat -> outcome) (n n2 : nat) (lat lat2 : N) :
  JSON.serializable v ->
  ttl = None \/ ttl = Some 0%Z ->
  o n = Replies lat ->
  o2 n2 = Replies lat2 -> (lat2 < 100)%N ->
  redis w2 !! k = redis (final (run (Cache.set k v ttl) o n w)) !! k ->
  returned (run (Cache.get k) o2 n2 w2) = Ok v.
Proof.
  intros Hser Httl Ho Ho2 Hlat2 Hsame.
  destruct (JSONFacts.parse_stringify v Hser) as (text & Hs & Hp).
  assert (Hentry : redis w2 !! k
                   = Some {| Redis.data := text; Redis.expires_at := None |}).
  { rewrite Hsame. unfold Cache.set. rewrite Hs.
    destruct Httl as [-> | ->]; simpl; rewrite Ho; simpl;
      destruct (lat <? 100)%N; destruct (lat <? commandTimeout)%N; simpl;
      apply lookup_insert_eq. }
  rewrite run_get, Ho2. cbn [returned]. f_equal.
  apply (read_present _ _ _ _ _ Hentry); simpl; try assumption.
  - reflexivity.
  - exact (JSONFacts.stringify_nonempty _ _ Hs).
Qed.

Lemma cache_entry_without_ttl_never_expires_witness :
  returned
    (run (Cache.get "k") (fun _ => Replies 7) 0
       (tick 1000000000000
          (final (run (Cache.set "k" cached1 (Some 0%Z)) (fun _ => Replies 5) 0
                    world0))))
  = Ok cached1.
Proof.
  apply (cache_entry_without_ttl_never_expires "k" cached1 (Some 0%Z) world0 _
           (fun _ => Replies 5) (fun _ => Replies 7) 0 0 5 7).
  - simpl. repeat split; try lia.
    apply (bool_decide_unpack _). vm_compute. reflexivity.
  - right. reflexivity.
  - reflexivity.
  - reflexivity.
  - lia.
  - reflexivity.
Defined.

(** X2. [Cache.set] and [Cache.delete] never throw, whatever the value,
    the TTL and the answer of the backend; when the backend rejects the
    command, or the TTL is negative (Redis refuses it), the store is left
    as it was. *)
Theorem cache_writes_fail_silently
    (key : string) (v : value) (ttl : option Z) (o : nat -> outcome)
    (n : nat) (w : world) :
  o n = Fails \/ (exists t, ttl = Some t /\ (t < 0)%Z) ->
  returned (run (Cache.set key v ttl) o n w) = Ok tt /\
  redis (final (run (Cache.set key v ttl) o n w)) = redis w /\
  returned (run (Cache.delete key) o n w) = Ok tt /\
  (o n = Fails -> redis (final (run (Cache.delete key) o n w)) = redis w) /\
  (forall o' n' w',
     returned (run (Cache.set key v ttl) o' n' w') = Ok tt /\
     returned (run (Cache.delete key) o' n' w') = Ok tt).
Proof.
  intros Hfail.
  destruct (run_set_total key v ttl o n w) as (Hr & _ & _ & _ & _ & Hsame).
  destruct (run_delete_total key o n w) as (Hd & _ & _ & _ & Hdsame & _).
  split; [exact Hr|]. split; [exact (Hsame Hfail)|]. split; [exact Hd|].
  split; [exact Hdsame|].
  intros o' n' w'. split.
  - apply run_set_total.
  - apply run_delete_total.
Qed.

Lemma cache_writes_fail_silently_witness :
  returned (run (Cache.set "k" cached1 (Some (-5)%Z)) (fun _ => Replies 5) 0 world1)
  = Ok tt /\
  redis (final (run (Cache.set "k" cached1 (Some (-5)%Z)) (fun _ => Replies 5) 0
                  world1))
  = redis world1.
Proof.
  destruct (cache_writes_fail_silently "k" cached1 (Some (-5)%Z)
              (fun _ => Replies 5) 0 world1) as (Hr & Hsame & _).
  - right. exists (-5)%Z. split; [reflexivity|lia].
  - split; assumption.
Defined.

(** X3. After a [Cache.delete] that the store applied, [Cache.get]
    resolves to [null] until the key is written again; deleting a key
    that is absent leaves the store as it was. *)
Theorem cache_delete_then_get
    (key : string) (w w2 : world) (o o2 : nat -> outcome) (n n2 : nat) (lat : N) :
  o n = Replies lat ->
  redis w2 !! key = redis (final (run (Cache.delete key) o n w)) !! key ->
  returned (run (Cache.get key) o2 n2 w2) = Ok Null /\
  (redis w !! key = None ->
   redis (final (run (Cache.delete key) o n w)) = redis w).
Proof.
  intros Ho Hsame.
  destruct (run_delete_total key o n w) as (_ & _ & _ & _ & _ & Hgone).
  rewrite (Hgone lat Ho) in Hsame. split.
  - rewrite run_get. cbn [returned]. rewrite read_absent; [reflexivity|].
    unfold Redis.GET. rewrite Hsame. reflexivity.
  - intros Habsent. rewrite run_delete, Ho. simpl.
    apply delete_id. exact Habsent.
Qed.

Lemma cache_delete_then_get_witness :
  returned
    (run (Cache.get ("oauth:code:" +:+ code1)) (fun _ => Replies 5) 0
       (final (run (Cache.delete ("oauth:code:" +:+ code1)) (fun _ => Replies 5) 0
                 world1)))
  = Ok Null.
Proof.
  apply (cache_delete_then_get ("oauth:code:" +:+ code1) world1 _
           (fun _ => Replies 5) (fun _ => Replies 5) 0 0 5).
  - reflexivity.
  - reflexivity.
Defined.

(** X4. Writing a key again replaces the value and the expiry: after
    a second [Cache.set] with an expire time the server takes (a whole
    number of seconds, positive, whose expiry instant fits the server's
    64-bit count of milliseconds), [Cache.get] returns the second value
    until that TTL has elapsed since the second write, and [null] from
    then on, whatever the first write's value and TTL were. *)
Theorem cache_overwrite_takes_value_and_ttl
    (k : string) (v1 v2 : value) (ttl1 : option Z) (ttl2 : Z) (w w2 : world)
    (o o1 o2 : nat -> outcome) (n n1 n2 : nat) (lat1 lat2 : N) :
  JSON.serializable v2 ->
  (0 < ttl2)%Z ->
  o1 n1 = Replies lat1 ->
  o2 n2 = Replies lat2 -> (lat2 < 100)%N ->
  let w1 := final (run (Cache.set k v1 ttl1) o n w) in
  (Z.of_N (now w1) + 1000 * ttl2 <= Redis.LLONG_MAX)%Z ->
  redis w2 !! k = redis (final (run (Cache.set k v2 (Some ttl2)) o1 n1 w1)) !! k ->
  ((now w2 < now w1 + 1000 * Z.to_N ttl2)%N ->
   returned (run (Cache.get k) o2 n2 w2) = Ok v2) /\
  ((now w1 + 1000 * Z.to_N ttl2 <= now w2)%N ->
   returned (run (Cache.get k) o2 n2 w2) = Ok Null).
Proof.
  intros Hser Httl Ho1 Ho2 Hlat2 w1 Hfits Hsame.
  destruct (JSONFacts.parse_stringify v2 Hser) as (text & Hs & Hp).
  assert (Hrange : (0 < ttl2 <= Redis.max_seconds)%Z)
    by (unfold Redis.LLONG_MAX, Redis.max_seconds in *; lia).
  rewrite (run_set _ _ _ _ _ _ _ Hs Hrange), Ho1 in Hsame. simpl in Hsame.
  rewrite lookup_insert_eq in Hsame. split; intros Hnow.
  - rewrite run_get, Ho2. cbn [returned]. f_equal.
    apply (read_present _ _ _ _ _ Hsame); simpl; try assumption.
    + apply N.ltb_lt. exact Hnow.
    + exact (JSONFacts.stringify_nonempty _ _ Hs).
  - rewrite run_get. cbn [returned]. rewrite read_absent; [reflexivity|].
    unfold Redis.GET. rewrite Hsame. unfold Redis.live. simpl.
    assert (Hl : (now w2 <? now w1 + 1000 * Z.to_N ttl2)%N = false)
      by (apply N.ltb_ge; exact Hnow).
    rewrite Hl. reflexivity.
Qed.

(** The first write has no expiry; the second lasts 60 seconds. *)
Lemma cache_overwrite_takes_value_and_ttl_witness :
  let w1 := final (run (Cache.set "k" (Str "old") None) (fun _ => Replies 5) 0 world0) in
  let w2 := final (run (Cache.set "k" cached1 (Some 60%Z)) (fun _ => Replies 5) 0 w1) in
  returned (run (Cache.get "k") (fun _ => Replies 7) 0 w2) = Ok cached1 /\
  returned (run (Cache.get "k") (fun _ => Replies 7) 0 (tick 60000 w2)) = Ok Null.
Proof.
  split.
  - apply (cache_overwrite_takes_value_and_ttl "k" (Str "old") cached1 None 60
             world0 _ (fun _ => Replies 5) (fun _ => Replies 5) (fun _ => Replies 7)
             0 0 0 5 7).
    + simpl. repeat split; try lia.
      apply (bool_decide_unpack _). vm_compute. reflexivity.
    + lia.
    + reflexivity.
    + reflexivity.
    + lia.
    + vm_compute. discriminate.
    + reflexivity.
    + vm_compute. reflexivity.
  - apply (cache_overwrite_takes_value_and_ttl "k" (Str "old") cached1 None 60
             world0 _ (fun _ => Replies 5) (fun _ => Replies 5) (fun _ => Replies 7)
             0 0 0 5 7).
    + simpl. repeat split; try lia.
      apply (bool_decide_unpack _). vm_compute. reflexivity.
    + lia.
    + reflexivity.
    + reflexivity.
    + lia.
    + vm_compute. discriminate.
    + reflexivity.
    + vm_compute. discriminate.
Defined.

(** X5. The [Cache] methods touch one key: [get] leaves the whole store
    as it was, and [set] and [delete] leave every other key as it
    was, whatever the backend answers. *)
Theorem cache_touches_one_key
    (key k : string) (v : value) (ttl : option Z) (o : nat -> outcome)
    (n : nat) (w : world) :
  k <> key ->
  redis (final (run (Cache.get key) o n w)) = redis w /\
  redis (final (run (Cache.set key v ttl) o n w)) !! k = redis w !! k /\
  redis (final (run (Cache.delete key) o n w)) !! k = redis w !! k.
Proof.
  intros Hk. split; [|split].
  - rewrite run_get. reflexivity.
  - destruct (run_set_total key v ttl o n w) as (_ & _ & _ & _ & Hother & _).
    exact (Hother k Hk).
  - destruct (run_delete_total key o n w) as (_ & _ & _ & Hother & _).
    exact (Hother k Hk).
Qed.

Lemma cache_touches_one_key_witness :
  redis (final (run (Cache.delete "k") (fun _ => Replies 5) 0 world1))
    !! ("oauth:code:" +:+ code1)
  = redis world1 !! ("oauth:code:" +:+ code1).
Proof.
  apply (cache_touches_one_key "k" ("oauth:code:" +:+ code1) Null None
           (fun _ => Replies 5) 0 world1).
  vm_compute. discriminate.
Defined.

Lemma parse_no_value text :
  starts_no_value text -> text = "" \/ JSON.parse text = None.
Proof.
  unfold starts_no_value, JSON.parse. intros H. right.
  set (s := list_ascii_of_string text) in *. clearbody s.
  cbn [JSON.parse_value]. destruct (JSON.skip_ws s) as [|c r]; [reflexivity|].
  unfold JSONSpec.value_start in H.
  repeat (apply orb_false_elim in H; destruct H as [H ?]).
  unfold JSON.parse_number. cbn [JSON.span_digits].
  repeat match goal with
         | E : Ascii.eqb _ _ = false |- _ => rewrite E; clear E
         end.
  rewrite H. reflexivity.
Qed.

(** X6. An entry that is not JSON is reported as absent: when the text
    under the key is empty, is blank, or starts with a character no
    JSON value starts with, [Cache.get] resolves to [null], as for a
    key that is not there, and the entry stays in the store. *)
Theorem cache_get_unreadable_is_null
    (key : string) (w : world) (o : nat -> outcome) (n : nat) (e : Redis.entry) :
  redis w !! key = Some e ->
  starts_no_value (Redis.data e) ->
  returned (run (Cache.get key) o n w) = Ok Null /\
  redis (final (run (Cache.get key) o n w)) !! key = Some e.
Proof.
  intros He Hbad. rewrite run_get. cbn [returned final]. split; [|exact He].
  f_equal. unfold read, Redis.GET. rewrite He.
  destruct (o n) as [lat|]; [|reflexivity].
  destruct (lat <? 100)%N; [|reflexivity].
  destruct (Redis.live (now w) e); [|reflexivity].
  destruct (parse_no_value _ Hbad) as [-> | Hp]; [reflexivity|].
  rewrite Hp. destruct (String.eqb (Redis.data e) ""); reflexivity.
Qed.

Lemma cache_get_unreadable_is_null_witness :
  returned (run (Cache.get "k") (fun _ => Replies 5) 0 world_torn) = Ok Null.
Proof.
  apply (cache_get_unreadable_is_null "k" world_torn (fun _ => Replies 5) 0
           {| Redis.data := "<html>"; Redis.expires_at := None |}).
  - reflexivity.
  - reflexivity.
Defined.

(** ** [getRedisClient]: retries, warnings, the shared client *)

(** X7. The reconnection delay is never capped: [retryStrategy] gives up
    exactly from the fourth attempt on, and before that the delay is
    [times * 50], at most 150 ms, so that [Math.min(..., 2000)] always
    takes its first argument. *)
Theorem retry_delay_never_capped (times : Z) :
  (RedisClient.retryStrategy times = None <-> (3 < times)%Z) /\
  (forall d, RedisClient.retryStrategy times = Some d ->
             d = (times * 50)%Z /\ (d <= 150)%Z).
Proof.
  unfold RedisClient.retryStrategy.
  destruct (Z.ltb_spec 3 times) as [H|H]; split.
  - split; [intros _; exact H | reflexivity].
  - intros d Hd. discriminate.
  - split; [discriminate | lia].
  - intros d Hd. injection Hd as <-. lia.
Qed.

Lemma warnings_step (st : RedisClient.step) (s : RedisClient.state) :
  RedisClient.warnings (RedisClient.after st s)
  + (if RedisClient.errorLogged (RedisClient.after st s) then 0 else 1)
  <= RedisClient.warnings s
     + (if RedisClient.errorLogged s then 0 else 1)
     + (if RedisClient.is_connect st then 1 else 0).
Proof.
  unfold RedisClient.warnings.
  destruct s as [r e c k l]. destruct st as [|o|[m| | |]]; simpl.
  - destruct r; simpl; lia.
  - destruct r as [?|]; [destruct o|]; simpl; lia.
  - destruct e; simpl; [lia|].
    rewrite filter_app, length_app. simpl. lia.
  - destruct c; simpl; [lia|].
    rewrite filter_app, length_app. simpl. destruct e; lia.
  - rewrite filter_app, length_app. simpl. lia.
  - lia.
Qed.

(** X8. The handlers print the warning at most once per connection:
    over any sequence of calls and events, the number of warnings grows
    by at most the number of [connect] events, plus one if no error
    had been logged yet. *)
Theorem warning_once_per_connection
    (steps : list RedisClient.step) (s : RedisClient.state) :
  RedisClient.warnings (RedisClient.after_all steps s)
  <= RedisClient.warnings s
     + (if RedisClient.errorLogged s then 0 else 1)
     + RedisClient.connects steps.
Proof.
  enough (H : RedisClient.warnings (RedisClient.after_all steps s)
              + (if RedisClient.errorLogged (RedisClient.after_all steps s)
                 then 0 else 1)
              <= RedisClient.warnings s
                 + (if RedisClient.errorLogged s then 0 else 1)
                 + RedisClient.connects steps) by lia.
  revert s. induction steps as [|st steps IH]; intros s.
  - unfold RedisClient.connects. simpl. lia.
  - change (RedisClient.after_all (st :: steps) s)
      with (RedisClient.after_all steps (RedisClient.after st s)).
    specialize (IH (RedisClient.after st s)).
    pose proof (warnings_step st s) as Hst.
    assert (Hc : RedisClient.connects (st :: steps)
                 = (if RedisClient.is_connect st then 1 else 0)
                   + RedisClient.connects steps).
    { unfold RedisClient.connects. rewrite filter_cons.
      destruct (decide (RedisClient.is_connect st = true)) as [e|e].
      - rewrite e. reflexivity.
      - destruct (RedisClient.is_connect st); [congruence | reflexivity]. }
    lia.
Qed.

Lemma client_known_step st s :
  RedisClient.client_known s ->
  RedisClient.client_known (RedisClient.after st s) /\
  RedisClient.constructed s <= RedisClient.constructed (RedisClient.after st s).
Proof.
  unfold RedisClient.client_known. intros H.
  destruct s as [r e c k l]. simpl in H.
  destruct st as [|o|[m| | |]]; simpl.
  - destruct r as [x|]; simpl; split; try lia; intros y Hy.
    + exact (H y Hy).
    + injection Hy as <-. lia.
  - destruct r as [x|]; [destruct o|]; simpl; split; try lia; intros y Hy;
      try discriminate; exact (H y Hy).
  - split; [exact H | lia].
  - destruct c; simpl; (split; [exact H | lia]).
  - split; [exact H | lia].
  - split; [exact H | lia].
Qed.

Lemma client_known_steps steps s :
  RedisClient.client_known s ->
  RedisClient.client_known (RedisClient.after_all steps s) /\
  RedisClient.constructed s <= RedisClient.constructed (RedisClient.after_all steps s).
Proof.
  revert s. induction steps as [|st steps IH]; intros s H.
  - split; [exact H | reflexivity].
  - change (RedisClient.after_all (st :: steps) s)
      with (RedisClient.after_all steps (RedisClient.after st s)).
    destruct (client_known_step st s H) as [H1 H2].
    destruct (IH _ H1) as [H3 H4]. split; [exact H3 | lia].
Qed.

Lemma client_kept_steps steps s c :
  (forall lat, ~ In (RedisClient.calls_closeRedisConnection (Replies lat)) steps) ->
  RedisClient.redis s = Some c ->
  RedisClient.redis (RedisClient.after_all steps s) = Some c.
Proof.
  revert s. induction steps as [|st steps IH]; intros s Hno Hs.
  - exact Hs.
  - change (RedisClient.after_all (st :: steps) s)
      with (RedisClient.after_all steps (RedisClient.after st s)).
    apply IH.
    + intros lat Hin. apply (Hno lat). right. exact Hin.
    + destruct st as [|o|[m| | |]]; simpl.
      * unfold RedisClient.getRedisClient. rewrite Hs. exact Hs.
      * unfold RedisClient.closeRedisConnection. rewrite Hs.
        destruct o as [lat|]; [|exact Hs].
        exfalso. apply (Hno lat). left. reflexivity.
      * exact Hs.
      * destruct (RedisClient.isConnected s); exact Hs.
      * exact Hs.
      * exact Hs.
Qed.

(** X9. One client is shared until it is closed: whatever happened
    since the module was loaded, the client [getRedisClient] returns is
    returned again after any calls and events among which no
    [closeRedisConnection] succeeded (one whose [quit] rejects leaves
    the client in place); and once [closeRedisConnection] has succeeded,
    [getRedisClient] returns another client, while the holders of the
    first, the exported [cache] for one, still have the closed one. *)
Theorem client_shared_until_closed
    (before steps : list RedisClient.step) (lat : N) :
  let s := RedisClient.after_all before RedisClient.loaded in
  let c := fst (RedisClient.getRedisClient s) in
  let s1 := RedisClient.after_all steps (snd (RedisClient.getRedisClient s)) in
  ((forall lat', ~ In (RedisClient.calls_closeRedisConnection (Replies lat')) steps) ->
   RedisClient.getRedisClient s1 = (c, s1)) /\
  fst (RedisClient.closeRedisConnection (Replies lat) s1) = Ok tt /\
  fst (RedisClient.getRedisClient
         (snd (RedisClient.closeRedisConnection (Replies lat) s1))) <> c.
Proof.
  intros s c s1.
  assert (Hk : RedisClient.client_known s).
  { apply client_known_steps. intros x Hx. discriminate. }
  assert (Hc : RedisClient.redis (snd (RedisClient.getRedisClient s)) = Some c
               /\ RedisClient.client_known (snd (RedisClient.getRedisClient s))).
  { split.
    - subst c. unfold RedisClient.getRedisClient.
      destruct (RedisClient.redis s) eqn:E; simpl; [exact E | reflexivity].
    - exact (proj1 (client_known_step RedisClient.calls_getRedisClient s Hk)). }
  destruct Hc as [Hc Hk1].
  split; [|split].
  - intros Hno. unfold RedisClient.getRedisClient.
    subst s1. rewrite (client_kept_steps _ _ c Hno Hc). reflexivity.
  - unfold RedisClient.closeRedisConnection.
    destruct (RedisClient.redis s1); reflexivity.
  - destruct (client_known_steps steps _ Hk1) as [_ Hle]. fold s1 in Hle.
    pose proof (Hk1 c Hc) as Hlt.
    assert (Hnew : c < RedisClient.constructed s1) by lia.
    clearbody s1 c. clear - Hnew.
    unfold RedisClient.closeRedisConnection, RedisClient.getRedisClient.
    destruct s1 as [[x|] e k m l]; simpl in *; lia.
Qed.

(** ** What the handlers leave alone *)

Lemma perform_kept {T : Type} (c : call T) (o : outcome) (w : world) :
  kept_outside (fun k => key_written c = Some k) w (snd (perform c o w)).
Proof.
  unfold kept_outside.
  induction c as [key|key v|key s v|key|id|T c IH ms]; simpl.
  - destruct o as [lat|]; [destruct (lat <? commandTimeout)%N|]; simpl;
      repeat split; try lia; reflexivity.
  - destruct o as [lat|]; [destruct (lat <? commandTimeout)%N|]; simpl;
      repeat split; try lia; try reflexivity;
      intros k Hk; unfold Redis.SET; apply lookup_insert_ne; congruence.
  - destruct o as [lat|]; [|simpl; repeat split; try lia; reflexivity].
    unfold Redis.SETEX. destruct ((0 <? s) && (s <=? Redis.max_seconds))%Z;
      [destruct (lat <? commandTimeout)%N|]; simpl;
      repeat split; try lia; try reflexivity;
      intros k Hk; apply lookup_insert_ne; congruence.
  - destruct o as [lat|]; [destruct (lat <? commandTimeout)%N|]; simpl;
      repeat split; try lia; try reflexivity;
      intros k Hk; unfold Redis.DEL; apply lookup_delete_ne; congruence.
  - destruct o as [lat|]; simpl; repeat split; try lia; reflexivity.
  - destruct o as [lat|].
    + destruct (perform c (Replies lat) w) as [r w'].
      destruct IH as (Hu & Ht & Hn & Hr).
      destruct (lat <? ms)%N; simpl in *; repeat split; try assumption; lia.
    + destruct (perform c Fails w) as [r w'].
      exact IH.
Qed.

Lemma run_kept {A : Type} (K : string -> Prop) (p : prog A) :
  writes_within K p ->
  forall o n w, kept_outside K w (final (run p o n w)).
Proof.
  induction 1 as [r|T c k Hc Hk IH]; intros o n w.
  - simpl. unfold kept_outside. repeat split; try reflexivity; lia.
  - simpl. pose proof (perform_kept c (o n) w) as Hp.
    destruct (perform c (o n) w) as [r w']. simpl in Hp.
    specialize (IH r o (S n) w').
    destruct Hp as (Hu & Ht & Hn & Hr). destruct IH as (Hu' & Ht' & Hn' & Hr').
    unfold kept_outside. repeat split; try congruence; try lia.
    intros key Hkey. rewrite Hr' by exact Hkey. apply Hr.
    intros E. exact (Hkey (Hc _ E)).
Qed.

Lemma within_bind {A B : Type} K (p : prog A) (f : A -> prog B) :
  writes_within K p -> (forall a, writes_within K (f a)) ->
  writes_within K (bind p f).
Proof.
  induction 1 as [[a|e]|T c k Hc Hk IH]; intros Hf; simpl.
  - apply Hf.
  - constructor.
  - constructor; [exact Hc | intros r; apply IH; exact Hf].
Qed.

Lemma within_try_catch {A : Type} K (p : prog A) (h : exn -> prog A) :
  writes_within K p -> (forall e, writes_within K (h e)) ->
  writes_within K (try_catch p h).
Proof.
  induction 1 as [[a|e]|T c k Hc Hk IH]; intros Hh; simpl.
  - constructor.
  - apply Hh.
  - constructor; [exact Hc | intros r; apply IH; exact Hh].
Qed.

Lemma within_find {K} id : writes_within K (await (FindUnique id)).
Proof. constructor; [discriminate | intros r; constructor]. Qed.

Lemma within_get {K} key : writes_within K (Cache.get key).
Proof.
  unfold Cache.get. apply within_try_catch; [|intros e; constructor].
  apply within_bind.
  - constructor; [discriminate | intros r; constructor].
  - intros [[text|]|]; try constructor.
    destruct (String.eqb text ""); [constructor|].
    destruct (JSON.parse text); constructor.
Qed.

Lemma within_set {K : string -> Prop} key v ttl :
  K key -> writes_within K (Cache.set key v ttl).
Proof.
  intros HK. unfold Cache.set.
  apply within_try_catch; [|intros e; constructor].
  destruct (JSON.stringify v) as [text|]; [|constructor].
  apply within_bind; [|intros a; constructor].
  constructor; [|intros r; constructor].
  intros k. destruct ttl as [t|]; [destruct (t =? 0)%Z|]; simpl;
    intros E; injection E as <-; exact HK.
Qed.

Lemma within_delete {K : string -> Prop} key :
  K key -> writes_within K (Cache.delete key).
Proof.
  intros HK. unfold Cache.delete.
  apply within_try_catch; [|intros e; constructor].
  apply within_bind; [|intros a; constructor].
  constructor; [|intros r; constructor].
  simpl. intros k E. injection E as <-. exact HK.
Qed.

Ltac within :=
  repeat first
    [ apply within_get
    | apply within_find
    | apply within_set; solve [auto]
    | apply within_delete; solve [auto]
    | apply within_bind; [| intros ?]
    | apply within_try_catch; [| intros ?]
    | apply within_Done
    | match goal with
      | |- writes_within _ (if ?b then _ else _) => destruct b
      | |- writes_within _ (match ?x with _ => _ end) => destruct x
      end ].

Section Further.
Context {platform : Platform}.
Variable env : process_env.

(** ** The token endpoint *)

Lemma code_request_dec body : code_request env body \/ ~ code_request env body.
Proof.
  unfold code_request.
  destruct (strict_eq (prop body "grant_type") (Str "authorization_code")) eqn:Eg.
  - apply strict_eq_Str in Eg.
    destruct (Token.bad_client env (prop body "client_id") (prop body "client_secret"));
      [right; intros (_ & H & _); discriminate|].
    destruct (truthy (prop body "code"));
      [left; auto | right; intros (_ & _ & H); discriminate].
  - right. intros (H & _). apply strict_eq_Str in H. congruence.
Qed.

Lemma refresh_request_dec body :
  refresh_request env body \/ ~ refresh_request env body.
Proof.
  unfold refresh_request.
  destruct (strict_eq (prop body "grant_type") (Str "refresh_token")) eqn:Eg.
  - apply strict_eq_Str in Eg.
    destruct (Token.bad_client env (prop body "client_id") (prop body "client_secret"));
      [right; intros (_ & H & _); discriminate|].
    destruct (truthy (prop body "refresh_token"));
      [left; auto | right; intros (_ & _ & H); discriminate].
  - right. intros (H & _). apply strict_eq_Str in H. congruence.
Qed.

Lemma POST_body rnd body :
  body <> Null -> body <> Undefined ->
  Token.POST env rnd (Some body) =
  try_catch
    (if strict_eq (prop body "grant_type") (Str "refresh_token")
     then Token.refresh_grant env rnd body
     else Token.code_grant env rnd body)
    (fun _ => ret (server_error "An error occurred during token exchange")).
Proof. intros H1 H2. destruct body; try congruence; reflexivity. Qed.

(** A request that is neither grant's is answered at once. *)
Lemma run_POST_refused rnd request_json o n w :
  (forall body, request_json = Some body ->
                ~ code_request env body /\ ~ refresh_request env body) ->
  exists b status,
    run (Token.POST env rnd request_json) o n w
    = {| returned := Ok (NextResponse_json b status); final := w; next := n |} /\
    (status = 400 \/ status = 401 \/ status = 500)%N.
Proof.
  intros H. destruct request_json as [body|].
  2: { eexists _, _. split; [reflexivity | auto]. }
  destruct (H body eq_refl) as [Hc Hr].
  assert (Hcases : body = Null \/ body = Undefined \/ (body <> Null /\ body <> Undefined))
    by (destruct body; auto; right; right; split; discriminate).
  destruct Hcases as [->| [->| [H1 H2]]].
  1,2: eexists _, _; split; [reflexivity | auto].
  rewrite (POST_body rnd body H1 H2).
  destruct (strict_eq (prop body "grant_type") (Str "refresh_token")) eqn:Eg.
  - apply strict_eq_Str in Eg. unfold Token.refresh_grant.
    destruct (truthy (prop body "refresh_token")) eqn:Et; simpl negb; cbv iota.
    2: { eexists _, _. split; [reflexivity | auto]. }
    destruct (Token.bad_client env (prop body "client_id") (prop body "client_secret"))
      eqn:Eb.
    1: { eexists _, _. split; [reflexivity | auto]. }
    exfalso. apply Hr. repeat split; assumption.
  - unfold Token.code_grant.
    destruct (strict_eq (prop body "grant_type") (Str "authorization_code")) eqn:Ea;
      simpl negb; cbv iota.
    2: { eexists _, _. split; [reflexivity | auto]. }
    apply strict_eq_Str in Ea.
    destruct (Token.bad_client env (prop body "client_id") (prop body "client_secret"))
      eqn:Eb.
    1: { eexists _, _. split; [reflexivity | auto]. }
    destruct (truthy (prop body "code")) eqn:Et; simpl negb; cbv iota.
    2: { eexists _, _. split; [reflexivity | auto]. }
    exfalso. apply Hc. repeat split; assumption.
Qed.

(** X10. A request that does not pass the checks made before the store
    is read (no JSON body, a grant type that is not supported, wrong
    client credentials, no code or no refresh token) is answered with
    400, 401 or 500 before any call to the store or the database: the
    world is left as it was. *)
Theorem token_refused_before_any_call
    (rnd : list ascii) (request_json : option value) (o : nat -> outcome)
    (n : nat) (w : world) :
  (forall body, request_json = Some body ->
                ~ code_request env body /\ ~ refresh_request env body) ->
  exists b status,
    run (Token.POST env rnd request_json) o n w
    = {| returned := Ok (NextResponse_json b status); final := w; next := n |} /\
    (status = 400 \/ status = 401 \/ status = 500)%N.
Proof. apply run_POST_refused. Qed.

Lemma findUnique_deleted id key o d w :
  findUnique id (deleted key o (tick d w)) = findUnique id w.
Proof.
  apply findUnique_kept; unfold deleted; destruct o; reflexivity.
Qed.

Lemma redis_deleted key lat w :
  redis (deleted key (Replies lat) w) = delete key (redis w).
Proof. reflexivity. Qed.

Lemma now_deleted key lat w :
  now (deleted key (Replies lat) w) = (now w + N.min lat 1000)%N.
Proof. reflexivity. Qed.

(** The code grant once the code has been read and its redirect URI
    compared. *)
Lemma run_POST_code_checked rnd body codeData o n w :
  code_request env body ->
  returned (run (Cache.get (code_key (prop body "code"))) o n w) = Ok codeData ->
  truthy codeData = true ->
  strict_eq (prop body "redirect_uri") (prop codeData "redirectUri") = true ->
  exists lat,
    o n = Replies lat /\ (lat < 100)%N /\
    run (Token.POST env rnd (Some body)) o n w =
    or_internal_error
      (run (issue_for_code rnd codeData (prop body "client_id")) o (S (S n))
         (deleted (code_key (prop body "code")) (o (S n)) (tick lat w))).
Proof.
  intros Hreq Hread Htruthy Hsame.
  rewrite run_get in Hread. cbn [returned] in Hread. injection Hread as Hread.
  destruct (read_truthy (code_key (prop body "code")) (o n) w) as (lat & Ho & Hlat).
  { rewrite Hread. exact Htruthy. }
  exists lat. split; [exact Ho|]. split; [exact Hlat|].
  rewrite (run_POST_code env rnd body o n w Hreq).
  rewrite (run_code_grant env rnd body o n w Hreq). cbv zeta.
  rewrite Hread, Htruthy, Hsame. cbn [negb].
  rewrite Ho. unfold waited. rewrite N.min_l by lia. reflexivity.
Qed.

(** X11. The exchange of a code whose stored payload names the
    redirect URI presented and a user the database finds with its
    tenant answers 200 with an access token signed from the row the
    database holds now (licensing included), [Bearer], 86400 seconds,
    the hex of the bytes drawn as refresh token and the [scope] of the
    payload, after four calls; when the delete and the write are
    answered, the store has lost the code and gained the refresh token,
    which expires 30 days after the write was issued. *)
Theorem code_exchange_signs_current_row
    (rnd : list ascii) (body codeData : value) (o : nat -> outcome) (n : nat)
    (w : world) (lat2 : N) (user : Db.user) (t : Db.tenant_row) :
  code_request env body ->
  returned (run (Cache.get (code_key (prop body "code"))) o n w) = Ok codeData ->
  truthy codeData = true ->
  strict_eq (prop body "redirect_uri") (prop codeData "redirectUri") = true ->
  o (S (S n)) = Replies lat2 ->
  finds (prop codeData "userId") w user t ->
  let r := run (Token.POST env rnd (Some body)) o n w in
  returned r
  = Ok (NextResponse_json
          (Obj [("access_token", Str (access_token user t));
                ("token_type", Str "Bearer");
                ("expires_in", Num 86400);
                ("refresh_token", Str (toString_hex rnd));
                ("scope", prop codeData "scope")]) 200) /\
  next r = n + 4 /\
  forall lat lat1 lat3,
    o n = Replies lat -> o (S n) = Replies lat1 -> o (S (S (S n))) = Replies lat3 ->
    redis (final r)
    = <["oauth:refresh:" +:+ toString_hex rnd :=
          {| Redis.data := refresh_text user (prop body "client_id");
             Redis.expires_at :=
               Some (now w + lat + N.min lat1 1000 + lat2 + 2592000000)%N |}]>
        (delete (code_key (prop body "code")) (redis w)).
Proof.
  intros Hreq Hread Htruthy Hsame Ho2 [Hfind Htenant] r.
  destruct (run_POST_code_checked rnd body codeData o n w Hreq Hread Htruthy Hsame)
    as (lat & Ho & Hlat & Hrun).
  subst r. rewrite Hrun, run_issue_for_code_cases, Ho2, findUnique_deleted.
  rewrite Hfind, Htenant. unfold or_internal_error. cbn [returned final next].
  split; [reflexivity|]. split; [lia|].
  intros lat' lat1 lat3 Ho' Ho1 Ho3.
  rewrite Ho in Ho'. injection Ho' as <-.
  rewrite Ho1, Ho3. unfold written, deleted, tick, set_redis. cbn [redis now].
  unfold commandTimeout. reflexivity.
Qed.

(** X12. A code is spent even when no token is issued: once the code
    has been read and its redirect URI matched, the delete is issued
    before the lookup, so that when the database does not answer, finds
    no user, or finds a user without a tenant, the response is
    [invalid_grant] "User not found" or the 500, the code is gone from
    the store and nothing else was written. *)
Theorem code_spent_without_tokens
    (rnd : list ascii) (body codeData : value) (o : nat -> outcome) (n : nat)
    (w : world) (lat1 : N) :
  code_request env body ->
  returned (run (Cache.get (code_key (prop body "code"))) o n w) = Ok codeData ->
  truthy codeData = true ->
  strict_eq (prop body "redirect_uri") (prop codeData "redirectUri") = true ->
  o (S n) = Replies lat1 ->
  o (S (S n)) = Fails \/
  (forall user t, ~ finds (prop codeData "userId") w user t) ->
  let r := run (Token.POST env rnd (Some body)) o n w in
  (returned r = Ok user_not_found \/ returned r = Ok internal_error) /\
  (returned r = Ok user_not_found <->
   exists lat2, o (S (S n)) = Replies lat2 /\
                findUnique (prop codeData "userId") w = Ok None) /\
  redis (final r) = delete (code_key (prop body "code")) (redis w) /\
  next r = n + 3.
Proof.
  intros Hreq Hread Htruthy Hsame Ho1 Hfail r.
  destruct (run_POST_code_checked rnd body codeData o n w Hreq Hread Htruthy Hsame)
    as (lat & Ho & Hlat & Hrun).
  subst r. rewrite Hrun, run_issue_for_code_cases, findUnique_deleted, Ho1.
  unfold or_internal_error.
  destruct (o (S (S n))) as [lat2|] eqn:Ho2.
  - destruct Hfail as [Hfail|Hfail]; [discriminate|].
    destruct (findUnique (prop codeData "userId") w) as [[user|]|e] eqn:Hf.
    + destruct (Db.tenant user) as [t|] eqn:Ht.
      * exfalso. apply (Hfail user t). split; assumption.
      * cbn [returned final next]. split; [right; reflexivity|].
        split; [|split; [reflexivity | lia]].
        split; [discriminate | intros (? & _ & ?); discriminate].
    + cbn [returned final next]. split; [left; reflexivity|].
      split; [|split; [reflexivity | lia]].
      split; [intros _; exists lat2; split; reflexivity | reflexivity].
    + cbn [returned final next]. split; [right; reflexivity|].
      split; [|split; [reflexivity | lia]].
      split; [discriminate | intros (? & _ & ?); discriminate].
  - cbn [returned final next]. split; [right; reflexivity|].
    split; [|split; [reflexivity | lia]].
    split; [discriminate | intros (? & ? & _); discriminate].
Qed.

(** X13. A 200 of the token endpoint is never given on the request
    alone: the request passed the checks of one of the two grants, the
    store answered the read within the 100 ms with a payload that is not
    falsy (whose [redirectUri], for a code, is the redirect URI
    presented), the database then found the user the payload names,
    with its tenant, and the body is the token response signed from
    that row. *)
Theorem token_issued_only_after_lookup
    (rnd : list ascii) (request_json : option value) (o : nat -> outcome)
    (n : nat) (w : world) (b : value) :
  returned (run (Token.POST env rnd request_json) o n w)
  = Ok (NextResponse_json b 200) ->
  exists body payload user t,
    request_json = Some body /\
    truthy payload = true /\
    finds (prop payload "userId") w user t /\
    ((code_request env body /\
      returned (run (Cache.get (code_key (prop body "code"))) o n w) = Ok payload /\
      strict_eq (prop body "redirect_uri") (prop payload "redirectUri") = true /\
      token_response (access_token user t) (toString_hex rnd)
        (Some (prop payload "scope")) = NextResponse_json b 200) \/
     (refresh_request env body /\
      returned (run (Cache.get (refresh_key (prop body "refresh_token"))) o n w)
      = Ok payload /\
      token_response (access_token user t) (toString_hex rnd) None
      = NextResponse_json b 200)).
Proof.
  intros H.
  destruct request_json as [body|].
  2: { destruct (run_POST_refused rnd None o n w) as (b' & st & Hrun & Hst);
         [intros ? ?; discriminate|].
       rewrite Hrun in H. cbn [returned] in H. injection H as _ Hs. lia. }
  destruct (code_request_dec body) as [Hc|Hc].
  - rewrite (run_POST_code env rnd body o n w Hc) in H.
    rewrite (run_code_grant env rnd body o n w Hc) in H. cbv zeta in H.
    destruct (truthy (read (code_key (prop body "code")) (o n) w)) eqn:Ht;
      cbn [negb] in H; [|discriminate].
    destruct (strict_eq (prop body "redirect_uri")
                (prop (read (code_key (prop body "code")) (o n) w) "redirectUri"))
      eqn:Hs; cbn [negb] in H; [|discriminate].
    rewrite run_issue_for_code_cases, findUnique_deleted in H.
    unfold or_internal_error in H.
    destruct (o (S (S n))) as [lat2|]; [|discriminate].
    destruct (findUnique
                (prop (read (code_key (prop body "code")) (o n) w) "userId") w)
      as [[user|]|e] eqn:Hf; [|discriminate|discriminate].
    destruct (Db.tenant user) as [t|] eqn:Hten; [|discriminate].
    cbn [returned] in H. injection H as H.
    exists body, (read (code_key (prop body "code")) (o n) w), user, t.
    split; [reflexivity|]. split; [exact Ht|]. split; [split; assumption|].
    left. split; [exact Hc|]. split; [rewrite run_get; reflexivity|].
    split; [exact Hs | rewrite <- H; reflexivity].
  - destruct (refresh_request_dec body) as [Hr|Hr].
    + rewrite (run_POST_refresh env rnd body o n w Hr) in H.
      rewrite (run_refresh_grant env rnd body o n w Hr) in H. cbv zeta in H.
      destruct (truthy (read (refresh_key (prop body "refresh_token")) (o n) w))
        eqn:Ht; cbn [negb] in H; [|discriminate].
      rewrite run_rotate_cases in H.
      rewrite (findUnique_kept _ w (tick (waited 100 (o n)) w)) in H
        by reflexivity.
      unfold or_internal_error in H.
      destruct (o (S n)) as [lat1|]; [|discriminate].
      destruct (findUnique
                  (prop (read (refresh_key (prop body "refresh_token")) (o n) w)
                     "userId") w)
        as [[user|]|e] eqn:Hf; [|discriminate|discriminate].
      destruct (Db.tenant user) as [t|] eqn:Hten; [|discriminate].
      cbn [returned] in H. injection H as H.
      exists body, (read (refresh_key (prop body "refresh_token")) (o n) w), user, t.
      split; [reflexivity|]. split; [exact Ht|]. split; [split; assumption|].
      right. split; [exact Hr|].
      split; [rewrite run_get; reflexivity | rewrite <- H; reflexivity].
    + destruct (run_POST_refused rnd (Some body) o n w) as (b' & st & Hrun & Hst).
      { intros body' E. injection E as <-. split; assumption. }
      rewrite Hrun in H. cbn [returned] in H. injection H as _ Hs. lia.
Qed.

Lemma POST_within rnd body :
  writes_within
    (fun k => k = "oauth:code:" +:+ to_string (prop body "code") \/
              k = "oauth:refresh:" +:+ to_string (prop body "refresh_token") \/
              k = "oauth:refresh:" +:+ toString_hex rnd)
    (Token.POST env rnd (Some body)).
Proof.
  assert (Hcases : body = Null \/ body = Undefined \/ (body <> Null /\ body <> Undefined))
    by (destruct body; auto; right; right; split; discriminate).
  destruct Hcases as [->| [->| [H1 H2]]].
  1,2: simpl; constructor.
  rewrite (POST_body rnd body H1 H2).
  unfold Token.refresh_grant, Token.code_grant, Token.sign_for. cbv zeta.
  within.
Qed.

(** X14. Whatever the backends answer, the token endpoint leaves the
    users and the tenants as they were, and every key of the store
    other than the code presented, the refresh token presented and the
    refresh token it mints.  The request is any whose [code] and
    [refresh_token] are written in full by the template literals that
    make the keys: strings, and values in which every number is a safe
    integer and no object has a [toString] of its own. *)
Theorem token_touches_only_its_keys
    (rnd : list ascii) (request_json : option value) (o : nat -> outcome)
    (n : nat) (w : world) (k : string) :
  (forall body, request_json = Some body ->
     written_in_full (prop body "code") /\
     written_in_full (prop body "refresh_token") /\
     k <> code_key (prop body "code") /\
     k <> refresh_key (prop body "refresh_token")) ->
  k <> "oauth:refresh:" +:+ toString_hex rnd ->
  let w' := final (run (Token.POST env rnd request_json) o n w) in
  redis w' !! k = redis w !! k /\ users w' = users w /\ tenants w' = tenants w.
Proof.
  intros Hk Hnew w'. subst w'.
  destruct request_json as [body|]; [|simpl; auto].
  destruct (run_kept _ _ (POST_within rnd body) o n w) as (Hu & Ht & _ & Hr).
  split; [|split; assumption].
  apply Hr. destruct (Hk body eq_refl) as (_ & _ & H1 & H2).
  intros [E|[E|E]]; [exact (H1 E) | exact (H2 E) | exact (Hnew E)].
Qed.

(** X15. A refresh signs from the row the database holds now: when
    the payload stored under the refresh token names a user the database
    finds with its tenant, the response is a 200 with an access token
    signed from that row, [Bearer], 86400 seconds and the hex of the
    bytes drawn as new refresh token, and no [scope]; when the store
    answers, the old token is deleted and the new one written with its
    30 days. *)
Theorem refresh_signs_current_row
    (rnd : list ascii) (body refreshData : value) (o : nat -> outcome) (n : nat)
    (w : world) (lat1 : N) (user : Db.user) (t : Db.tenant_row) :
  refresh_request env body ->
  returned (run (Cache.get (refresh_key (prop body "refresh_token"))) o n w)
  = Ok refreshData ->
  truthy refreshData = true ->
  o (S n) = Replies lat1 ->
  finds (prop refreshData "userId") w user t ->
  let r := run (Token.POST env rnd (Some body)) o n w in
  returned r
  = Ok (NextResponse_json
          (Obj [("access_token", Str (access_token user t));
                ("token_type", Str "Bearer");
                ("expires_in", Num 86400);
                ("refresh_token", Str (toString_hex rnd))]) 200) /\
  next r = n + 4 /\
  forall lat lat2 lat3,
    o n = Replies lat -> o (S (S n)) = Replies lat2 ->
    o (S (S (S n))) = Replies lat3 ->
    redis (final r)
    = <["oauth:refresh:" +:+ toString_hex rnd :=
          {| Redis.data := refresh_text user (prop body "client_id");
             Redis.expires_at :=
               Some (now w + lat + lat1 + N.min lat2 1000 + 2592000000)%N |}]>
        (delete (refresh_key (prop body "refresh_token")) (redis w)).
Proof.
  intros Hreq Hread Htruthy Ho1 [Hfind Htenant] r.
  rewrite run_get in Hread. cbn [returned] in Hread. injection Hread as Hread.
  destruct (read_truthy (refresh_key (prop body "refresh_token")) (o n) w)
    as (lat & Ho & Hlat).
  { rewrite Hread. exact Htruthy. }
  subst r.
  rewrite (run_POST_refresh env rnd body o n w Hreq).
  rewrite (run_refresh_grant env rnd body o n w Hreq). cbv zeta.
  rewrite Hread, Htruthy. cbn [negb].
  rewrite run_rotate_cases, Ho1.
  rewrite (findUnique_kept _ w (tick (waited 100 (o n)) w)) by reflexivity.
  rewrite Hfind, Htenant. unfold or_internal_error. cbn [returned final next].
  split; [reflexivity|]. split; [lia|].
  intros lat' lat2 lat3 Ho' Ho2 Ho3.
  rewrite Ho in Ho'. injection Ho' as <-.
  rewrite Ho, Ho2, Ho3. unfold waited. rewrite N.min_l by lia.
  unfold written, deleted, tick, set_redis. cbn [redis now].
  unfold commandTimeout. reflexivity.
Qed.

(** X16. The access token and the userinfo response agree: for a user
    found with its tenant, the claims signed into the access token name
    the user, the tenant, the e-mail address, the role and the licensing
    that the userinfo response gives for the same row. *)
Theorem token_claims_agree_with_userinfo
    (id : value) (w : world) (user : Db.user) (t : Db.tenant_row) :
  finds id w user t ->
  exists signed,
    access_token user t = signToken signed /\
    let body := UserInfo.userinfo_body user in
    prop body "sub" = Str (userId signed) /\
    prop body "tenant_id" = Str (c_tenantId signed) /\
    prop body "email" = Str (c_email signed) /\
    prop body "role" = Str (c_role signed) /\
    prop body "licensed_modules" = Arr (map Str (c_licensedModules signed)) /\
    prop body "subscription_tier" = Str (c_subscriptionTier signed).
Proof.
  intros [_ Ht]. eexists. split; [reflexivity|].
  unfold UserInfo.userinfo_body. rewrite Ht. cbn. repeat split; reflexivity.
Qed.

(** ** The authorize endpoint *)

(** Either the request carries a session the codec accepts, or it is
    answered at once. *)
Lemma run_GET_early rnd req o n w :
  (exists redirectUri token payload,
     strict_eq (nullable (Authorize.client_id req))
       (env_value (OAUTH_CLIENT_ID env)) = true /\
     Authorize.response_type req = Some "code" /\
     Authorize.nonempty (Authorize.redirect_uri req) = Some redirectUri /\
     Authorize.nonempty (Authorize.cookie_payaid_token req) = Some token /\
     verifyToken token = Some payload) \/
  (exists r,
     run (Authorize.GET env rnd req) o n w
     = {| returned := Ok r; final := w; next := n |} /\
     ((~ parameters_accepted env req /\ exists b, r = NextResponse_json b 400) \/
      (parameters_accepted env req /\ r = login_redirect req))).
Proof.
  unfold Authorize.GET, parameters_accepted. cbv zeta.
  destruct (strict_eq (nullable (Authorize.client_id req))
              (env_value (OAUTH_CLIENT_ID env))) eqn:Ec; cbn [negb].
  2: { right. eexists. split; [reflexivity|]. left.
       split; [intros (H & _); discriminate | eexists; reflexivity]. }
  destruct (strict_eq (nullable (Authorize.response_type req)) (Str "code")) eqn:Et;
    cbn [negb].
  2: { right. eexists. split; [reflexivity|]. left.
       split; [|eexists; reflexivity].
       intros (_ & H & _). rewrite H in Et. simpl in Et. discriminate. }
  assert (Ht : Authorize.response_type req = Some "code").
  { apply strict_eq_Str in Et. destruct (Authorize.response_type req);
      simpl in Et; congruence. }
  destruct (Authorize.nonempty (Authorize.redirect_uri req)) as [redirectUri|] eqn:Eu.
  2: { right. eexists. split; [reflexivity|]. left.
       split; [intros (_ & _ & H); congruence | eexists; reflexivity]. }
  assert (Hlogin :
    run (try_catch (Authorize.redirect_login req)
           (fun _ => ret (server_error "An error occurred during authorization")))
      o n w
    = {| returned := Ok (login_redirect req); final := w; next := n |}).
  { rewrite run_try_catch, run_redirect_login. unfold login_redirect.
    destruct (new_URL_login (Authorize.url req)); reflexivity. }
  destruct (Authorize.nonempty (Authorize.cookie_payaid_token req)) as [token|] eqn:Ek.
  2: { right. eexists. split; [exact Hlogin|]. right.
       repeat split; congruence. }
  destruct (verifyToken token) as [payload|] eqn:Ev.
  - left. exists redirectUri, token, payload. repeat split; assumption.
  - right. eexists. split; [exact Hlogin|]. right. repeat split; congruence.
Qed.

(** X17. Without a session cookie the codec accepts, the authorize
    endpoint calls neither the store nor the database and mints
    nothing: when [client_id], [response_type] and [redirect_uri] are
    accepted it answers with the redirect to the login page that
    carries the request URL, and when one of them is not it answers
    400. *)
Theorem authorize_without_session
    (rnd : list ascii) (req : Authorize.request) (o : nat -> outcome) (n : nat)
    (w : world) :
  (forall token,
     Authorize.nonempty (Authorize.cookie_payaid_token req) = Some token ->
     verifyToken token = None) ->
  exists r,
    run (Authorize.GET env rnd req) o n w
    = {| returned := Ok r; final := w; next := n |} /\
    (parameters_accepted env req -> r = login_redirect req) /\
    (~ parameters_accepted env req -> exists b, r = NextResponse_json b 400).
Proof.
  intros Hno.
  destruct (run_GET_early rnd req o n w)
    as [(redirectUri & token & payload & _ & _ & _ & Hk & Hv)
       | (r & Hrun & [[Hacc Hr] | [Hacc Hr]])].
  - rewrite (Hno token Hk) in Hv. discriminate.
  - exists r. split; [exact Hrun|]. split; [intros H; contradiction|].
    intros _. exact Hr.
  - exists r. split; [exact Hrun|]. split; [intros _; exact Hr|].
    intros H. contradiction.
Qed.

Lemma GET_within rnd req :
  writes_within (fun k => k = "oauth:code:" +:+ toString_hex rnd)
    (Authorize.GET env rnd req).
Proof.
  unfold Authorize.GET, Authorize.redirect_login. cbv zeta. within.
Qed.

(** X18. The authorize endpoint writes for known users only: it leaves
    the users and the tenants as they were, and when a key of the store
    has changed, that key is the code minted, the request passed the
    parameter checks with the session of a user the database found, and
    the database had answered. *)
Theorem authorize_stores_for_known_users_only
    (rnd : list ascii) (req : Authorize.request) (o : nat -> outcome) (n : nat)
    (w : world) (k : string) :
  let w' := final (run (Authorize.GET env rnd req) o n w) in
  users w' = users w /\ tenants w' = tenants w /\
  (redis w' !! k <> redis w !! k ->
   k = "oauth:code:" +:+ toString_hex rnd /\
   (exists lat, o n = Replies lat) /\
   exists redirectUri user, logged_in env req w redirectUri user).
Proof.
  intros w'. subst w'.
  destruct (run_kept _ _ (GET_within rnd req) o n w) as (Hu & Ht & _ & Hr).
  split; [exact Hu|]. split; [exact Ht|]. intros Hch.
  split.
  { destruct (decide (k = "oauth:code:" +:+ toString_hex rnd)) as [E|E];
      [exact E|]. exfalso. apply Hch. apply Hr. exact E. }
  destruct (run_GET_early rnd req o n w)
    as [(redirectUri & token & payload & Hc & Hty & Huri & Hk & Hv) | (r & Hrun & _)].
  2: { exfalso. apply Hch. rewrite Hrun. reflexivity. }
  destruct (o n) as [lat|] eqn:Ho.
  2: { exfalso. apply Hch.
       rewrite (run_GET_lookup_fails env rnd req o n w redirectUri token payload
                  Hc Hty Huri Hk Hv (or_introl Ho)).
       rewrite Ho. reflexivity. }
  split; [exists lat; reflexivity|].
  destruct (findUnique (Str (userId payload)) w) as [[user|]|e] eqn:Hf.
  - exists redirectUri, user. constructor; try assumption.
    exists token, payload. repeat split; assumption.
  - exfalso. apply Hch.
    rewrite (run_GET_lookup_fails env rnd req o n w redirectUri token payload
               Hc Hty Huri Hk Hv (or_intror Hf)).
    rewrite Ho. reflexivity.
  - simpl in Hf. discriminate.
Qed.

(** X19. A redirect URI that does not parse is found out after the code
    has been stored: for a logged-in user the code is written, with its
    300 seconds, and the response is the redirect to the login page,
    which does not carry it. *)
Theorem authorize_stores_undeliverable_code
    (rnd : list ascii) (req : Authorize.request) (o : nat -> outcome) (n : nat)
    (w : world) (redirectUri : string) (user : Db.user) (lat : N) :
  logged_in env req w redirectUri user ->
  o n = Replies lat ->
  new_URL redirectUri = None ->
  let r := run (Authorize.GET env rnd req) o n w in
  returned r = Ok (login_redirect req) /\
  next r = n + 2 /\
  forall lat1, o (S n) = Replies lat1 ->
    redis (final r) !! ("oauth:code:" +:+ toString_hex rnd)
    = Some {| Redis.data := code_text req redirectUri user;
              Redis.expires_at := Some (now w + lat + 300000)%N |}.
Proof.
  intros [Hc Hty Huri (token & payload & Hk & Hv & Hf)] Ho Hurl r. subst r.
  rewrite (GET_session env rnd req redirectUri token payload Hc Hty Huri Hk Hv).
  unfold mint.
  rewrite run_try_catch, run_try_catch, run_bind, run_findUnique, Ho.
  cbn [returned final next]. rewrite Hf.
  rewrite run_bind.
  rewrite (run_set _ _ _ 300 _ _ _ (stringify_code_payload req redirectUri user))
    by (unfold Redis.max_seconds; lia).
  cbn [returned final next]. rewrite Hurl.
  unfold throw. cbn [run returned final next]. rewrite run_redirect_login.
  unfold login_redirect.
  destruct (new_URL_login (Authorize.url req)) as [loginUrl|];
    cbn [returned final next run ret].
  - split; [reflexivity|]. split; [lia|].
    intros lat1 Ho1. rewrite Ho1. unfold written. cbn [redis tick set_redis now].
    rewrite lookup_insert_eq. reflexivity.
  - split; [reflexivity|]. split; [lia|].
    intros lat1 Ho1. rewrite Ho1. unfold written. cbn [redis tick set_redis now].
    rewrite lookup_insert_eq. reflexivity.
Qed.

Lemma getAll_set_same ps k v :
  searchParams_getAll (searchParams_set ps k v) k = [v].
Proof.
  unfold searchParams_getAll.
  induction ps as [|[k' v'] ps IH]; simpl.
  - rewrite String.eqb_refl. reflexivity.
  - destruct (String.eqb k k') eqn:E; simpl.
    + rewrite String.eqb_refl. simpl. f_equal.
      clear IH. induction ps as [|[k2 v2] ps IH]; [reflexivity|].
      rewrite filter_cons. cbn [fst].
      destruct (String.eqb k k2) eqn:E2; simpl; [exact IH|].
      rewrite E2. exact IH.
    + rewrite E. exact IH.
Qed.

Lemma getAll_set_other ps k v k' :
  k' <> k ->
  searchParams_getAll (searchParams_set ps k v) k' = searchParams_getAll ps k'.
Proof.
  intros Hk. apply String.eqb_neq in Hk. unfold searchParams_getAll.
  induction ps as [|[k2 v2] ps IH]; simpl.
  - rewrite Hk. reflexivity.
  - destruct (String.eqb k k2) eqn:E; simpl.
    + apply String.eqb_eq in E. subst k2. rewrite Hk. simpl.
      clear IH. induction ps as [|[k3 v3] ps IH]; [reflexivity|].
      rewrite filter_cons. cbn [fst].
      destruct (String.eqb k k3) eqn:E3; simpl.
      * apply String.eqb_eq in E3. subst k3. rewrite Hk. exact IH.
      * destruct (String.eqb k' k3); simpl; rewrite IH; reflexivity.
    + destruct (String.eqb k' k2); simpl; rewrite IH; reflexivity.
Qed.

(** X20. The redirect that carries the code goes to the redirect URI
    as parsed, with exactly one [code], the one minted, whatever [code]
    the URI carried; with exactly one [state], the one of the request,
    when the request has one, and with the [state] values of the URI
    otherwise; every other parameter of the URI is kept. *)
Theorem authorize_redirect_parameters
    (rnd : list ascii) (req : Authorize.request) (o : nat -> outcome) (n : nat)
    (w : world) (redirectUri : string) (user : Db.user) (lat : N) (u : URL) :
  logged_in env req w redirectUri user ->
  o n = Replies lat ->
  new_URL redirectUri = Some u ->
  exists target,
    returned (run (Authorize.GET env rnd req) o n w)
    = Ok (NextResponse_redirect target) /\
    base target = base u /\
    searchParams_getAll (searchParams target) "code" = [toString_hex rnd] /\
    searchParams_getAll (searchParams target) "state"
    = match Authorize.nonempty (Authorize.state req) with
      | Some s => [s]
      | None => searchParams_getAll (searchParams u) "state"
      end /\
    forall k, k <> "code" -> k <> "state" ->
      searchParams_getAll (searchParams target) k
      = searchParams_getAll (searchParams u) k.
Proof.
  intros Hin Ho Hurl.
  rewrite (run_GET_logged_in env rnd req o n w redirectUri user lat u Hin Ho Hurl).
  cbn [returned]. unfold code_redirect.
  destruct (Authorize.nonempty (Authorize.state req)) as [s|];
    eexists; (split; [reflexivity|]); cbn [URL_set base searchParams].
  - split; [reflexivity|].
    split; [rewrite getAll_set_other by discriminate; apply getAll_set_same|].
    split; [apply getAll_set_same|].
    intros k H1 H2. rewrite !getAll_set_other by assumption. reflexivity.
  - split; [reflexivity|].
    split; [apply getAll_set_same|].
    split; [apply getAll_set_other; discriminate|].
    intros k H1 H2. rewrite getAll_set_other by assumption. reflexivity.
Qed.

(** ** The userinfo endpoint *)

Lemma run_UserInfo_GET authorization o n w :
  run (UserInfo.GET authorization) o n w =
  match authorization with
  | Some authHeader =>
      if negb (String.eqb authHeader "") && String.prefix "Bearer " authHeader
      then
        match verifyToken
                (String.substring 7 (String.length authHeader - 7) authHeader) with
        | None =>
            {| returned := Ok (oauth_error "invalid_token" "Invalid or expired token" 401);
               final := w; next := n |}
        | Some payload =>
            match o n with
            | Fails =>
                {| returned :=
                     Ok (oauth_error "invalid_token" "Invalid or expired token" 401);
                   final := w; next := S n |}
            | Replies lat =>
                {| returned :=
                     Ok match findUnique (Str (userId payload)) w with
                        | Ok (Some user) =>
                            NextResponse_json (UserInfo.userinfo_body user) 200
                        | Ok None => oauth_error "user_not_found" "User not found" 404
                        | Throw _ =>
                            oauth_error "invalid_token" "Invalid or expired token" 401
                        end;
                   final := tick lat w; next := S n |}
            end
        end
      else {| returned := Ok UserInfo.unauthorized; final := w; next := n |}
  | None => {| returned := Ok UserInfo.unauthorized; final := w; next := n |}
  end.
Proof.
  unfold UserInfo.GET. destruct authorization as [authHeader|]; [|reflexivity].
  destruct (negb (String.eqb authHeader "") && String.prefix "Bearer " authHeader);
    [|reflexivity].
  destruct (verifyToken _) as [payload|]; [|reflexivity].
  rewrite run_try_catch, run_try_catch, run_bind, run_findUnique.
  destruct (o n) as [lat|]; [|reflexivity].
  cbn [returned final next].
  destruct (findUnique (Str (userId payload)) w) as [[user|]|e]; reflexivity.
Qed.

(** X21. The userinfo endpoint only reads, and never answers 500:
    whatever the header and whatever the database does, the store, the
    users and the tenants are as they were, at most one call is made,
    and the response is a 200, a 401 or a 404; a database that does not
    answer is reported as an invalid token, 401. *)
Theorem userinfo_reads_only_never_500
    (authorization : option string) (o : nat -> outcome) (n : nat) (w : world) :
  let r := run (UserInfo.GET authorization) o n w in
  redis (final r) = redis w /\ users (final r) = users w /\
  tenants (final r) = tenants w /\ next r <= S n /\
  exists b status,
    returned r = Ok (NextResponse_json b status) /\
    (status = 200 \/ status = 401 \/ status = 404)%N /\
    (o n = Fails -> status = 401%N).
Proof.
  intros r. subst r. rewrite run_UserInfo_GET.
  destruct authorization as [authHeader|].
  2: { cbn. repeat split; try lia. eexists _, _. split; [reflexivity|]. auto. }
  destruct (negb (String.eqb authHeader "") && String.prefix "Bearer " authHeader).
  2: { cbn. repeat split; try lia. eexists _, _. split; [reflexivity|]. auto. }
  destruct (verifyToken _) as [payload|].
  2: { cbn. repeat split; try lia. eexists _, _. split; [reflexivity|]. auto. }
  destruct (o n) as [lat|].
  2: { cbn. repeat split; try lia. eexists _, _. split; [reflexivity|]. auto. }
  cbn [returned final next tick redis users tenants].
  repeat split; try lia.
  destruct (findUnique (Str (userId payload)) w) as [[user|]|e];
    eexists _, _; (split; [reflexivity|]); split; auto; discriminate.
Qed.

(** X22. The userinfo endpoint answers 200 only to a [Bearer] header
    whose token the codec accepts, after the database has answered with
    the user the token names; the body is made of that user's row and
    tenant. *)
Theorem userinfo_200_only_for_known_user
    (authorization : option string) (o : nat -> outcome) (n : nat) (w : world)
    (b : value) :
  returned (run (UserInfo.GET authorization) o n w) = Ok (NextResponse_json b 200) ->
  exists authHeader payload user lat,
    authorization = Some authHeader /\
    String.prefix "Bearer " authHeader = true /\
    verifyToken (String.substring 7 (String.length authHeader - 7) authHeader)
    = Some payload /\
    o n = Replies lat /\
    findUnique (Str (userId payload)) w = Ok (Some user) /\
    b = UserInfo.userinfo_body user.
Proof.
  rewrite run_UserInfo_GET. intros H.
  destruct authorization as [authHeader|]; [|discriminate].
  destruct (negb (String.eqb authHeader "")) eqn:Ene; [|discriminate].
  destruct (String.prefix "Bearer " authHeader) eqn:Ep; [|discriminate].
  cbn [andb] in H.
  destruct (verifyToken _) as [payload|] eqn:Ev; [|discriminate].
  destruct (o n) as [lat|] eqn:Ho; [|discriminate].
  cbn [returned] in H.
  destruct (findUnique (Str (userId payload)) w) as [[user|]|e] eqn:Hf;
    [|discriminate|discriminate].
  injection H as H.
  exists authHeader, payload, user, lat. repeat split; congruence.
Qed.

(** ** [api/auth/me] *)

Lemma assoc_obj_set_same fs k v : assoc k (obj_set fs k v) = Some v.
Proof.
  induction fs as [|[k' v'] fs IH]; simpl.
  - rewrite String.eqb_refl. reflexivity.
  - destruct (String.eqb k k') eqn:E; simpl; rewrite E; [reflexivity | exact IH].
Qed.

Lemma assoc_obj_set_other fs k v k' :
  k' <> k -> assoc k' (obj_set fs k v) = assoc k' fs.
Proof.
  intros Hk. apply String.eqb_neq in Hk.
  induction fs as [|[k2 v2] fs IH]; simpl.
  - rewrite Hk. reflexivity.
  - destruct (String.eqb k k2) eqn:E; simpl.
    + apply String.eqb_eq in E. subst k2. rewrite Hk. reflexivity.
    + destruct (String.eqb k' k2); [reflexivity | exact IH].
Qed.

Lemma GET_me_checked token payload query :
  verifyToken token = Some payload ->
  userId payload <> "" ->
  AuthMe.GET (Some ("Bearer " +:+ token)) query =
  match AuthMe.race_timeout query with
  | inl userData =>
      if negb (truthy userData) then AuthMe.json_error "User not found" 404
      else if truthy (prop userData "tenant") then
        NextResponse_json
          (AuthMe.assign userData "tenant"
             (AuthMe.with_licensing (prop userData "tenant"))) 200
      else NextResponse_json userData 200
  | inr thrown =>
      AuthMe.json_error (default "Failed to get user" thrown)
        (if AuthMe.includes (default "Failed to get user" thrown) "timeout"
         then 504 else 500)
  end.
Proof.
  intros Hv Hid. unfold AuthMe.GET.
  rewrite bearer_accepted, bearer_token, Hv.
  apply String.eqb_neq in Hid. rewrite Hid. reflexivity.
Qed.

(** X23. The tenant in the response of [/api/auth/me] always carries
    its licensing: [licensedModules] and [subscriptionTier] are the
    record's when these are truthy and [[]] and ['free'] otherwise, so
    neither is ever falsy; every other field of the tenant and of the
    user is the record's. *)
Theorem auth_me_licensing_defaults
    (token : string) (payload : claims) (fs tfs : list (string * value)) (lat : N) :
  verifyToken token = Some payload ->
  userId payload <> "" ->
  (lat < 2000)%N ->
  prop (Obj fs) "tenant" = Obj tfs ->
  exists b,
    AuthMe.GET (Some ("Bearer " +:+ token)) (AuthMe.Resolves (Obj fs) lat)
    = NextResponse_json b 200 /\
    prop (prop b "tenant") "licensedModules"
    = (if truthy (prop (Obj tfs) "licensedModules")
       then prop (Obj tfs) "licensedModules" else Arr []) /\
    prop (prop b "tenant") "subscriptionTier"
    = (if truthy (prop (Obj tfs) "subscriptionTier")
       then prop (Obj tfs) "subscriptionTier" else Str "free") /\
    truthy (prop (prop b "tenant") "licensedModules") = true /\
    truthy (prop (prop b "tenant") "subscriptionTier") = true /\
    (forall k, k <> "licensedModules" -> k <> "subscriptionTier" ->
               prop (prop b "tenant") k = prop (Obj tfs) k) /\
    (forall k, k <> "tenant" -> prop b k = prop (Obj fs) k).
Proof.
  intros Hv Hid Hlat Hten.
  rewrite (GET_me_checked token payload _ Hv Hid).
  unfold AuthMe.race_timeout. apply N.ltb_lt in Hlat. rewrite Hlat.
  rewrite Hten. cbn [truthy negb AuthMe.assign].
  eexists. split; [reflexivity|].
  assert (Hb : prop (Obj (obj_set fs "tenant" (AuthMe.with_licensing (Obj tfs))))
                 "tenant" = AuthMe.with_licensing (Obj tfs)).
  { unfold prop. rewrite assoc_obj_set_same. reflexivity. }
  rewrite Hb. unfold AuthMe.with_licensing, AuthMe.or_else.
  cbn [AuthMe.own_properties].
  assert (Hm : prop (Obj (obj_set (obj_set tfs "licensedModules"
                 (if truthy (prop (Obj tfs) "licensedModules")
                  then prop (Obj tfs) "licensedModules" else Arr []))
                 "subscriptionTier"
                 (if truthy (prop (Obj tfs) "subscriptionTier")
                  then prop (Obj tfs) "subscriptionTier" else Str "free")))
               "licensedModules"
             = (if truthy (prop (Obj tfs) "licensedModules")
                then prop (Obj tfs) "licensedModules" else Arr [])).
  { unfold prop at 1. rewrite assoc_obj_set_other by discriminate.
    rewrite assoc_obj_set_same. reflexivity. }
  assert (Hs : prop (Obj (obj_set (obj_set tfs "licensedModules"
                 (if truthy (prop (Obj tfs) "licensedModules")
                  then prop (Obj tfs) "licensedModules" else Arr []))
                 "subscriptionTier"
                 (if truthy (prop (Obj tfs) "subscriptionTier")
                  then prop (Obj tfs) "subscriptionTier" else Str "free")))
               "subscriptionTier"
             = (if truthy (prop (Obj tfs) "subscriptionTier")
                then prop (Obj tfs) "subscriptionTier" else Str "free")).
  { unfold prop at 1. rewrite assoc_obj_set_same. reflexivity. }
  split; [exact Hm|]. split; [exact Hs|].
  split; [rewrite Hm; destruct (truthy (prop (Obj tfs) "licensedModules")) eqn:E;
          [exact E | reflexivity]|].
  split; [rewrite Hs; destruct (truthy (prop (Obj tfs) "subscriptionTier")) eqn:E;
          [exact E | reflexivity]|].
  split.
  - intros k H1 H2. unfold prop. rewrite !assoc_obj_set_other by assumption.
    reflexivity.
  - intros k H1. unfold prop. rewrite assoc_obj_set_other by assumption.
    reflexivity.
Qed.

(** X24. A query that has not settled within 2000 ms is answered with
    504 and "Database query timeout", whatever it would have resolved or
    rejected with. *)
Theorem auth_me_slow_query_is_504
    (token : string) (payload : claims) (query : AuthMe.settlement) :
  verifyToken token = Some payload ->
  userId payload <> "" ->
  (2000 <= AuthMe.settled_after query)%N ->
  AuthMe.GET (Some ("Bearer " +:+ token)) query
  = NextResponse_json (Obj [("error", Str "Database query timeout")]) 504.
Proof.
  intros Hv Hid Hlat.
  rewrite (GET_me_checked token payload _ Hv Hid).
  unfold AuthMe.race_timeout.
  destruct query as [userData lat | message lat]; simpl in Hlat;
    apply N.ltb_ge in Hlat; rewrite Hlat; reflexivity.
Qed.

(** X25. [/api/auth/me] answers 200 only to a [Bearer] header whose
    token the codec accepts and which names a user, when the query has
    resolved within 2000 ms to a record that is not falsy; the answer
    is never a redirect. *)
Theorem auth_me_200_only_with_token_and_user
    (authorization : option string) (query : AuthMe.settlement) :
  (exists b status, AuthMe.GET authorization query = NextResponse_json b status) /\
  forall b,
    AuthMe.GET authorization query = NextResponse_json b 200 ->
    exists authHeader payload userData lat,
      authorization = Some authHeader /\
      String.prefix "Bearer " authHeader = true /\
      verifyToken (String.substring 7 (String.length authHeader - 7) authHeader)
      = Some payload /\
      userId payload <> "" /\
      query = AuthMe.Resolves userData lat /\ (lat < 2000)%N /\
      truthy userData = true.
Proof.
  unfold AuthMe.GET, AuthMe.json_error.
  destruct authorization as [authHeader|].
  2: { split; [eexists _, _; reflexivity | discriminate]. }
  destruct (negb (String.eqb authHeader "")) eqn:Ene.
  2: { split; [eexists _, _; reflexivity | discriminate]. }
  destruct (String.prefix "Bearer " authHeader) eqn:Ep.
  2: { split; [eexists _, _; reflexivity | discriminate]. }
  cbn [andb].
  destruct (verifyToken _) as [payload|] eqn:Ev.
  2: { split; [eexists _, _; reflexivity | discriminate]. }
  destruct (String.eqb_spec (userId payload) "") as [Eid|Eid].
  1: { split; [eexists _, _; reflexivity | discriminate]. }
  unfold AuthMe.race_timeout.
  destruct query as [userData lat | message lat].
  - destruct (N.ltb_spec lat 2000) as [Hlat|Hlat].
    + destruct (truthy userData) eqn:Et; cbn [negb].
      * split.
        { destruct (truthy (prop userData "tenant")); eexists _, _; reflexivity. }
        intros b _. exists authHeader, payload, userData, lat.
        repeat split; assumption.
      * split; [eexists _, _; reflexivity | discriminate].
    + split; [eexists _, _; reflexivity|]. intros b H.
      injection H as _ H. discriminate.
  - split.
    + destruct (lat <? 2000)%N; eexists _, _; reflexivity.
    + intros b H. destruct (lat <? 2000)%N; injection H as _ H;
        repeat match type of H with
               | context [if ?c then _ else _] => destruct c
               end; discriminate.
Qed.

End Further.

(** ** The further properties at the sample inputs *)

Lemma token_refused_before_any_call_witness :
  exists b status,
    run (Token.POST (platform := platform) env bytes2 (Some intruder_request))
      (fun _ => Replies 5) 0 world_refresh
    = {| returned := Ok (NextResponse_json b status);
         final := world_refresh; next := 0 |} /\
    (status = 400 \/ status = 401 \/ status = 500)%N.
Proof.
  apply (token_refused_before_any_call (platform := platform) env bytes2
           (Some intruder_request) (fun _ => Replies 5) 0 world_refresh).
  intros body E. injection E as <-. split.
  - intros (H & _). vm_compute in H. discriminate.
  - intros (_ & _ & H). vm_compute in H. discriminate.
Defined.

Lemma sample_code_read :
  returned (run (Cache.get (code_key (prop (code_body code1 (Str callback)) "code")))
              (fun _ => Replies 5) 0 world_code) = Ok payload1.
Proof. vm_compute. reflexivity. Qed.

Lemma code_exchange_signs_current_row_witness :
  returned (run (Token.POST (platform := platform) env bytes2
                   (Some (code_body code1 (Str callback))))
              (fun _ => Replies 5) 0 world_code)
  = Ok (NextResponse_json tokens1 200).
Proof.
  apply (code_exchange_signs_current_row (platform := platform) env bytes2
           (code_body code1 (Str callback)) payload1 (fun _ => Replies 5) 0
           world_code 5 user1_joined tenant1).
  - apply sample_code_request.
  - exact sample_code_read.
  - reflexivity.
  - vm_compute. reflexivity.
  - reflexivity.
  - split; vm_compute; reflexivity.
Defined.

(** The lookup is not answered: the code is gone all the same. *)
Lemma code_spent_without_tokens_witness :
  redis (final (run (Token.POST (platform := platform) env bytes2
                       (Some (code_body code1 (Str callback))))
                  (answers [Replies 5; Replies 5]) 0 world_code))
  = delete (code_key (prop (code_body code1 (Str callback)) "code"))
      (redis world_code).
Proof.
  apply (code_spent_without_tokens (platform := platform) env bytes2
           (code_body code1 (Str callback)) payload1
           (answers [Replies 5; Replies 5]) 0 world_code 5).
  - apply sample_code_request.
  - vm_compute. reflexivity.
  - reflexivity.
  - vm_compute. reflexivity.
  - reflexivity.
  - left. reflexivity.
Defined.

Lemma token_issued_only_after_lookup_witness :
  exists body payload user t,
    Some (code_body code1 (Str callback)) = Some body /\
    truthy payload = true /\
    finds (prop payload "userId") world_code user t /\
    ((code_request env body /\
      returned (run (Cache.get (code_key (prop body "code")))
                  (fun _ => Replies 5) 0 world_code) = Ok payload /\
      strict_eq (prop body "redirect_uri") (prop payload "redirectUri") = true /\
      token_response (access_token (platform := platform) user t)
        (toString_hex bytes2) (Some (prop payload "scope"))
      = NextResponse_json tokens1 200) \/
     (refresh_request env body /\
      returned (run (Cache.get (refresh_key (prop body "refresh_token")))
                  (fun _ => Replies 5) 0 world_code) = Ok payload /\
      token_response (access_token (platform := platform) user t)
        (toString_hex bytes2) None
      = NextResponse_json tokens1 200)).
Proof.
  apply (token_issued_only_after_lookup (platform := platform) env bytes2
           (Some (code_body code1 (Str callback))) (fun _ => Replies 5) 0
           world_code tokens1).
  vm_compute. reflexivity.
Defined.

Lemma token_touches_only_its_keys_witness :
  redis (final (run (Token.POST (platform := platform) env bytes3
                       (Some (refresh_body refresh1)))
                  (fun _ => Replies 5) 0 world_refresh))
    !! ("oauth:code:" +:+ code1)
  = redis world_refresh !! ("oauth:code:" +:+ code1).
Proof.
  apply (token_touches_only_its_keys (platform := platform) env bytes3
           (Some (refresh_body refresh1)) (fun _ => Replies 5) 0 world_refresh
           ("oauth:code:" +:+ code1)).
  - intros body E. injection E as <-.
    split; [exact I|]. split; [exact I|]. split; vm_compute; discriminate.
  - vm_compute. discriminate.
Defined.

Lemma authorize_without_session_witness :
  run (Authorize.GET (platform := platform) env bytes1 anonymous_request)
    (fun _ => Replies 5) 0 world0
  = {| returned := Ok (login_redirect (platform := platform) anonymous_request);
       final := world0; next := 0 |}.
Proof.
  destruct (authorize_without_session (platform := platform) env bytes1
              anonymous_request (fun _ => Replies 5) 0 world0)
    as (r & Hrun & Hlogin & _).
  - intros token H. vm_compute in H. discriminate.
  - rewrite Hrun, Hlogin; [reflexivity|].
    split; [vm_compute; reflexivity|]. split; [reflexivity|].
    vm_compute. discriminate.
Defined.

Lemma unparsable_logged_in :
  logged_in (platform := platform) env unparsable_request world0
    "m.example.com/cb" user1_joined.
Proof.
  constructor; try reflexivity.
  exists "jwt.u1", session1. repeat split; vm_compute; reflexivity.
Qed.

Lemma authorize_stores_undeliverable_code_witness :
  returned (run (Authorize.GET (platform := platform) env bytes1 unparsable_request)
              (fun _ => Replies 5) 0 world0)
  = Ok (login_redirect (platform := platform) unparsable_request) /\
  redis (final (run (Authorize.GET (platform := platform) env bytes1
                       unparsable_request)
                  (fun _ => Replies 5) 0 world0))
    !! ("oauth:code:" +:+ code1)
  = Some {| Redis.data :=
              code_text unparsable_request "m.example.com/cb" user1_joined;
            Redis.expires_at := Some 1300005%N |}.
Proof.
  destruct (authorize_stores_undeliverable_code (platform := platform) env bytes1
              unparsable_request (fun _ => Replies 5) 0 world0
              "m.example.com/cb" user1_joined 5
              unparsable_logged_in eq_refl eq_refl) as (H1 & _ & H3).
  split; [exact H1|]. exact (H3 5%N eq_refl).
Defined.

Lemma authorize_redirect_parameters_witness :
  exists target,
    returned (run (Authorize.GET (platform := platform) env bytes1 authorize_request)
                (fun _ => Replies 5) 0 world0)
    = Ok (NextResponse_redirect target) /\
    base target = base callback_url /\
    searchParams_getAll (searchParams target) "code" = [toString_hex bytes1] /\
    searchParams_getAll (searchParams target) "state"
    = match Authorize.nonempty (Authorize.state authorize_request) with
      | Some s => [s]
      | None => searchParams_getAll (searchParams callback_url) "state"
      end /\
    forall k, k <> "code" -> k <> "state" ->
      searchParams_getAll (searchParams target) k
      = searchParams_getAll (searchParams callback_url) k.
Proof.
  apply (authorize_redirect_parameters (platform := platform) env bytes1
           authorize_request (fun _ => Replies 5) 0 world0 callback user1_joined 5
           callback_url).
  - exact sample_logged_in.
  - reflexivity.
  - reflexivity.
Defined.

Lemma userinfo_200_only_for_known_user_witness :
  exists authHeader payload user lat,
    Some "Bearer jwt.u1" = Some authHeader /\
    String.prefix "Bearer " authHeader = true /\
    verifyToken (Platform := platform)
      (String.substring 7 (String.length authHeader - 7) authHeader)
    = Some payload /\
    (fun _ : nat => Replies 5) 0 = Replies lat /\
    findUnique (Str (userId payload)) world0 = Ok (Some user) /\
    UserInfo.userinfo_body user1_joined = UserInfo.userinfo_body user.
Proof.
  apply (userinfo_200_only_for_known_user (platform := platform)
           (Some "Bearer jwt.u1") (fun _ => Replies 5) 0 world0
           (UserInfo.userinfo_body user1_joined)).
  vm_compute. reflexivity.
Defined.

Lemma auth_me_licensing_defaults_witness :
  exists b,
    AuthMe.GET (platform := platform) (Some ("Bearer " +:+ "jwt.u1"))
      (AuthMe.Resolves (Obj me_record) 40)
    = NextResponse_json b 200 /\
    prop (prop b "tenant") "licensedModules" = Arr [] /\
    prop (prop b "tenant") "subscriptionTier" = Str "free".
Proof.
  destruct (auth_me_licensing_defaults (platform := platform) "jwt.u1" session1
              me_record me_tenant 40) as (b & H1 & H2 & H3 & _).
  - reflexivity.
  - discriminate.
  - lia.
  - reflexivity.
  - exists b. split; [exact H1|]. split; [exact H2 | exact H3].
Defined.

Lemma auth_me_slow_query_is_504_witness :
  AuthMe.GET (platform := platform) (Some ("Bearer " +:+ "jwt.u1"))
    (AuthMe.Resolves (Obj me_record) 2500)
  = NextResponse_json (Obj [("error", Str "Database query timeout")]) 504.
Proof.
  apply (auth_me_slow_query_is_504 (platform := platform) "jwt.u1" session1
           (AuthMe.Resolves (Obj me_record) 2500)).
  - reflexivity.
  - discriminate.
  - simpl. lia.
Defined.

Lemma sample_refresh_read :
  returned (run (Cache.get (refresh_key (prop (refresh_body refresh1) "refresh_token")))
              (fun _ => Replies 5) 0 world_refresh)
  = Ok (Obj [("userId", Str "u1"); ("tenantId", Str "t1");
             ("clientId", Str "module-crm")]).
Proof. vm_compute. reflexivity. Qed.

Lemma refresh_signs_current_row_witness :
  returned (run (Token.POST (platform := platform) env bytes3
                   (Some (refresh_body refresh1)))
              (fun _ => Replies 5) 0 world_refresh)
  = Ok (NextResponse_json
          (Obj [("access_token", Str "jwt.u1");
                ("token_type", Str "Bearer");
                ("expires_in", Num 86400);
                ("refresh_token", Str (toString_hex bytes3))]) 200).
Proof.
  apply (refresh_signs_current_row (platform := platform) env bytes3
           (refresh_body refresh1)
           (Obj [("userId", Str "u1"); ("tenantId", Str "t1");
                 ("clientId", Str "module-crm")])
           (fun _ => Replies 5) 0 world_refresh 5 user1_joined tenant1).
  - apply sample_refresh_request.
  - exact sample_refresh_read.
  - reflexivity.
  - reflexivity.
  - split; vm_compute; reflexivity.
Defined.

Lemma token_claims_agree_with_userinfo_witness :
  exists signed,
    access_token (platform := platform) user1_joined tenant1
    = signToken (Platform := platform) signed /\
    prop (UserInfo.userinfo_body user1_joined) "licensed_modules"
    = Arr (map Str (c_licensedModules signed)).
Proof.
  destruct (token_claims_agree_with_userinfo (platform := platform) (Str "u1") world0
              user1_joined tenant1) as (signed & Hs & _ & _ & _ & _ & Hm & _).
  - split; vm_compute; reflexivity.
  - exists signed. split; [exact Hs | exact Hm].
Defined.
